(** * n-dhcp4: the packet-socket filter and the test client's hex parser

    A shallow embedding of

    - [n_dhcp4_network_client_packet_socket_new] (src/n-dhcp4-network.c):
      the classic-BPF program it builds, the system calls it issues and
      the value it returns;
    - [parse_hexstr] (src/test-run-client.c);
    - the rest of src/test-run-client.c: the manager, [run], [setup_test],
      [parse_argv] and [main], run against an environment that answers the
      calls into libc and into the n-dhcp4 library.

    Integers of the C code are [Z] with the wrap-around of their width
    written out; a frame is the list of bytes the kernel hands to the
    filter (for an AF_PACKET/SOCK_DGRAM socket it starts at the IP header). *)

From Stdlib Require Import ZArith List Lia Bool String Ascii Strings.Byte.
Import ListNotations.
Local Open Scope Z_scope.

(** ** Classic BPF: <linux/filter.h>, <linux/bpf_common.h> *)

Module Bpf.

(** Instruction classes. *)
Definition BPF_LD   := 0x00.
Definition BPF_LDX  := 0x01.
Definition BPF_ST   := 0x02.
Definition BPF_STX  := 0x03.
Definition BPF_ALU  := 0x04.
Definition BPF_JMP  := 0x05.
Definition BPF_RET  := 0x06.
Definition BPF_MISC := 0x07.

(** ld/ldx fields. *)
Definition BPF_W   := 0x00.
Definition BPF_H   := 0x08.
Definition BPF_B   := 0x10.
Definition BPF_IMM := 0x00.
Definition BPF_ABS := 0x20.
Definition BPF_IND := 0x40.
Definition BPF_MEM := 0x60.
Definition BPF_LEN := 0x80.
Definition BPF_MSH := 0xa0.

(** alu/jmp fields. *)
Definition BPF_ADD  := 0x00.
Definition BPF_SUB  := 0x10.
Definition BPF_MUL  := 0x20.
Definition BPF_DIV  := 0x30.
Definition BPF_OR   := 0x40.
Definition BPF_AND  := 0x50.
Definition BPF_LSH  := 0x60.
Definition BPF_RSH  := 0x70.
Definition BPF_NEG  := 0x80.
Definition BPF_MOD  := 0x90.
Definition BPF_XOR  := 0xa0.
Definition BPF_JA   := 0x00.
Definition BPF_JEQ  := 0x10.
Definition BPF_JGT  := 0x20.
Definition BPF_JGE  := 0x30.
Definition BPF_JSET := 0x40.
Definition BPF_K    := 0x00.
Definition BPF_X    := 0x08.

(** ret and misc fields. *)
Definition BPF_A    := 0x10.
Definition BPF_TAX  := 0x00.
Definition BPF_TXA  := 0x80.

Definition BPF_CLASS  (code : Z) := Z.land code 0x07.
Definition BPF_SIZE   (code : Z) := Z.land code 0x18.
Definition BPF_MODE   (code : Z) := Z.land code 0xe0.
Definition BPF_OP     (code : Z) := Z.land code 0xf0.
Definition BPF_SRC    (code : Z) := Z.land code 0x08.
Definition BPF_RVAL   (code : Z) := Z.land code 0x18.
Definition BPF_MISCOP (code : Z) := Z.land code 0xf8.

(** [struct sock_filter]: a 16-bit opcode, two 8-bit jump offsets and a
    32-bit immediate. *)
Record sock_filter := mk_sock_filter {
  code : Z;
  jt   : Z;
  jf   : Z;
  k    : Z
}.

Definition BPF_STMT (code k : Z) : sock_filter :=
  mk_sock_filter code 0 0 k.
Definition BPF_JUMP (code k jt jf : Z) : sock_filter :=
  mk_sock_filter code jt jf k.

(** [struct sock_fprog]: the program handed to SO_ATTACH_FILTER. *)
Record sock_fprog := mk_sock_fprog {
  len    : Z;
  filter : list sock_filter
}.

(** *** The machine *)

Definition wrap32 (v : Z) : Z := v mod 2 ^ 32.

Definition byte_to_Z (b : byte) : Z := Z.of_N (Byte.to_N b).

Definition pkt_byte (pkt : list byte) (off : Z) : option Z :=
  if off <? 0 then None
  else option_map byte_to_Z (nth_error pkt (Z.to_nat off)).

(** Packet loads read network byte order and fail past the end of the
    packet. *)
Definition load_byte (pkt : list byte) (off : Z) : option Z :=
  pkt_byte pkt off.

Definition load_half (pkt : list byte) (off : Z) : option Z :=
  match pkt_byte pkt off, pkt_byte pkt (off + 1) with
  | Some b0, Some b1 => Some (Z.lor (Z.shiftl b0 8) b1)
  | _, _ => None
  end.

Definition load_word (pkt : list byte) (off : Z) : option Z :=
  match pkt_byte pkt off, pkt_byte pkt (off + 1),
        pkt_byte pkt (off + 2), pkt_byte pkt (off + 3) with
  | Some b0, Some b1, Some b2, Some b3 =>
      Some (Z.lor (Z.shiftl b0 24)
             (Z.lor (Z.shiftl b1 16) (Z.lor (Z.shiftl b2 8) b3)))
  | _, _, _, _ => None
  end.

Definition load (size : Z) (pkt : list byte) (off : Z) : option Z :=
  if size =? BPF_W then load_word pkt off
  else if size =? BPF_H then load_half pkt off
  else if size =? BPF_B then load_byte pkt off
  else None.

Record regs := mk_regs { A : Z; X : Z }.

Inductive step_result :=
| Continue (pc : nat) (r : regs)
| Return (v : Z)
| Invalid.

(** Offsets with the sign bit set select the kernel's ancillary and
    link-layer windows (SKF_AD_OFF, SKF_NET_OFF, SKF_LL_OFF); they are
    outside this model.  A load past the end of the packet ends the run
    with verdict 0. *)
Definition pkt_load (size : Z) (pkt : list byte) (off : Z)
    (cont : Z -> step_result) : step_result :=
  if 0x80000000 <=? off then Invalid
  else match load size pkt off with
       | Some v => cont v
       | None => Return 0
       end.

Definition alu (op a b : Z) : option Z :=
  if op =? BPF_ADD then Some (wrap32 (a + b))
  else if op =? BPF_SUB then Some (wrap32 (a - b))
  else if op =? BPF_MUL then Some (wrap32 (a * b))
  else if op =? BPF_OR  then Some (Z.lor a b)
  else if op =? BPF_AND then Some (Z.land a b)
  else if op =? BPF_XOR then Some (Z.lxor a b)
  else if op =? BPF_LSH then Some (wrap32 (Z.shiftl a b))
  else if op =? BPF_RSH then Some (Z.shiftr a b)
  else if op =? BPF_NEG then Some (wrap32 (- a))
  else None.

Definition jmp_taken (op a b : Z) : option bool :=
  if op =? BPF_JA then Some true
  else if op =? BPF_JEQ then Some (a =? b)
  else if op =? BPF_JGT then Some (b <? a)
  else if op =? BPF_JGE then Some (b <=? a)
  else if op =? BPF_JSET then Some (negb (Z.land a b =? 0))
  else None.

(** One instruction, as the kernel's interpreter executes it.  Scratch
    memory (BPF_ST, BPF_STX, BPF_MEM) and division are not modelled:
    such instructions are [Invalid] here. *)
Definition bpf_step (ins : sock_filter) (pkt : list byte)
    (pc : nat) (r : regs) : step_result :=
  let c := code ins in
  let cls := BPF_CLASS c in
  let next := S pc in
  if cls =? BPF_LD then
    let mode := BPF_MODE c in
    if mode =? BPF_IMM then Continue next (mk_regs (k ins) (X r))
    else if mode =? BPF_LEN then
      Continue next (mk_regs (wrap32 (Z.of_nat (List.length pkt))) (X r))
    else if mode =? BPF_ABS then
      pkt_load (BPF_SIZE c) pkt (k ins)
        (fun v => Continue next (mk_regs v (X r)))
    else if mode =? BPF_IND then
      pkt_load (BPF_SIZE c) pkt (wrap32 (X r + k ins))
        (fun v => Continue next (mk_regs v (X r)))
    else Invalid
  else if cls =? BPF_LDX then
    let mode := BPF_MODE c in
    if mode =? BPF_IMM then Continue next (mk_regs (A r) (k ins))
    else if mode =? BPF_LEN then
      Continue next (mk_regs (A r) (wrap32 (Z.of_nat (List.length pkt))))
    else if mode =? BPF_MSH then
      pkt_load BPF_B pkt (k ins)
        (fun v => Continue next (mk_regs (A r) (Z.shiftl (Z.land v 0xf) 2)))
    else Invalid
  else if cls =? BPF_ALU then
    let b := if BPF_SRC c =? BPF_X then X r else k ins in
    match alu (BPF_OP c) (A r) b with
    | Some v => Continue next (mk_regs v (X r))
    | None => Invalid
    end
  else if cls =? BPF_JMP then
    let b := if BPF_SRC c =? BPF_X then X r else k ins in
    if BPF_OP c =? BPF_JA then Continue (next + Z.to_nat (k ins)) r
    else match jmp_taken (BPF_OP c) (A r) b with
         | Some true  => Continue (next + Z.to_nat (jt ins)) r
         | Some false => Continue (next + Z.to_nat (jf ins)) r
         | None => Invalid
         end
  else if cls =? BPF_RET then
    if BPF_RVAL c =? BPF_K then Return (k ins)
    else if BPF_RVAL c =? BPF_A then Return (A r)
    else Invalid
  else if cls =? BPF_MISC then
    if BPF_MISCOP c =? BPF_TAX then Continue next (mk_regs (A r) (A r))
    else if BPF_MISCOP c =? BPF_TXA then Continue next (mk_regs (X r) (X r))
    else Invalid
  else Invalid.

(** The interpreter loop.  [None] is a run that leaves the program, meets
    an instruction outside the model or exhausts [fuel]. *)
Fixpoint bpf_run (fuel : nat) (prog : list sock_filter) (pkt : list byte)
    (pc : nat) (r : regs) : option Z :=
  match fuel with
  | O => None
  | S fuel' =>
      match nth_error prog pc with
      | None => None
      | Some ins =>
          match bpf_step ins pkt pc r with
          | Return v => Some v
          | Invalid => None
          | Continue pc' r' => bpf_run fuel' prog pkt pc' r'
          end
      end
  end.

(** The instructions the kernel copies from a [sock_fprog]. *)
Definition fprog_insns (fp : sock_fprog) : list sock_filter :=
  firstn (Z.to_nat (len fp)) (filter fp).

(** The verdict of an attached program on a frame: the number of bytes to
    keep, 0 to drop.  Every instruction moves forward, so the program's
    length is fuel enough. *)
Definition run_filter (fp : sock_fprog) (pkt : list byte) : option Z :=
  let prog := fprog_insns fp in
  bpf_run (List.length prog) prog pkt 0%nat (mk_regs 0 0).

End Bpf.

(** ** System headers and the library's private header *)

Module Hdr.

(** <netinet/ip.h>, <netinet/in.h>, <linux/udp.h> *)
Definition offsetof_iphdr_frag_off := 6.
Definition offsetof_iphdr_protocol := 9.
Definition IPPROTO_UDP := 17.
Definition IP_DF := 0x4000.
Definition IP_MF := 0x2000.
Definition IP_OFFMASK := 0x1fff.
Definition sizeof_udphdr := 8.
Definition offsetof_udphdr_dest := 2.

(** <sys/socket.h>, <linux/if_packet.h>, <linux/if_ether.h>, <errno.h> *)
Definition AF_PACKET := 17.
Definition SOCK_DGRAM := 2.
Definition SOL_SOCKET := 1.
Definition SO_ATTACH_FILTER := 26.
Definition SOL_PACKET := 263.
Definition PACKET_AUXDATA := 8.
Definition ETH_P_IP := 0x0800.
Definition ENOMEM := 12.

(** Modelled from the spec: n-dhcp4-private.h is not among the sources; the
    client port is 68 (spec, section 6). *)
Definition N_DHCP4_NETWORK_CLIENT_PORT := 68.

(** Modelled from the spec: n-dhcp4-private.h is not among the sources; op
    is 1 for BOOTREQUEST and 2 for BOOTREPLY (spec, section 3). *)
Definition N_DHCP4_OP_BOOTREPLY := 2.

(** Modelled from the spec: n-dhcp4-private.h is not among the sources; the
    magic cookie is 0x63825363 (spec, sections 3 and 6). *)
Definition N_DHCP4_MESSAGE_MAGIC := 0x63825363.

(** Modelled from the spec: n-dhcp4-private.h is not among the sources; the
    fixed prelude is op, htype, hlen, hops (one byte each) and then the
    32-bit xid (spec, section 3), so op is at offset 0 and xid at 4. *)
Definition offsetof_NDhcp4Header_op := 0.
Definition offsetof_NDhcp4Header_xid := 4.

(** Modelled from the spec: n-dhcp4-private.h is not among the sources; the
    prelude through file[128] takes 236 bytes and the 4-byte cookie
    follows it, 240 bytes in all (spec, sections 3 and 4.1). *)
Definition offsetof_NDhcp4Message_magic := 236.
Definition sizeof_NDhcp4Message := 240.

(** Byte order of the machine the library is compiled for. *)
Inductive byte_order := LittleEndian | BigEndian.

Definition bswap_16 (v : Z) : Z :=
  Z.lor (Z.shiftl (Z.land v 0xff) 8) (Z.land (Z.shiftr v 8) 0xff).

Definition ntohs (host : byte_order) (v : Z) : Z :=
  match host with
  | BigEndian => v
  | LittleEndian => bswap_16 v
  end.

Definition htons (host : byte_order) (v : Z) : Z := ntohs host v.

End Hdr.

(** ** The operating system, as far as the function sees it *)

Module Sys.

(** [struct sockaddr_ll] *)
Record sockaddr_ll := mk_sockaddr_ll {
  sll_family   : Z;
  sll_protocol : Z;
  sll_ifindex  : Z;
  sll_hatype   : Z;
  sll_pkttype  : Z;
  sll_halen    : Z;
  sll_addr     : list Z
}.

Inductive sockopt_val :=
| OptFprog (fp : Bpf.sock_fprog)
| OptInt (v : Z).

Inductive syscall :=
| Socket (domain type protocol : Z)
| Setsockopt (fd level optname : Z) (optval : sockopt_val)
| Bind (fd : Z) (addr : sockaddr_ll)
| Close (fd : Z).

(** What a call produces: a non-negative value, or -1 with errno set to a
    positive error number. *)
Inductive sysret :=
| SysOk (v : N)
| SysErr (e : positive).

Definition sysret_ok (r : sysret) : bool :=
  match r with SysOk _ => true | SysErr _ => false end.

(** What the function does that its caller can observe: the calls it makes,
    with their results, and the stores through its out-parameter. *)
Inductive event :=
| EvCall (c : syscall) (r : sysret)
| EvStoreSockfdp (v : Z).

Definition is_store (e : event) : bool :=
  match e with EvStoreSockfdp _ => true | EvCall _ _ => false end.

Definition is_close (fd : Z) (e : event) : bool :=
  match e with
  | EvCall (Close fd') _ => fd' =? fd
  | _ => false
  end.

Fixpoint call_results (t : list event) : list sysret :=
  match t with
  | [] => []
  | EvCall _ r :: t' => r :: call_results t'
  | EvStoreSockfdp _ :: t' => call_results t'
  end.

Section Kernel.

(** The kernel is any deterministic machine answering system calls. *)
Variable kernel : Type.
Variable sys : kernel -> syscall -> sysret * kernel.

Record world := mk_world {
  w_kernel  : kernel;
  w_errno   : Z;
  w_sockfdp : Z;           (* the int the out-parameter points to *)
  w_trace   : list event
}.

Definition M (T : Type) : Type := world -> T * world.

Definition mret {T} (v : T) : M T := fun w => (v, w).

Definition mbind {T U} (m : M T) (f : T -> M U) : M U :=
  fun w => let (v, w') := m w in f v w'.

Definition call (c : syscall) : M Z := fun w =>
  let (res, k') := sys (w_kernel w) c in
  let t := w_trace w ++ [EvCall c res] in
  match res with
  | SysOk v => (Z.of_N v, mk_world k' (w_errno w) (w_sockfdp w) t)
  | SysErr e => (-1, mk_world k' (Z.pos e) (w_sockfdp w) t)
  end.

Definition errno : M Z := fun w => (w_errno w, w).

Definition store_sockfdp (v : Z) : M unit := fun w =>
  (tt, mk_world (w_kernel w) (w_errno w) v
         (w_trace w ++ [EvStoreSockfdp v])).

Definition socket (domain type protocol : Z) : M Z :=
  call (Socket domain type protocol).
Definition setsockopt (fd level optname : Z) (optval : sockopt_val) : M Z :=
  call (Setsockopt fd level optname optval).
Definition bind (fd : Z) (addr : sockaddr_ll) : M Z :=
  call (Bind fd addr).

End Kernel.

Arguments mret {kernel T} v.
Arguments mbind {kernel T U} m f.
Arguments errno {kernel}.
Arguments store_sockfdp {kernel} v.
Arguments mk_world {kernel}.
Arguments w_kernel {kernel}.
Arguments w_errno {kernel}.
Arguments w_sockfdp {kernel}.
Arguments w_trace {kernel}.

(** A kernel that answers from a script, one entry per call, and fails
    with ENOSYS (38) once the script is used up. *)
Definition scripted : Type := list sysret.
Definition scripted_sys (s : scripted) (c : syscall) : sysret * scripted :=
  match s with
  | [] => (SysErr 38%positive, [])
  | r :: s' => (r, s')
  end.

End Sys.

Declare Scope sys_scope.
Notation "x <- m ;; f" := (Sys.mbind m (fun x => f))
  (at level 61, m at next level, right associativity) : sys_scope.
Notation "m ;;; f" := (Sys.mbind m (fun _ => f))
  (at level 61, right associativity) : sys_scope.

(** ** src/n-dhcp4-network.c *)

Module Net.
Import Bpf Hdr Sys.
Local Open Scope sys_scope.

(** The local array [filter] of
    [n_dhcp4_network_client_packet_socket_new]. *)
Definition filter (host : byte_order) (xid : Z) : list sock_filter := [
  (* IP *)
  BPF_STMT (BPF_LD + BPF_B + BPF_ABS) offsetof_iphdr_protocol;
  BPF_JUMP (BPF_JMP + BPF_JEQ + BPF_K) IPPROTO_UDP 1 0;
  BPF_STMT (BPF_RET + BPF_K) 0;

  BPF_STMT (BPF_LD + BPF_B + BPF_ABS) offsetof_iphdr_frag_off;
  BPF_STMT (BPF_ALU + BPF_AND + BPF_K) (ntohs host (Z.lor IP_MF IP_OFFMASK));
  BPF_JUMP (BPF_JMP + BPF_JEQ + BPF_K) 0 1 0;
  BPF_STMT (BPF_RET + BPF_K) 0;

  BPF_STMT (BPF_LDX + BPF_B + BPF_MSH) 0;
  BPF_STMT (BPF_LD + BPF_W + BPF_LEN) 0;
  BPF_STMT (BPF_ALU + BPF_SUB + BPF_X) 0;
  BPF_JUMP (BPF_JMP + BPF_JGE + BPF_K)
           (sizeof_udphdr + sizeof_NDhcp4Message) 1 0;
  BPF_STMT (BPF_RET + BPF_K) 0;

  (* UDP *)
  BPF_STMT (BPF_LD + BPF_H + BPF_IND) offsetof_udphdr_dest;
  BPF_JUMP (BPF_JMP + BPF_JEQ + BPF_K) N_DHCP4_NETWORK_CLIENT_PORT 1 0;
  BPF_STMT (BPF_RET + BPF_K) 0;

  BPF_STMT (BPF_LD + BPF_W + BPF_K) sizeof_udphdr;
  BPF_STMT (BPF_ALU + BPF_ADD + BPF_X) 0;
  BPF_STMT (BPF_MISC + BPF_TAX) 0;

  (* DHCP *)
  BPF_STMT (BPF_LD + BPF_B + BPF_IND) offsetof_NDhcp4Header_op;
  BPF_JUMP (BPF_JMP + BPF_JEQ + BPF_K) N_DHCP4_OP_BOOTREPLY 1 0;
  BPF_STMT (BPF_RET + BPF_K) 0;

  BPF_STMT (BPF_LD + BPF_W + BPF_IND) offsetof_NDhcp4Header_xid;
  BPF_JUMP (BPF_JMP + BPF_JEQ + BPF_K) xid 1 0;
  BPF_STMT (BPF_RET + BPF_K) 0;

  BPF_STMT (BPF_LD + BPF_W + BPF_IND) offsetof_NDhcp4Message_magic;
  BPF_JUMP (BPF_JMP + BPF_JEQ + BPF_K) N_DHCP4_MESSAGE_MAGIC 1 0;
  BPF_STMT (BPF_RET + BPF_K) 0;

  BPF_STMT (BPF_RET + BPF_K) 65535
].

(** The local [fprog]: [.len = sizeof(filter) / sizeof(filter[0])]. *)
Definition fprog (host : byte_order) (xid : Z) : sock_fprog :=
  mk_sock_fprog (Z.of_nat (List.length (filter host xid))) (filter host xid).

(** The local [addr]; the members the initializer does not name are 0. *)
Definition addr (host : byte_order) (ifindex : Z) : sockaddr_ll :=
  mk_sockaddr_ll AF_PACKET (htons host ETH_P_IP) ifindex 0 0 0 (repeat 0 8).

Section Kernel.
Variable kernel : Type.
Variable sys : kernel -> syscall -> sysret * kernel.

(** [sockfdp] is the cell [w_sockfdp] of the world. *)
Definition n_dhcp4_network_client_packet_socket_new
    (host : byte_order) (ifindex xid : Z) : M kernel Z :=
  let on := 1 in
  sockfd <- socket kernel sys AF_PACKET SOCK_DGRAM 0 ;;
  if sockfd <? 0 then e <- errno ;; mret (- e) else

  r <- setsockopt kernel sys sockfd SOL_SOCKET SO_ATTACH_FILTER
         (OptFprog (fprog host xid)) ;;
  if r <? 0 then e <- errno ;; mret (- e) else

  r <- setsockopt kernel sys sockfd SOL_PACKET PACKET_AUXDATA (OptInt on) ;;
  if r <? 0 then e <- errno ;; mret (- e) else

  r <- bind kernel sys sockfd (addr host ifindex) ;;
  if r <? 0 then e <- errno ;; mret (- e) else

  store_sockfdp sockfd ;;;
  mret 0.

End Kernel.

End Net.

(** ** Frames used as test vectors *)

Module Frames.
Import Bpf Hdr.

Definition byte_of_Z (v : Z) : byte :=
  match Byte.of_N (Z.to_N v) with
  | Some b => b
  | None => x00
  end.

Definition be16 (v : Z) : list byte :=
  [byte_of_Z (Z.shiftr v 8 mod 256); byte_of_Z (v mod 256)].

Definition be32 (v : Z) : list byte :=
  be16 (Z.shiftr v 16 mod 65536) ++ be16 (v mod 65536).

Definition zeros (n : nat) : list byte := repeat x00 n.

(** A 20-byte IPv4 header (version 4, IHL 5) with the given 16-bit
    flags-and-fragment-offset field and protocol. *)
Definition ip_header (frag_off proto : Z) : list byte :=
  [x45; x00] ++ be16 268 ++ be16 0 ++ be16 frag_off
    ++ [x40; byte_of_Z proto] ++ be16 0
    ++ zeros 4 ++ [xff; xff; xff; xff].

Definition udp_header (dest : Z) : list byte :=
  be16 67 ++ be16 dest ++ be16 248 ++ be16 0.

(** The 236-byte BOOTP prelude followed by a 4-byte cookie. *)
Definition dhcp_message (op xid cookie : Z) : list byte :=
  [byte_of_Z op; x01; x06; x00] ++ be32 xid ++ zeros 228 ++ be32 cookie.

Definition frame (frag_off proto dest op xid cookie : Z) : list byte :=
  ip_header frag_off proto ++ udp_header dest ++ dhcp_message op xid cookie.

(** A server reply to transaction 0x12345678, unfragmented. *)
Definition reply : list byte :=
  frame 0 IPPROTO_UDP N_DHCP4_NETWORK_CLIENT_PORT N_DHCP4_OP_BOOTREPLY
        0x12345678 N_DHCP4_MESSAGE_MAGIC.

(** The same reply as the last fragment of a datagram: MF clear, fragment
    offset 1 (8 bytes into the datagram). *)
Definition reply_frag_off_1 : list byte :=
  frame 1 IPPROTO_UDP N_DHCP4_NETWORK_CLIENT_PORT N_DHCP4_OP_BOOTREPLY
        0x12345678 N_DHCP4_MESSAGE_MAGIC.

(** The same reply as a last fragment at offset 185 (1480 bytes into the
    datagram, the second fragment at an MTU of 1500). *)
Definition reply_frag_off_185 : list byte :=
  frame 185 IPPROTO_UDP N_DHCP4_NETWORK_CLIENT_PORT N_DHCP4_OP_BOOTREPLY
        0x12345678 N_DHCP4_MESSAGE_MAGIC.

(** The same reply with the more-fragments flag set. *)
Definition reply_mf : list byte :=
  frame IP_MF IPPROTO_UDP N_DHCP4_NETWORK_CLIENT_PORT N_DHCP4_OP_BOOTREPLY
        0x12345678 N_DHCP4_MESSAGE_MAGIC.

(** The same reply with the don't-fragment flag set. *)
Definition reply_df : list byte :=
  frame IP_DF IPPROTO_UDP N_DHCP4_NETWORK_CLIENT_PORT N_DHCP4_OP_BOOTREPLY
        0x12345678 N_DHCP4_MESSAGE_MAGIC.

(** The same reply sent to the server port. *)
Definition reply_port_67 : list byte :=
  frame 0 IPPROTO_UDP 67 N_DHCP4_OP_BOOTREPLY
        0x12345678 N_DHCP4_MESSAGE_MAGIC.

End Frames.

(** ** src/test-run-client.c *)

Module TestRunClient.

Definition ENOMEM := 12.

(** The memory [in] points to: the characters of [s], in order, and a
    terminating NUL after them.  A character is read as its code; codes
    above 127, negative where [char] is signed, match no case of the
    switch either way. *)
Definition in_at (s : string) (i : nat) : Z :=
  match String.get i s with
  | Some c => Z.of_N (N_of_ascii c)
  | None => 0
  end.

(** [strlen]: the number of characters before the first NUL. *)
Fixpoint strlen (s : string) : nat :=
  match s with
  | EmptyString => 0%nat
  | String c s' =>
      if (N_of_ascii c =? 0)%N then 0%nat else S (strlen s')
  end.

(** The value of [v] after the switch on [in[i]]; [v] is a uint8_t. *)
Definition nibble (c : Z) : Z :=
  if (48 <=? c) && (c <=? 57)            (* case '0'...'9' *)
  then (c - 48) mod 256
  else if (97 <=? c) && (c <=? 102)      (* case 'a'...'f' *)
  then (c - 97 + 0xa) mod 256
  else if (65 <=? c) && (c <=? 70)       (* case 'A'...'F' *)
  then (c - 65 + 0xa) mod 256
  else 0.

(** A heap block of bytes; an access outside it is undefined behaviour,
    [None] here. *)
Definition buf_read (b : list Z) (i : nat) : option Z := nth_error b i.

Fixpoint buf_write (b : list Z) (i : nat) (v : Z) : option (list Z) :=
  match b, i with
  | [], _ => None
  | _ :: b', O => Some (v :: b')
  | x :: b', S i' =>
      match buf_write b' i' v with
      | Some b'' => Some (x :: b'')
      | None => None
      end
  end.

(** [malloc(n)]: NULL, or a block of [n] bytes of unspecified content. *)
Definition malloc (heap : option (nat -> Z)) (n : nat) : option (list Z) :=
  match heap with
  | None => None
  | Some junk => Some (map (fun i => junk i mod 256) (seq 0 n))
  end.

(** The body of the for loop, for one value of [i]. *)
Definition parse_hexstr_body (s : string) (out : list Z) (i : nat)
    : option (list Z) :=
  let v := nibble (in_at s i) in
  if negb (i mod 2 =? 0)%nat then
    match buf_read out (i / 2) with
    | None => None
    | Some o =>
        match buf_write out (i / 2) (Z.shiftl o 4 mod 256) with
        | None => None
        | Some out1 =>
            match buf_read out1 (i / 2) with
            | None => None
            | Some o1 => buf_write out1 (i / 2) (Z.lor o1 v)
            end
        end
    end
  else buf_write out (i / 2) v.

(** [for (i = 0; i < n_in; ++i)] *)
Definition parse_hexstr_loop (s : string) (n_in : nat) (out : list Z)
    : option (list Z) :=
  fold_left
    (fun acc i =>
       match acc with
       | Some o => parse_hexstr_body s o i
       | None => None
       end)
    (seq 0 n_in) (Some out).

Inductive outcome :=
| Undefined
| Returned (r : Z) (stored : option (list Z * nat)).

(** [parse_hexstr]: [stored] is what the call leaves in [*strp] and
    [*n_strp], if it writes them.  [strlen] is below SIZE_MAX, so
    [n_in + 1] does not wrap. *)
Definition parse_hexstr (heap : option (nat -> Z)) (s : string) : outcome :=
  let n_in := strlen s in
  let n_out := ((n_in + 1) / 2)%nat in
  match malloc heap n_out with
  | None => Returned (- ENOMEM) None
  | Some out =>
      match parse_hexstr_loop s n_in out with
      | None => Undefined
      | Some out' => Returned 0 (Some (out', n_out))
      end
  end.

(** *** The decoding, as the description of the function has it *)

(** The characters of the C string [s]. *)
Fixpoint c_chars (s : string) : list ascii :=
  match s with
  | EmptyString => []
  | String c s' =>
      if (N_of_ascii c =? 0)%N then [] else c :: c_chars s'
  end.

(** The value of a hexadecimal digit; 0 for any other character. *)
Definition hex_digit_value (c : ascii) : Z :=
  match c with
  | "0" => 0 | "1" => 1 | "2" => 2 | "3" => 3 | "4" => 4
  | "5" => 5 | "6" => 6 | "7" => 7 | "8" => 8 | "9" => 9
  | "a" | "A" => 10 | "b" | "B" => 11 | "c" | "C" => 12
  | "d" | "D" => 13 | "e" | "E" => 14 | "f" | "F" => 15
  | _ => 0
  end%char.

(** Pairs of characters, high nibble first; a last unpaired character
    gives its own value. *)
Fixpoint decode_pairs (cs : list ascii) : list Z :=
  match cs with
  | [] => []
  | [c] => [hex_digit_value c]
  | c1 :: c2 :: rest =>
      (16 * hex_digit_value c1 + hex_digit_value c2) :: decode_pairs rest
  end.

End TestRunClient.

(** ** Fields of a frame, and the filter read as a decision procedure *)

Module Wire.
Import Bpf Hdr.

Definition frame_len (f : list byte) : Z := Z.of_nat (List.length f).

Definition ip_protocol (f : list byte) : option Z :=
  load_byte f offsetof_iphdr_protocol.

(** The 16-bit field holding the flags and the 13-bit fragment offset. *)
Definition ip_frag_off (f : list byte) : option Z :=
  load_half f offsetof_iphdr_frag_off.

(** Its first byte: the flags and the 5 high bits of the offset. *)
Definition ip_frag_off_hi (f : list byte) : option Z :=
  load_byte f offsetof_iphdr_frag_off.

(** The IP header length in bytes: the low nibble of byte 0, times 4. *)
Definition ip_hdr_len (f : list byte) : option Z :=
  option_map (fun v => Z.shiftl (Z.land v 0xf) 2) (load_byte f 0).

Definition at_ip_payload (f : list byte) (rd : Z -> option Z) : option Z :=
  match ip_hdr_len f with
  | Some ihl => rd ihl
  | None => None
  end.

Definition udp_dest (f : list byte) : option Z :=
  at_ip_payload f (fun ihl => load_half f (ihl + offsetof_udphdr_dest)).

Definition dhcp_op (f : list byte) : option Z :=
  at_ip_payload f (fun ihl =>
    load_byte f (ihl + sizeof_udphdr + offsetof_NDhcp4Header_op)).

Definition dhcp_xid (f : list byte) : option Z :=
  at_ip_payload f (fun ihl =>
    load_word f (ihl + sizeof_udphdr + offsetof_NDhcp4Header_xid)).

Definition dhcp_magic (f : list byte) : option Z :=
  at_ip_payload f (fun ihl =>
    load_word f (ihl + sizeof_udphdr + offsetof_NDhcp4Message_magic)).

(** Neither the more-fragments flag nor any fragment-offset bit is set. *)
Definition unfragmented (f : list byte) : Prop :=
  exists v, ip_frag_off f = Some v /\ Z.land v (Z.lor IP_MF IP_OFFMASK) = 0.

(** The frame holds, after its IP header, a UDP header and a DHCP message
    with its cookie. *)
Definition long_enough (f : list byte) : Prop :=
  exists ihl, ip_hdr_len f = Some ihl /\
              sizeof_udphdr + sizeof_NDhcp4Message <= frame_len f - ihl.

Definition opt_test (o : option Z) (test : Z -> bool) : bool :=
  match o with
  | Some v => test v
  | None => false
  end.

(** The filter of [Net.filter], check by check. *)
Definition verdict (host : byte_order) (xid : Z) (f : list byte) : Z :=
  if negb (opt_test (ip_protocol f) (fun a => a =? IPPROTO_UDP)) then 0 else
  if negb (opt_test (ip_frag_off_hi f)
             (fun a => Z.land a (ntohs host (Z.lor IP_MF IP_OFFMASK)) =? 0))
  then 0 else
  match ip_hdr_len f with
  | None => 0
  | Some x =>
      if negb (sizeof_udphdr + sizeof_NDhcp4Message
               <=? wrap32 (wrap32 (frame_len f) - x)) then 0 else
      if negb (opt_test (load_half f (x + offsetof_udphdr_dest))
                 (fun a => a =? N_DHCP4_NETWORK_CLIENT_PORT)) then 0 else
      let x' := sizeof_udphdr + x in
      if negb (opt_test (load_byte f (x' + offsetof_NDhcp4Header_op))
                 (fun a => a =? N_DHCP4_OP_BOOTREPLY)) then 0 else
      if negb (opt_test (load_word f (x' + offsetof_NDhcp4Header_xid))
                 (fun a => a =? xid)) then 0 else
      if negb (opt_test (load_word f (x' + offsetof_NDhcp4Message_magic))
                 (fun a => a =? N_DHCP4_MESSAGE_MAGIC)) then 0 else
      65535
  end.

(** The checks the program makes, as equations on the frame. *)
Definition passes_checks (host : byte_order) (xid : Z) (f : list byte)
    : Prop :=
  ip_protocol f = Some IPPROTO_UDP /\
  (exists b, ip_frag_off_hi f = Some b /\
             Z.land b (ntohs host (Z.lor IP_MF IP_OFFMASK)) = 0) /\
  long_enough f /\
  udp_dest f = Some N_DHCP4_NETWORK_CLIENT_PORT /\
  dhcp_op f = Some N_DHCP4_OP_BOOTREPLY /\
  dhcp_xid f = Some xid /\
  dhcp_magic f = Some N_DHCP4_MESSAGE_MAGIC.

(** Static shape of a program: every instruction is a return of 0 or
    65535, or continues strictly forward inside the program. *)
Definition insn_forward (n : nat) (i : nat) (ins : sock_filter) : bool :=
  let c := code ins in
  if BPF_CLASS c =? BPF_RET then
    (BPF_RVAL c =? BPF_K) && ((k ins =? 0) || (k ins =? 65535))
  else if BPF_CLASS c =? BPF_JMP then
    (0 <=? jt ins) && (0 <=? jf ins)
    && (S i + Z.to_nat (jt ins) <? n)%nat
    && (S i + Z.to_nat (jf ins) <? n)%nat
    && negb (BPF_OP c =? BPF_JA)
  else (S i <? n)%nat.

Fixpoint all_forward (n : nat) (i : nat) (prog : list sock_filter) : bool :=
  match prog with
  | [] => true
  | ins :: prog' => insn_forward n i ins && all_forward n (S i) prog'
  end.

Definition well_formed (prog : list sock_filter) : bool :=
  all_forward (List.length prog) 0 prog.

End Wire.

(** ** Hexadecimal notation of a byte string *)

Module Hex.

(** The digit for a value from 0 to 15, in lower or in upper case. *)
Definition hex_digit (upper : bool) (n : Z) : ascii :=
  nth (Z.to_nat n)
    (list_ascii_of_string
       (if upper then "0123456789ABCDEF" else "0123456789abcdef"))
    "0"%char.

(** Two digits per byte, the high nibble first, as "%02x" prints a byte. *)
Fixpoint to_hex (upper : bool) (bs : list Z) : string :=
  match bs with
  | [] => EmptyString
  | b :: bs' =>
      String (hex_digit upper (b / 16))
        (String (hex_digit upper (b mod 16)) (to_hex upper bs'))
  end.

End Hex.

(** ** src/test-run-client.c: the program around [parse_hexstr] *)

Module Runner.
Import TestRunClient.

(** A pointer is an address; a heap block is a list of cells, bytes for a
    hardware address, pointers for a [Manager]. *)
Definition ptr := Z.
Definition NULL : ptr := 0.

Definition _MAIN_SUCCESS := 0.
Definition MAIN_EXIT := 1.
Definition MAIN_FAILED := 2.

(** The enum of [parse_argv]. *)
Definition _ARG_0 := 0x100.
Definition ARG_BROADCAST_MAC := 0x101.
Definition ARG_IFINDEX := 0x102.
Definition ARG_MAC := 0x103.
Definition ARG_TEST := 0x104.

(** <errno.h>, <poll.h> *)
Definition ENOTRECOVERABLE := 131.
Definition POLLIN := 0x001.

(** The cells of a [struct Manager]. *)
Definition Manager_client := 0%nat.
Definition Manager_probe := 1%nat.
Definition sizeof_Manager := 2%nat.

(** The static variables of the file. *)
Record globals := mk_globals {
  main_arg_broadcast_mac   : ptr;
  main_arg_n_broadcast_mac : Z;
  main_arg_ifindex         : Z;
  main_arg_mac             : ptr;
  main_arg_n_mac           : Z;
  main_arg_test            : bool
}.

Definition globals_init : globals := mk_globals NULL 0 0 NULL 0 false.

(** What the program prints. *)
Inductive message :=
| MsgHelp                               (* print_help, on stdout *)
| MsgEvent (event : Z)                  (* "Event: %u" *)
| MsgInvalidArguments (arg : string)    (* "invalid arguments -- '%s'" *)
| MsgRequiredArguments                  (* "required arguments: ..." *)
| MsgFailedErrno (r : Z)                (* "Failed with system errno %d: %m" *)
| MsgFailedInternal (r : Z).            (* "Failed with internal error %d" *)

(** The functions the file calls and does not define: the C library, the
    n-dhcp4 library and the test helper of test.h. *)
Inductive call :=
| Malloc (n : nat)
| Free (p : ptr)
| Print (m : message)
| TestSetup
| ConfigNew
| ConfigFreep (config : ptr)
| ConfigSetBroadcastMac (config mac : ptr) (n : Z)
| ConfigSetIfindex (config : ptr) (ifindex : Z)
| ConfigSetMac (config mac : ptr) (n : Z)
| ClientNew (config : ptr)
| ClientUnref (client : ptr)
| ProbeConfigNew
| ProbeConfigFreep (config : ptr)
| ClientProbe (client config : ptr)
| ProbeFree (probe : ptr)
| ClientGetFd (client : ptr)
| Poll (fd : Z)
| ClientDispatch (client : ptr)
| ClientPopEvent (client : ptr).

(** poll() on one descriptor: the number of ready entries with the revents
    of the entry, or -1 with errno. *)
Inductive poll_ret :=
| PollReady (n : N) (revents : Z)
| PollFailed (e : positive).

(** What each call hands back.  A constructor writes its object through a
    pointer: the answer is the return value with the pointer found there
    afterwards.  An event is NULL or carries its kind. *)
Definition answer (c : call) : Type :=
  match c with
  | Malloc _ => option (nat -> Z)
  | ConfigNew | ClientNew _ | ProbeConfigNew | ClientProbe _ _ =>
      (Z * ptr)%type
  | ClientGetFd _ | ClientDispatch _ => Z
  | Poll _ => poll_ret
  | ClientPopEvent _ => (Z * option Z)%type
  | _ => unit
  end.

Definition heap := list (ptr * list Z).

Fixpoint heap_find (h : heap) (p : ptr) : option (list Z) :=
  match h with
  | [] => None
  | (q, b) :: h' => if q =? p then Some b else heap_find h' p
  end.

Fixpoint heap_remove (h : heap) (p : ptr) : heap :=
  match h with
  | [] => []
  | (q, b) :: h' => if q =? p then h' else (q, b) :: heap_remove h' p
  end.

Fixpoint heap_update (h : heap) (p : ptr) (b : list Z) : heap :=
  match h with
  | [] => []
  | (q, b') :: h' =>
      if q =? p then (q, b) :: h' else (q, b') :: heap_update h' p b
  end.

(** An address above every block in use, and above NULL. *)
Definition heap_fresh (h : heap) : ptr :=
  1 + fold_right Z.max 0 (map fst h).

Section Env.

(** The environment is any deterministic machine answering the calls. *)
Variable env : Type.
Variable env_step : env -> forall c : call, answer c * env.

(** atoi() of the C library. *)
Variable atoi : string -> Z.

Record state := mk_state {
  st_env     : env;
  st_globals : globals;
  st_heap    : heap;
  st_errno   : Z;
  st_trace   : list call
}.

(** A run ends with a value, in abort() after a failed assert, in
    undefined behaviour, or is cut for lack of fuel. *)
Inductive outcome (T : Type) :=
| Done (v : T) (s : state)
| Aborted (s : state)
| Undefined
| OutOfFuel.

Arguments Done {T} v s.
Arguments Aborted {T} s.
Arguments Undefined {T}.
Arguments OutOfFuel {T}.

Definition M (T : Type) : Type := state -> outcome T.

Definition ret {T} (v : T) : M T := fun s => Done v s.

Definition bind {T U} (m : M T) (f : T -> M U) : M U :=
  fun s =>
    match m s with
    | Done v s' => f v s'
    | Aborted s' => Aborted s'
    | Undefined => Undefined
    | OutOfFuel => OutOfFuel
    end.

Definition undefined {T} : M T := fun _ => Undefined.
Definition out_of_fuel {T} : M T := fun _ => OutOfFuel.
Definition abort {T} : M T := fun s => Aborted s.

Definition get_globals : M globals := fun s => Done (st_globals s) s.

Definition set_globals (g : globals) : M unit := fun s =>
  Done tt (mk_state (st_env s) g (st_heap s) (st_errno s) (st_trace s)).

Definition get_errno : M Z := fun s => Done (st_errno s) s.

Definition set_errno (e : Z) : M unit := fun s =>
  Done tt (mk_state (st_env s) (st_globals s) (st_heap s) e (st_trace s)).

Definition set_heap (h : heap) : M unit := fun s =>
  Done tt (mk_state (st_env s) (st_globals s) h (st_errno s) (st_trace s)).

Definition get_heap : M heap := fun s => Done (st_heap s) s.

(** A call to the outside: the environment answers and moves on. *)
Definition ext (c : call) : M (answer c) := fun s =>
  let (a, e') := env_step (st_env s) c in
  Done a (mk_state e' (st_globals s) (st_heap s) (st_errno s)
            (st_trace s ++ [c])).

Local Notation "x <- m ;; f" := (bind m (fun x => f))
  (at level 61, m at next level, right associativity).
Local Notation "' pat <- m ;; f" :=
  (bind m (fun x => match x with pat => f end))
  (at level 61, pat pattern, m at next level, right associativity).
Local Notation "m ;;; f" := (bind m (fun _ => f))
  (at level 61, right associativity).

(** Placing a block the allocator granted. *)
Definition place (b : list Z) : M ptr :=
  h <- get_heap ;;
  let p := heap_fresh h in
  set_heap ((p, b) :: h) ;;;
  ret p.

(** malloc() of [n] cells. *)
Definition c_malloc (n : nat) : M ptr :=
  a <- ext (Malloc n) ;;
  match a with
  | None => ret NULL
  | Some junk => place (map junk (seq 0 n))
  end.

(** free(): nothing for NULL, undefined for what is not a block in use. *)
Definition c_free (p : ptr) : M unit :=
  ext (Free p) ;;;
  if p =? NULL then ret tt
  else
    h <- get_heap ;;
    match heap_find h p with
    | Some _ => set_heap (heap_remove h p)
    | None => undefined
    end.

Definition load (p : ptr) (i : nat) : M Z :=
  h <- get_heap ;;
  match heap_find h p with
  | Some b =>
      match nth_error b i with
      | Some v => ret v
      | None => undefined
      end
  | None => undefined
  end.

Definition store (p : ptr) (i : nat) (v : Z) : M unit :=
  h <- get_heap ;;
  match heap_find h p with
  | Some b =>
      match buf_write b i v with
      | Some b' => set_heap (heap_update h p b')
      | None => undefined
      end
  | None => undefined
  end.

(** memcpy() of [src] to the start of the block at [p]. *)
Fixpoint c_memcpy (p : ptr) (i : nat) (src : list Z) : M unit :=
  match src with
  | [] => ret tt
  | v :: src' => store p i v ;;; c_memcpy p (S i) src'
  end.

(** [manager_free] *)
Definition manager_free (manager : ptr) : M ptr :=
  if manager =? NULL then ret NULL
  else
    probe <- load manager Manager_probe ;;
    ext (ProbeFree probe) ;;;
    client <- load manager Manager_client ;;
    ext (ClientUnref client) ;;;
    c_free manager ;;;
    ret NULL.

(** [manager_freep], on the variable holding [manager]. *)
Definition manager_freep (manager : ptr) : M unit :=
  manager_free manager ;;; ret tt.

(** [manager_new].  The result is the return value and, when the function
    stores through [managerp], what it stores.  The two locals carry
    cleanup handlers, which run at every return, [manager]'s first. *)
Definition manager_new : M (Z * option ptr) :=
  manager <- c_malloc sizeof_Manager ;;
  if manager =? NULL then
    manager_freep NULL ;;; ext (ConfigFreep NULL) ;;;
    ret (- ENOMEM, None)
  else

  store manager Manager_client NULL ;;;
  store manager Manager_probe NULL ;;;

  '(r, config) <- ext ConfigNew ;;
  if negb (r =? 0) then
    manager_freep manager ;;; ext (ConfigFreep config) ;;;
    ret (r, None)
  else

  g <- get_globals ;;
  ext (ConfigSetBroadcastMac config (main_arg_broadcast_mac g)
         (main_arg_n_broadcast_mac g)) ;;;
  ext (ConfigSetIfindex config (main_arg_ifindex g)) ;;;
  ext (ConfigSetMac config (main_arg_mac g) (main_arg_n_mac g)) ;;;

  '(r, client) <- ext (ClientNew config) ;;
  store manager Manager_client client ;;;
  if negb (r =? 0) then
    manager_freep manager ;;; ext (ConfigFreep config) ;;;
    ret (r, None)
  else

  manager_freep NULL ;;; ext (ConfigFreep config) ;;;
  ret (0, Some manager).

(** The loop of [manager_dispatch]; an iteration takes one unit of fuel. *)
Fixpoint manager_dispatch_loop (fuel : nat) (manager : ptr) : M Z :=
  match fuel with
  | O => out_of_fuel
  | S fuel' =>
      client <- load manager Manager_client ;;
      '(r, event) <- ext (ClientPopEvent client) ;;
      if negb (r =? 0) then ret r
      else
        match event with
        | None => ret 0
        | Some ev =>
            ext (Print (MsgEvent ev)) ;;;
            manager_dispatch_loop fuel' manager
        end
  end.

(** [manager_dispatch] *)
Definition manager_dispatch (fuel : nat) (manager : ptr) : M Z :=
  client <- load manager Manager_client ;;
  r <- ext (ClientDispatch client) ;;
  if negb (r =? 0) then ret r
  else manager_dispatch_loop fuel manager.

(** One round of the loop of [manager_run]: [Some r] when it returns [r].
    [pfds] has one entry; a second one is read if poll() reports more. *)
Definition manager_run_round (fuel : nat) (manager : ptr) : M (option Z) :=
  client <- load manager Manager_client ;;
  fd <- ext (ClientGetFd client) ;;
  p <- ext (Poll fd) ;;
  match p with
  | PollFailed e =>
      set_errno (Z.pos e) ;;;
      e' <- get_errno ;;
      ret (Some (- e'))
  | PollReady n revents =>
      if (n =? 0)%N then ret None
      else if negb (Z.land revents (Z.lnot POLLIN) =? 0)
      then ret (Some (- ENOTRECOVERABLE))
      else
        r <- (if Z.land revents POLLIN =? 0 then ret 0
              else manager_dispatch fuel manager) ;;
        if negb (r =? 0) then ret (Some r)
        else if (n =? 1)%N then ret None
        else undefined
  end.

Fixpoint manager_run_loop (fuel : nat) (manager : ptr) : M Z :=
  match fuel with
  | O => out_of_fuel
  | S fuel' =>
      o <- manager_run_round fuel' manager ;;
      match o with
      | Some r => ret r
      | None => manager_run_loop fuel' manager
      end
  end.

(** [manager_run]; the local [config] carries a cleanup handler. *)
Definition manager_run (fuel : nat) (manager : ptr) : M Z :=
  '(r, config) <- ext ProbeConfigNew ;;
  if negb (r =? 0) then ext (ProbeConfigFreep config) ;;; ret r else

  client <- load manager Manager_client ;;
  '(r, probe) <- ext (ClientProbe client config) ;;
  store manager Manager_probe probe ;;;
  if negb (r =? 0) then ext (ProbeConfigFreep config) ;;; ret r else

  g <- get_globals ;;
  if main_arg_test g then ext (ProbeConfigFreep config) ;;; ret 0 else

  r <- manager_run_loop fuel manager ;;
  ext (ProbeConfigFreep config) ;;;
  ret r.

(** [run]; the local [manager] carries a cleanup handler. *)
Definition run (fuel : nat) : M Z :=
  '(r, stored) <- manager_new ;;
  let manager := match stored with Some p => p | None => NULL end in
  if negb (r =? 0) then manager_freep manager ;;; ret r else
  r <- manager_run fuel manager ;;
  manager_freep manager ;;;
  ret r.

(** [print_help] *)
Definition print_help : M unit := ext (Print MsgHelp).

(** [setup_test] *)
Definition setup_test : M Z :=
  ext TestSetup ;;;

  b <- c_malloc 6 ;;
  (if b =? NULL then abort else ret tt) ;;;
  c_memcpy b 0 [0; 0; 0; 0; 0; 0] ;;;
  g <- get_globals ;;
  c_free (main_arg_broadcast_mac g) ;;;
  set_globals (mk_globals b 6 (main_arg_ifindex g)
                 (main_arg_mac g) (main_arg_n_mac g) (main_arg_test g)) ;;;

  g <- get_globals ;;
  set_globals (mk_globals (main_arg_broadcast_mac g)
                 (main_arg_n_broadcast_mac g) 1
                 (main_arg_mac g) (main_arg_n_mac g) (main_arg_test g)) ;;;

  b <- c_malloc 6 ;;
  (if b =? NULL then abort else ret tt) ;;;
  c_memcpy b 0 [0; 0; 0; 0; 0; 0] ;;;
  g <- get_globals ;;
  c_free (main_arg_mac g) ;;;
  set_globals (mk_globals (main_arg_broadcast_mac g)
                 (main_arg_n_broadcast_mac g) (main_arg_ifindex g)
                 b 6 (main_arg_test g)) ;;;
  ret 0.

(** A call of [parse_hexstr]: the return value and, when the function
    stores through [strp] and [n_strp], the block and its length. *)
Definition call_parse_hexstr (s : string) : M (Z * option (ptr * Z)) :=
  a <- ext (Malloc ((strlen s + 1) / 2)) ;;
  match parse_hexstr a s with
  | TestRunClient.Undefined => undefined
  | Returned r None => ret (r, None)
  | Returned r (Some (out, n)) =>
      p <- place out ;;
      ret (r, Some (p, Z.of_nat n))
  end.

(** The loop of [parse_argv] over what getopt_long() returns in turn, each
    value with its optarg, -1 once the list is used up: [Some r] when the
    loop returns [r]. *)
Fixpoint parse_argv_loop (scan : list (Z * string)) : M (option Z) :=
  match scan with
  | [] => ret None
  | (c, optarg) :: scan' =>
      if c <? 0 then ret None
      else if c =? 104 (* 'h' *) then
        print_help ;;; ret (Some MAIN_EXIT)
      else if c =? ARG_BROADCAST_MAC then
        '(r, stored) <- call_parse_hexstr optarg ;;
        if negb (r =? 0) then ret (Some r)
        else
          match stored with
          | None => undefined
          | Some (t, n) =>
              g <- get_globals ;;
              c_free (main_arg_broadcast_mac g) ;;;
              set_globals (mk_globals t n (main_arg_ifindex g)
                             (main_arg_mac g) (main_arg_n_mac g)
                             (main_arg_test g)) ;;;
              parse_argv_loop scan'
          end
      else if c =? ARG_IFINDEX then
        g <- get_globals ;;
        set_globals (mk_globals (main_arg_broadcast_mac g)
                       (main_arg_n_broadcast_mac g) (atoi optarg)
                       (main_arg_mac g) (main_arg_n_mac g)
                       (main_arg_test g)) ;;;
        parse_argv_loop scan'
      else if c =? ARG_MAC then
        '(r, stored) <- call_parse_hexstr optarg ;;
        if negb (r =? 0) then ret (Some r)
        else
          match stored with
          | None => undefined
          | Some (t, n) =>
              g <- get_globals ;;
              c_free (main_arg_mac g) ;;;
              set_globals (mk_globals (main_arg_broadcast_mac g)
                             (main_arg_n_broadcast_mac g)
                             (main_arg_ifindex g) t n (main_arg_test g)) ;;;
              parse_argv_loop scan'
          end
      else if c =? ARG_TEST then
        r <- setup_test ;;
        if negb (r =? 0) then ret (Some r)
        else
          g <- get_globals ;;
          set_globals (mk_globals (main_arg_broadcast_mac g)
                         (main_arg_n_broadcast_mac g) (main_arg_ifindex g)
                         (main_arg_mac g) (main_arg_n_mac g) true) ;;;
          parse_argv_loop scan'
      else if c =? 63 (* '?' *) then ret (Some MAIN_FAILED)
      else ret (Some (- ENOTRECOVERABLE))
  end.

(** [parse_argv]: [scan] is what getopt_long() returns, [optind] its index
    once it is done, [arg] the string argv[optind]. *)
Definition parse_argv (scan : list (Z * string)) (optind argc : Z)
    (arg : string) : M Z :=
  o <- parse_argv_loop scan ;;
  match o with
  | Some r => ret r
  | None =>
      if negb (optind =? argc) then
        ext (Print (MsgInvalidArguments arg)) ;;;
        ret MAIN_FAILED
      else
        g <- get_globals ;;
        if (main_arg_broadcast_mac g =? NULL)
           || (main_arg_ifindex g =? 0)
           || (main_arg_mac g =? NULL)
        then
          ext (Print MsgRequiredArguments) ;;;
          ret MAIN_FAILED
        else ret 0
  end.

(** [main] *)
Definition main (fuel : nat) (scan : list (Z * string)) (optind argc : Z)
    (arg : string) : M Z :=
  r <- parse_argv scan optind argc arg ;;
  r <- (if negb (r =? 0) then ret r else run fuel) ;;
  r <- (if r =? MAIN_EXIT then ret 0
        else if r <? 0 then
          set_errno (- r) ;;;
          ext (Print (MsgFailedErrno r)) ;;;
          ret 127
        else if 0 <? r then
          ext (Print (MsgFailedInternal r)) ;;;
          ret r
        else ret r) ;;
  g <- get_globals ;;
  c_free (main_arg_broadcast_mac g) ;;;
  g <- get_globals ;;
  c_free (main_arg_mac g) ;;;
  ret r.

(** *** Statements about runs *)

(** How a run may end without a value. *)
Inductive failure :=
| FAborted (s : state)
| FUndefined
| FOutOfFuel.

(** [wp m E Q s]: the run of [m] from [s] ends with a value and a state
    that meet [Q], or without a value in a way that [E] admits. *)
Definition wp {T} (m : M T) (E : failure -> Prop) (Q : T -> state -> Prop)
    (s : state) : Prop :=
  match m s with
  | Done v s' => Q v s'
  | Aborted s' => E (FAborted s')
  | Undefined => E FUndefined
  | OutOfFuel => E FOutOfFuel
  end.

(** The queue of the client holds the events [evs]: popping yields them in
    turn, each printed, then NULL. *)
Inductive pops (client : ptr) : env -> list Z -> env -> Prop :=
| pops_nil e e' :
    env_step e (ClientPopEvent client) = ((0, None), e') ->
    pops client e [] e'
| pops_cons e e1 e2 e3 ev evs :
    env_step e (ClientPopEvent client) = ((0, Some ev), e1) ->
    env_step e1 (Print (MsgEvent ev)) = (tt, e2) ->
    pops client e2 evs e3 ->
    pops client e (ev :: evs) e3.

End Env.

(** The heap holds the buffers of the two hardware addresses and nothing
    else: every block is one of them, the two are distinct, and the length
    kept with each is the length of its block. *)
Definition args_owned (g : globals) (h : heap) : Prop :=
  NoDup (map fst h) /\
  (forall q, In q (map fst h) <->
             q <> NULL /\
             (q = main_arg_broadcast_mac g \/ q = main_arg_mac g)) /\
  (main_arg_broadcast_mac g = main_arg_mac g -> main_arg_mac g = NULL) /\
  (forall b, heap_find h (main_arg_broadcast_mac g) = Some b ->
             main_arg_n_broadcast_mac g = Z.of_nat (List.length b)) /\
  (forall b, heap_find h (main_arg_mac g) = Some b ->
             main_arg_n_mac g = Z.of_nat (List.length b)).

(** The calls of the event loop of [manager_run]. *)
Definition is_loop_call (c : call) : bool :=
  match c with
  | ClientGetFd _ | Poll _ | ClientDispatch _ | ClientPopEvent _ => true
  | _ => false
  end.

(** The calls into the n-dhcp4 library and to poll(). *)
Definition is_client_call (c : call) : bool :=
  match c with
  | Malloc _ | Free _ | Print _ | TestSetup => false
  | _ => true
  end.

Arguments Done {env T} v s.
Arguments Aborted {env T} s.
Arguments Undefined {env T}.
Arguments OutOfFuel {env T}.
Arguments mk_state {env}.
Arguments st_env {env}.
Arguments st_globals {env}.
Arguments st_heap {env}.
Arguments st_errno {env}.
Arguments st_trace {env}.
Arguments FAborted {env} s.
Arguments FUndefined {env}.
Arguments FOutOfFuel {env}.

(** An environment that answers from scripts: the outcomes of malloc(),
    the events queued in the client and the results of poll(); past its
    script malloc() fails, no event is queued and poll() reports the
    descriptor readable.  Every library call succeeds with the handle
    1000. *)
Record scripted_env := mk_scripted {
  se_mallocs : list bool;
  se_events  : list Z;
  se_polls   : list poll_ret
}.

Definition scripted_step (e : scripted_env) (c : call)
    : answer c * scripted_env :=
  match c return answer c * scripted_env with
  | Malloc _ =>
      match se_mallocs e with
      | true :: l =>
          (Some (fun _ => 0xaa), mk_scripted l (se_events e) (se_polls e))
      | _ :: l => (None, mk_scripted l (se_events e) (se_polls e))
      | [] => (None, e)
      end
  | ConfigNew => ((0, 1000), e)
  | ClientNew _ => ((0, 1000), e)
  | ProbeConfigNew => ((0, 1000), e)
  | ClientProbe _ _ => ((0, 1000), e)
  | ClientGetFd _ => (3, e)
  | ClientDispatch _ => (0, e)
  | Poll _ =>
      match se_polls e with
      | p :: l => (p, mk_scripted (se_mallocs e) (se_events e) l)
      | [] => (PollReady 1 POLLIN, e)
      end
  | ClientPopEvent _ =>
      match se_events e with
      | ev :: l => ((0, Some ev), mk_scripted (se_mallocs e) l (se_polls e))
      | [] => ((0, None), e)
      end
  | Free _ => (tt, e)
  | Print _ => (tt, e)
  | TestSetup => (tt, e)
  | ConfigFreep _ => (tt, e)
  | ConfigSetBroadcastMac _ _ _ => (tt, e)
  | ConfigSetIfindex _ _ => (tt, e)
  | ConfigSetMac _ _ _ => (tt, e)
  | ClientUnref _ => (tt, e)
  | ProbeConfigFreep _ => (tt, e)
  | ProbeFree _ => (tt, e)
  end.

(** atoi() of the C library, for the instances: blanks are skipped, a
    sign is read, then the digits up to the first character that is
    none.  Text out of the range of long is undefined in ISO C; here it
    is cut as glibc does, where atoi(s) is (int) strtol(s, NULL, 10):
    the value is kept within long and then reduced to 32 bits. *)
Fixpoint atoi_digits (s : string) (acc : Z) : Z :=
  match s with
  | String c s' =>
      let d := Z.of_N (N_of_ascii c) - 48 in
      if (0 <=? d) && (d <=? 9) then atoi_digits s' (10 * acc + d)
      else acc
  | EmptyString => acc
  end.

(** isspace() in the C locale: space, and the characters 9 to 13. *)
Definition is_space (c : ascii) : bool :=
  let n := Z.of_N (N_of_ascii c) in
  (n =? 32) || ((9 <=? n) && (n <=? 13)).

Fixpoint skip_spaces (s : string) : string :=
  match s with
  | String c s' => if is_space c then skip_spaces s' else s
  | EmptyString => s
  end.

Definition to_long (v : Z) : Z :=
  Z.max (- 2 ^ 63) (Z.min (2 ^ 63 - 1) v).

Definition to_int (v : Z) : Z :=
  (v + 2 ^ 31) mod 2 ^ 32 - 2 ^ 31.

Definition scripted_atoi (s : string) : Z :=
  to_int
    (to_long
       (match skip_spaces s with
        | String "-" s' => - atoi_digits s' 0
        | String "+" s' => atoi_digits s' 0
        | s' => atoi_digits s' 0
        end)).

(** The process at its start, and once both addresses and the interface
    index are set, as [setup_test] leaves them from the start; then with
    the manager [run] creates. *)
Definition at_start (e : scripted_env) : state scripted_env :=
  mk_state e globals_init [] 0 [].

Definition configured_heap : heap :=
  [(2, [0; 0; 0; 0; 0; 0]); (1, [0; 0; 0; 0; 0; 0])].

Definition configured (e : scripted_env) (test : bool)
    : state scripted_env :=
  mk_state e (mk_globals 1 6 1 2 6 test) configured_heap 0 [].

Definition running (e : scripted_env) : state scripted_env :=
  mk_state e (mk_globals 1 6 1 2 6 false)
    ((3, [1000; NULL]) :: configured_heap) 0 [].

End Runner.

(** * Theorems *)

(** ** The machine, one instruction at a time *)

Section BpfSteps.
Import Bpf.

Variables (pkt : list byte) (pc : nat) (r : regs).

Lemma bpf_run_S fuel prog :
  bpf_run (S fuel) prog pkt pc r =
  match nth_error prog pc with
  | None => None
  | Some ins =>
      match bpf_step ins pkt pc r with
      | Return v => Some v
      | Invalid => None
      | Continue pc' r' => bpf_run fuel prog pkt pc' r'
      end
  end.
Proof. reflexivity. Qed.

Lemma pkt_load_in_window size off cont :
  0 <= off < 0x80000000 ->
  pkt_load size pkt off cont =
  match load size pkt off with
  | Some v => cont v
  | None => Return 0
  end.
Proof.
  intros Hoff. unfold pkt_load.
  destruct (Z.leb_spec 0x80000000 off) as [Hle | _]; [lia | reflexivity].
Qed.

Lemma wrap32_small v : 0 <= v < 2 ^ 32 -> wrap32 v = v.
Proof. intros Hv. unfold wrap32. now apply Z.mod_small. Qed.

Lemma step_ld_abs size kk :
  (size = BPF_B \/ size = BPF_H \/ size = BPF_W) ->
  0 <= kk < 0x80000000 ->
  bpf_step (BPF_STMT (BPF_LD + size + BPF_ABS) kk) pkt pc r =
  match load size pkt kk with
  | Some v => Continue (S pc) (mk_regs v (X r))
  | None => Return 0
  end.
Proof.
  intros Hsize Hk.
  rewrite <- (pkt_load_in_window size kk
                (fun v => Continue (S pc) (mk_regs v (X r))) Hk).
  destruct Hsize as [-> | [-> | ->]]; reflexivity.
Qed.

Lemma step_ld_ind size kk :
  (size = BPF_B \/ size = BPF_H \/ size = BPF_W) ->
  0 <= X r + kk < 0x80000000 ->
  bpf_step (BPF_STMT (BPF_LD + size + BPF_IND) kk) pkt pc r =
  match load size pkt (X r + kk) with
  | Some v => Continue (S pc) (mk_regs v (X r))
  | None => Return 0
  end.
Proof.
  intros Hsize Hk.
  rewrite <- (pkt_load_in_window size (X r + kk)
                (fun v => Continue (S pc) (mk_regs v (X r))) Hk).
  rewrite <- (wrap32_small (X r + kk)) by lia.
  destruct Hsize as [-> | [-> | ->]]; reflexivity.
Qed.

Lemma step_ldx_msh kk :
  0 <= kk < 0x80000000 ->
  bpf_step (BPF_STMT (BPF_LDX + BPF_B + BPF_MSH) kk) pkt pc r =
  match load_byte pkt kk with
  | Some v => Continue (S pc) (mk_regs (A r) (Z.shiftl (Z.land v 0xf) 2))
  | None => Return 0
  end.
Proof.
  intros Hk.
  change (load_byte pkt kk) with (load BPF_B pkt kk).
  rewrite <- (pkt_load_in_window BPF_B kk
                (fun v => Continue (S pc)
                            (mk_regs (A r) (Z.shiftl (Z.land v 0xf) 2))) Hk).
  reflexivity.
Qed.

Lemma step_ld_len kk :
  bpf_step (BPF_STMT (BPF_LD + BPF_W + BPF_LEN) kk) pkt pc r =
  Continue (S pc) (mk_regs (wrap32 (Z.of_nat (List.length pkt))) (X r)).
Proof. reflexivity. Qed.

Lemma step_ld_imm kk :
  bpf_step (BPF_STMT (BPF_LD + BPF_W + BPF_K) kk) pkt pc r =
  Continue (S pc) (mk_regs kk (X r)).
Proof. reflexivity. Qed.

Lemma step_and_k kk :
  bpf_step (BPF_STMT (BPF_ALU + BPF_AND + BPF_K) kk) pkt pc r =
  Continue (S pc) (mk_regs (Z.land (A r) kk) (X r)).
Proof. reflexivity. Qed.

Lemma step_sub_x kk :
  bpf_step (BPF_STMT (BPF_ALU + BPF_SUB + BPF_X) kk) pkt pc r =
  Continue (S pc) (mk_regs (wrap32 (A r - X r)) (X r)).
Proof. reflexivity. Qed.

Lemma step_add_x kk :
  bpf_step (BPF_STMT (BPF_ALU + BPF_ADD + BPF_X) kk) pkt pc r =
  Continue (S pc) (mk_regs (wrap32 (A r + X r)) (X r)).
Proof. reflexivity. Qed.

Lemma step_tax kk :
  bpf_step (BPF_STMT (BPF_MISC + BPF_TAX) kk) pkt pc r =
  Continue (S pc) (mk_regs (A r) (A r)).
Proof. reflexivity. Qed.

Lemma step_jeq_k kk t f :
  bpf_step (BPF_JUMP (BPF_JMP + BPF_JEQ + BPF_K) kk t f) pkt pc r =
  if A r =? kk then Continue (S pc + Z.to_nat t) r
  else Continue (S pc + Z.to_nat f) r.
Proof. reflexivity. Qed.

Lemma step_jge_k kk t f :
  bpf_step (BPF_JUMP (BPF_JMP + BPF_JGE + BPF_K) kk t f) pkt pc r =
  if kk <=? A r then Continue (S pc + Z.to_nat t) r
  else Continue (S pc + Z.to_nat f) r.
Proof. reflexivity. Qed.

Lemma step_ret_k kk :
  bpf_step (BPF_STMT (BPF_RET + BPF_K) kk) pkt pc r = Return kk.
Proof. reflexivity. Qed.

End BpfSteps.

(** ** The filter, check by check *)

Section FilterSegments.
Import Bpf Hdr Wire.

Variables (host : byte_order) (xid : Z) (f : list byte).

Local Abbreviation prog := (Net.filter host xid).

Local Ltac fetch := rewrite bpf_run_S; cbn [nth_error Net.filter].
Local Ltac jump :=
  change (Z.to_nat 1) with 1%nat; change (Z.to_nat 0) with 0%nat;
  cbn [Nat.add].
Local Ltac bpf_b := right; left; reflexivity.

Lemma ip_hdr_len_bounds x : ip_hdr_len f = Some x -> 0 <= x <= 60.
Proof.
  unfold ip_hdr_len. destruct (load_byte f 0) as [v |]; [| discriminate].
  intros H.
  assert (Hx : x = Z.shiftl (Z.land v 0xf) 2)
    by (cbn [option_map] in H; congruence).
  subst x. clear H. change 0xf with (Z.ones 4).
  rewrite Z.land_ones, Z.shiftl_mul_pow2 by lia.
  pose proof (Z.mod_pos_bound v (2 ^ 4)). lia.
Qed.

(** Instructions 0-2: the IP protocol. *)
Lemma seg_protocol fuel r :
  bpf_run (S (S (S fuel))) prog f 0 r =
  match ip_protocol f with
  | Some v =>
      if v =? IPPROTO_UDP
      then bpf_run (S fuel) prog f 3 (mk_regs v (X r))
      else Some 0
  | None => Some 0
  end.
Proof.
  fetch. rewrite (step_ld_abs f 0 r BPF_B)
    by (auto; cbv; intuition congruence).
  change (load BPF_B f offsetof_iphdr_protocol) with (ip_protocol f).
  destruct (ip_protocol f) as [v |]; [| reflexivity].
  fetch. rewrite step_jeq_k. cbn [A]. jump.
  destruct (v =? IPPROTO_UDP); [reflexivity |].
  fetch. now rewrite step_ret_k.
Qed.

(** Instructions 3-6: the first byte of the flags-and-offset field. *)
Lemma seg_fragment fuel r :
  bpf_run (S (S (S (S fuel)))) prog f 3 r =
  match ip_frag_off_hi f with
  | Some v =>
      let a := Z.land v (ntohs host (Z.lor IP_MF IP_OFFMASK)) in
      if a =? 0
      then bpf_run (S fuel) prog f 7 (mk_regs a (X r))
      else Some 0
  | None => Some 0
  end.
Proof.
  fetch. rewrite (step_ld_abs f 3 r BPF_B)
    by (auto; cbv; intuition congruence).
  change (load BPF_B f offsetof_iphdr_frag_off) with (ip_frag_off_hi f).
  destruct (ip_frag_off_hi f) as [v |]; [| reflexivity].
  fetch. rewrite step_and_k. cbn [A X].
  fetch. rewrite step_jeq_k. cbn [A]; cbn zeta. jump.
  destruct (Z.land v _ =? 0); [reflexivity |].
  fetch. now rewrite step_ret_k.
Qed.

(** Instructions 7-11: X becomes the IP header length, and what follows
    it must be as long as a UDP header and a DHCP message. *)
Lemma seg_length fuel r :
  bpf_run (S (S (S (S (S fuel))))) prog f 7 r =
  match ip_hdr_len f with
  | Some x =>
      let a := wrap32 (wrap32 (frame_len f) - x) in
      if sizeof_udphdr + sizeof_NDhcp4Message <=? a
      then bpf_run (S fuel) prog f 12 (mk_regs a x)
      else Some 0
  | None => Some 0
  end.
Proof.
  fetch. rewrite step_ldx_msh by lia. unfold ip_hdr_len.
  destruct (load_byte f 0) as [v |]; [| reflexivity]. cbn [option_map].
  fetch. rewrite step_ld_len. cbn [A X].
  fetch. rewrite step_sub_x. cbn [A X].
  fetch. rewrite step_jge_k. cbn [A]; cbn zeta. jump. fold (frame_len f).
  destruct (_ <=? _); [reflexivity |].
  fetch. now rewrite step_ret_k.
Qed.

(** Instructions 12-14: the UDP destination port, read at X + 2. *)
Lemma seg_port fuel r :
  0 <= X r <= 60 ->
  bpf_run (S (S (S fuel))) prog f 12 r =
  match load_half f (X r + offsetof_udphdr_dest) with
  | Some v =>
      if v =? N_DHCP4_NETWORK_CLIENT_PORT
      then bpf_run (S fuel) prog f 15 (mk_regs v (X r))
      else Some 0
  | None => Some 0
  end.
Proof.
  intros HX.
  fetch. rewrite (step_ld_ind f 12 r BPF_H)
    by (auto; unfold offsetof_udphdr_dest; lia).
  change (load BPF_H f) with (load_half f).
  destruct (load_half f _) as [v |]; [| reflexivity].
  fetch. rewrite step_jeq_k. cbn [A]. jump.
  destruct (v =? _); [reflexivity |].
  fetch. now rewrite step_ret_k.
Qed.

(** Instructions 15-17: X moves past the UDP header. *)
Lemma seg_skip_udp fuel r :
  0 <= X r <= 60 ->
  bpf_run (S (S (S fuel))) prog f 15 r =
  bpf_run fuel prog f 18
    (mk_regs (sizeof_udphdr + X r) (sizeof_udphdr + X r)).
Proof.
  intros HX.
  fetch. rewrite step_ld_imm.
  fetch. rewrite step_add_x. cbn [A X].
  fetch. rewrite step_tax. cbn [A X].
  rewrite wrap32_small by (unfold sizeof_udphdr; lia). reflexivity.
Qed.

(** Instructions 18-20: the DHCP op. *)
Lemma seg_op fuel r :
  0 <= X r <= 68 ->
  bpf_run (S (S (S fuel))) prog f 18 r =
  match load_byte f (X r + offsetof_NDhcp4Header_op) with
  | Some v =>
      if v =? N_DHCP4_OP_BOOTREPLY
      then bpf_run (S fuel) prog f 21 (mk_regs v (X r))
      else Some 0
  | None => Some 0
  end.
Proof.
  intros HX.
  fetch. rewrite (step_ld_ind f 18 r BPF_B)
    by (auto; unfold offsetof_NDhcp4Header_op; lia).
  change (load BPF_B f) with (load_byte f).
  destruct (load_byte f _) as [v |]; [| reflexivity].
  fetch. rewrite step_jeq_k. cbn [A]. jump.
  destruct (v =? _); [reflexivity |].
  fetch. now rewrite step_ret_k.
Qed.

(** Instructions 21-23: the transaction id, compared with the immediate
    [xid]. *)
Lemma seg_xid fuel r :
  0 <= X r <= 68 ->
  bpf_run (S (S (S fuel))) prog f 21 r =
  match load_word f (X r + offsetof_NDhcp4Header_xid) with
  | Some v =>
      if v =? xid
      then bpf_run (S fuel) prog f 24 (mk_regs v (X r))
      else Some 0
  | None => Some 0
  end.
Proof.
  intros HX.
  fetch. rewrite (step_ld_ind f 21 r BPF_W)
    by (auto; unfold offsetof_NDhcp4Header_xid; lia).
  change (load BPF_W f) with (load_word f).
  destruct (load_word f _) as [v |]; [| reflexivity].
  fetch. rewrite step_jeq_k. cbn [A]. jump.
  destruct (v =? _); [reflexivity |].
  fetch. now rewrite step_ret_k.
Qed.

(** Instructions 24-27: the magic cookie, then the verdict. *)
Lemma seg_magic fuel r :
  0 <= X r <= 68 ->
  bpf_run (S (S (S fuel))) prog f 24 r =
  match load_word f (X r + offsetof_NDhcp4Message_magic) with
  | Some v => if v =? N_DHCP4_MESSAGE_MAGIC then Some 65535 else Some 0
  | None => Some 0
  end.
Proof.
  intros HX.
  fetch. rewrite (step_ld_ind f 24 r BPF_W)
    by (auto; unfold offsetof_NDhcp4Message_magic; lia).
  change (load BPF_W f) with (load_word f).
  destruct (load_word f _) as [v |]; [| reflexivity].
  fetch. rewrite step_jeq_k. cbn [A]. jump.
  destruct (v =? _); fetch; now rewrite step_ret_k.
Qed.

(** The interpreter, run on the attached program, computes [verdict]. *)
Lemma run_filter_verdict :
  run_filter (Net.fprog host xid) f = Some (verdict host xid f).
Proof.
  unfold run_filter, fprog_insns, Net.fprog. cbn [len Bpf.filter].
  change (List.length prog) with 28%nat.
  rewrite Nat2Z.id.
  change (firstn 28 prog) with prog.
  change (List.length prog) with 28%nat.
  unfold verdict.
  rewrite seg_protocol.
  destruct (ip_protocol f) as [p |]; cbn [opt_test negb]; [| reflexivity].
  destruct (p =? IPPROTO_UDP); cbn [negb]; [| reflexivity].
  rewrite seg_fragment.
  destruct (ip_frag_off_hi f) as [fl |]; cbn [opt_test negb]; [| reflexivity].
  cbn zeta. destruct (Z.land fl _ =? 0); cbn [negb]; [| reflexivity].
  rewrite seg_length.
  destruct (ip_hdr_len f) as [x |] eqn:Hx; [| reflexivity].
  apply ip_hdr_len_bounds in Hx.
  cbn zeta. destruct (_ <=? _); cbn [negb]; [| reflexivity].
  rewrite seg_port by (cbn [X]; lia). cbn [X].
  destruct (load_half f _) as [port |]; cbn [opt_test negb]; [| reflexivity].
  destruct (port =? _); cbn [negb]; [| reflexivity].
  rewrite seg_skip_udp by (cbn [X]; lia). cbn [X].
  rewrite seg_op by (cbn [X]; unfold sizeof_udphdr; lia). cbn [X].
  destruct (load_byte f _) as [op |]; cbn [opt_test negb]; [| reflexivity].
  destruct (op =? _); cbn [negb]; [| reflexivity].
  rewrite seg_xid by (cbn [X]; unfold sizeof_udphdr; lia). cbn [X].
  destruct (load_word f _) as [x1 |]; cbn [opt_test negb]; [| reflexivity].
  destruct (x1 =? _); cbn [negb]; [| reflexivity].
  rewrite seg_magic by (cbn [X]; unfold sizeof_udphdr; lia). cbn [X].
  destruct (load_word f _) as [m |]; cbn [opt_test negb]; [| reflexivity].
  destruct (m =? _); reflexivity.
Qed.

End FilterSegments.

(** ** What the filter accepts *)

Section FilterVerdict.
Import Bpf Hdr Wire.

Variables (host : byte_order) (xid : Z) (f : list byte).

Lemma verdict_cases : verdict host xid f = 0 \/ verdict host xid f = 65535.
Proof.
  unfold verdict.
  repeat match goal with
         | |- context [if ?b then _ else _] => destruct b
         | |- context [match ?o with Some _ => _ | None => _ end] =>
             destruct o
         end; auto.
Qed.

Lemma pkt_byte_inside off b :
  pkt_byte f off = Some b -> 0 <= off < frame_len f.
Proof.
  unfold pkt_byte, frame_len.
  destruct (Z.ltb_spec off 0) as [| Hoff]; [discriminate |].
  destruct (nth_error f (Z.to_nat off)) eqn:Hnth; [| discriminate].
  intros _. assert (Hlt : (Z.to_nat off < List.length f)%nat)
    by (apply nth_error_Some; congruence).
  lia.
Qed.

Lemma load_word_inside off v :
  load_word f off = Some v -> 0 <= off /\ off + 4 <= frame_len f.
Proof.
  unfold load_word.
  destruct (pkt_byte f off) eqn:H0; [| discriminate].
  destruct (pkt_byte f (off + 1)); [| discriminate].
  destruct (pkt_byte f (off + 2)); [| discriminate].
  destruct (pkt_byte f (off + 3)) eqn:H3; [| discriminate].
  intros _. apply pkt_byte_inside in H0, H3. lia.
Qed.

Lemma opt_test_eqb o v : opt_test o (fun a => a =? v) = true <-> o = Some v.
Proof.
  destruct o as [a |]; cbn [opt_test].
  - rewrite Z.eqb_eq. split; congruence.
  - split; discriminate.
Qed.

Lemma verdict_accept_only_if :
  verdict host xid f = 65535 -> passes_checks host xid f.
Proof.
  unfold verdict, passes_checks.
  destruct (opt_test (ip_protocol f) _) eqn:Hproto; cbn [negb];
    [| discriminate].
  destruct (opt_test (ip_frag_off_hi f) _) eqn:Hfrag; cbn [negb];
    [| discriminate].
  destruct (ip_hdr_len f) as [x |] eqn:Hx; [| discriminate].
  destruct (_ <=? _) eqn:Hlen; cbn [negb]; [| discriminate].
  destruct (opt_test (load_half f _) _) eqn:Hport; cbn [negb];
    [| discriminate].
  cbn zeta.
  destruct (opt_test (load_byte f _) _) eqn:Hop; cbn [negb];
    [| discriminate].
  destruct (opt_test (load_word f (_ + offsetof_NDhcp4Header_xid)) _)
    eqn:Hxid; cbn [negb]; [| discriminate].
  destruct (opt_test (load_word f (_ + offsetof_NDhcp4Message_magic)) _)
    eqn:Hmagic; cbn [negb]; [| discriminate].
  intros _.
  apply opt_test_eqb in Hproto, Hport, Hop, Hxid, Hmagic.
  unfold udp_dest, dhcp_op, dhcp_xid, dhcp_magic, at_ip_payload, long_enough.
  rewrite Hx, Z.add_comm with (n := x) (m := sizeof_udphdr).
  repeat split; try assumption.
  - destruct (ip_frag_off_hi f) as [b |]; [| discriminate].
    exists b. split; [reflexivity |]. now apply Z.eqb_eq.
  - exists x. split; [reflexivity |].
    apply load_word_inside in Hmagic.
    unfold sizeof_udphdr, sizeof_NDhcp4Message,
      offsetof_NDhcp4Message_magic in *. lia.
Qed.

Lemma verdict_accept_if :
  frame_len f < 2 ^ 32 ->
  passes_checks host xid f ->
  verdict host xid f = 65535.
Proof.
  intros Hlen (Hproto & (b & Hb & Hfrag) & (x & Hx & Hlong)
               & Hport & Hop & Hxid & Hmagic).
  unfold udp_dest, dhcp_op, dhcp_xid, dhcp_magic, at_ip_payload in *.
  rewrite Hx, Z.add_comm with (n := x) (m := sizeof_udphdr) in *.
  pose proof (ip_hdr_len_bounds f x Hx) as Hxb.
  unfold verdict.
  rewrite Hx, Hproto, Hb, Hport, Hop, Hxid, Hmagic. cbn [opt_test].
  rewrite !Z.eqb_refl, (proj2 (Z.eqb_eq _ _) Hfrag). cbn [negb].
  assert (Hge : (sizeof_udphdr + sizeof_NDhcp4Message
                 <=? wrap32 (wrap32 (frame_len f) - x)) = true).
  { unfold frame_len, sizeof_udphdr, sizeof_NDhcp4Message in *.
    rewrite (wrap32_small (Z.of_nat (List.length f))) by lia.
    rewrite wrap32_small by lia. apply Z.leb_le. lia. }
  rewrite Hge. reflexivity.
Qed.

(** The filter returns 0 or 65535, whatever the frame. *)
Lemma run_filter_total :
  run_filter (Net.fprog host xid) f = Some 0 \/
  run_filter (Net.fprog host xid) f = Some 65535.
Proof.
  rewrite run_filter_verdict.
  destruct verdict_cases as [-> | ->]; auto.
Qed.

(** A frame is accepted only if it passes every check of the program, and
    a frame whose length fits 32 bits is accepted if it does. *)
Lemma filter_accepts_only_if :
  run_filter (Net.fprog host xid) f = Some 65535 -> passes_checks host xid f.
Proof.
  rewrite run_filter_verdict. intros [= H].
  now apply verdict_accept_only_if.
Qed.

Lemma filter_accepts_iff :
  frame_len f < 2 ^ 32 ->
  (run_filter (Net.fprog host xid) f = Some 65535 <->
   passes_checks host xid f).
Proof.
  intros Hlen. split; [apply filter_accepts_only_if |].
  intros H. rewrite run_filter_verdict.
  now rewrite verdict_accept_if.
Qed.

Lemma filter_drops_unless :
  ~ passes_checks host xid f -> run_filter (Net.fprog host xid) f = Some 0.
Proof.
  intros Hn. destruct run_filter_total as [H | H]; [exact H |].
  elim Hn. now apply filter_accepts_only_if.
Qed.

End FilterVerdict.

(** ** The filter: properties of the installed program *)

Section FilterClaims.
Import Bpf Hdr Wire.

(** In this machine no instruction moves backwards. *)
Lemma bpf_step_forward ins pkt pc r pc' r' :
  bpf_step ins pkt pc r = Continue pc' r' -> (pc < pc')%nat.
Proof.
  unfold bpf_step, pkt_load.
  repeat match goal with
         | |- context [if ?b then _ else _] => destruct b
         | |- context [match ?o with Some _ => _ | None => _ end] =>
             destruct o
         end; intros [= <- _] || discriminate; lia.
Qed.

Lemma byte_to_Z_range b : 0 <= byte_to_Z b < 256.
Proof.
  unfold byte_to_Z. pose proof (Byte.to_N_bounded b) as Hb.
  lia.
Qed.

Lemma pkt_byte_range f off v : pkt_byte f off = Some v -> 0 <= v < 256.
Proof.
  unfold pkt_byte. destruct (off <? 0); [discriminate |].
  destruct (nth_error f (Z.to_nat off)) as [b |]; [| discriminate].
  intros [= <-]. apply byte_to_Z_range.
Qed.

(** A frame whose first flags-and-offset byte meets the program's mask is
    dropped. *)
Lemma filter_drops_masked_byte host xid f b :
  ip_frag_off_hi f = Some b ->
  Z.land b (ntohs host (Z.lor IP_MF IP_OFFMASK)) <> 0 ->
  run_filter (Net.fprog host xid) f = Some 0.
Proof.
  intros Hb Hmask. apply filter_drops_unless.
  intros (_ & (b' & Hb' & Hz) & _). congruence.
Qed.

(** A frame with the more-fragments flag set is dropped, on either byte
    order. *)
Lemma filter_drops_more_fragments host xid f v :
  ip_frag_off f = Some v ->
  Z.testbit v 13 = true ->
  run_filter (Net.fprog host xid) f = Some 0.
Proof.
  unfold ip_frag_off, load_half. intros Hv Hbit.
  destruct (pkt_byte f offsetof_iphdr_frag_off) as [b0 |] eqn:H0;
    [| discriminate].
  destruct (pkt_byte f (offsetof_iphdr_frag_off + 1)) as [b1 |] eqn:H1;
    [| discriminate].
  assert (Hv' : v = Z.lor (Z.shiftl b0 8) b1) by congruence.
  subst v. clear Hv.
  apply pkt_byte_range in H1.
  rewrite Z.lor_spec, Z.shiftl_spec in Hbit by lia.
  assert (Hb1 : Z.testbit b1 13 = false).
  { destruct (Z.eq_dec b1 0) as [-> | Hne]; [reflexivity |].
    apply Z.bits_above_log2; [lia |].
    apply Z.log2_lt_pow2; lia. }
  rewrite Hb1, orb_false_r in Hbit. change (13 - 8) with 5 in Hbit.
  apply filter_drops_masked_byte with (b := b0); [exact H0 |].
  intros Hz. apply (f_equal (fun z => Z.testbit z 5)) in Hz.
  rewrite Z.land_spec, Hbit, Z.bits_0 in Hz.
  destruct host; vm_compute in Hz; discriminate.
Qed.


(** C1, at a frame the program accepts against its description: the
    filter is documented to pass only unfragmented DHCP replies, yet the
    reply carried by a last fragment at offset 185 (more-fragments clear,
    all other checks met) is accepted with the full length 65535. *)
Theorem filter_accepts_fragment_at_offset_185 :
  run_filter (Net.fprog LittleEndian 0x12345678) Frames.reply_frag_off_185
    = Some 65535 /\
  ip_frag_off Frames.reply_frag_off_185 = Some 185 /\
  ~ unfragmented Frames.reply_frag_off_185.
Proof.
  split; [vm_compute; reflexivity |].
  assert (Hf : ip_frag_off Frames.reply_frag_off_185 = Some 185)
    by (vm_compute; reflexivity).
  split; [exact Hf |].
  intros (v & Hv & Hz). rewrite Hf in Hv. injection Hv as <-.
  vm_compute in Hz. discriminate.
Qed.

(** The same mask on a big-endian host, where [ntohs] changes nothing, meets
    the whole first byte: an unfragmented reply with the don't-fragment
    flag set is dropped there, and accepted on a little-endian host. *)
Lemma filter_and_dont_fragment :
  unfragmented Frames.reply_df /\
  run_filter (Net.fprog BigEndian 0x12345678) Frames.reply_df = Some 0 /\
  run_filter (Net.fprog LittleEndian 0x12345678) Frames.reply_df
    = Some 65535.
Proof.
  split; [| split; vm_compute; reflexivity].
  exists IP_DF. split; vm_compute; reflexivity.
Qed.

(** C2, at a frame the program fails to drop: a UDP frame whose 16-bit
    flags-and-offset field is 1, so that the field masked by
    IP_MF | IP_OFFMASK is not 0, is accepted, on a little-endian and on a
    big-endian host alike: the program loads one byte of the field, and
    the low eight offset bits never meet the mask. *)
Theorem filter_accepts_fragment_at_offset_1 (host : byte_order) :
  ip_protocol Frames.reply_frag_off_1 = Some IPPROTO_UDP /\
  ip_frag_off Frames.reply_frag_off_1 = Some 1 /\
  Z.land 1 (Z.lor IP_MF IP_OFFMASK) <> 0 /\
  run_filter (Net.fprog host 0x12345678) Frames.reply_frag_off_1
    = Some 65535.
Proof.
  repeat split; try (destruct host; vm_compute; reflexivity).
  vm_compute. discriminate.
Qed.

(** C5: the transaction id the filter accepts is the [xid] argument, an
    immediate of instruction 22.  A frame whose DHCP xid field is not
    [xid] is dropped.  A frame whose field is [xid] passes the check: the
    run that reaches the comparison (instruction 21, X past the IP and UDP
    headers) ends with the verdict of the cookie check that follows, 65535
    when the cookie is the DHCP magic; and the frame as a whole is accepted
    exactly when it passes the six other checks. *)
Theorem filter_xid_immediate (host : byte_order) (xid : Z) (f : list byte) :
  nth_error (Net.filter host xid) 22
    = Some (BPF_JUMP (BPF_JMP + BPF_JEQ + BPF_K) xid 1 0) /\
  (dhcp_xid f <> Some xid -> run_filter (Net.fprog host xid) f = Some 0) /\
  (dhcp_xid f = Some xid ->
   (forall ihl fuel r,
       ip_hdr_len f = Some ihl ->
       X r = ihl + sizeof_udphdr ->
       bpf_run (5 + fuel) (Net.filter host xid) f 21 r =
       Some (if opt_test (dhcp_magic f)
                  (fun m => m =? N_DHCP4_MESSAGE_MAGIC)
             then 65535 else 0)) /\
   (frame_len f < 2 ^ 32 ->
    (run_filter (Net.fprog host xid) f = Some 65535 <->
     ip_protocol f = Some IPPROTO_UDP /\
     (exists b, ip_frag_off_hi f = Some b /\
                Z.land b (ntohs host (Z.lor IP_MF IP_OFFMASK)) = 0) /\
     long_enough f /\
     udp_dest f = Some N_DHCP4_NETWORK_CLIENT_PORT /\
     dhcp_op f = Some N_DHCP4_OP_BOOTREPLY /\
     dhcp_magic f = Some N_DHCP4_MESSAGE_MAGIC))).
Proof.
  split; [reflexivity |]. split.
  - intros Hne. apply filter_drops_unless.
    intros (_ & _ & _ & _ & _ & Hxid & _). contradiction.
  - intros Hxid. split.
    + intros ihl fuel r Hihl HX.
      pose proof (ip_hdr_len_bounds f ihl Hihl) as Hb.
      change (5 + fuel)%nat with (S (S (S (S (S fuel))))).
      rewrite seg_xid by (rewrite HX; unfold sizeof_udphdr; lia).
      unfold dhcp_xid, at_ip_payload in Hxid. rewrite Hihl in Hxid.
      rewrite HX, Hxid, Z.eqb_refl. clear Hxid.
      rewrite seg_magic by (cbn [X]; unfold sizeof_udphdr; lia).
      cbn [X]. unfold dhcp_magic, at_ip_payload. rewrite Hihl.
      destruct (load_word f
                  (ihl + sizeof_udphdr + offsetof_NDhcp4Message_magic))
        as [m |]; cbn [opt_test]; [| reflexivity].
      destruct (m =? N_DHCP4_MESSAGE_MAGIC); reflexivity.
    + intros Hlen. split.
      * intros Hacc. apply filter_accepts_only_if in Hacc.
        destruct Hacc as (H1 & H2 & H3 & H4 & H5 & _ & H7).
        repeat (split; [assumption |]). assumption.
      * intros (H1 & H2 & H3 & H4 & H5 & H7).
        apply filter_accepts_iff; [exact Hlen |].
        unfold passes_checks.
        repeat (split; [assumption |]). assumption.
Qed.

(** An instance, at the reply to transaction 0x12345678: dropped by the
    filter for 0x12345679; in the filter for 0x12345678 the run from the
    comparison on ends with 65535, and the reply is accepted. *)
Lemma filter_xid_immediate_witness :
  (dhcp_xid Frames.reply <> Some 0x12345679 /\
   run_filter (Net.fprog LittleEndian 0x12345679) Frames.reply = Some 0) /\
  (dhcp_xid Frames.reply = Some 0x12345678 /\
   bpf_run 5 (Net.filter LittleEndian 0x12345678) Frames.reply 21
     (mk_regs 0 28) = Some 65535 /\
   run_filter (Net.fprog LittleEndian 0x12345678) Frames.reply
   = Some 65535).
Proof.
  assert (Hne : dhcp_xid Frames.reply <> Some 0x12345679)
    by (vm_compute; discriminate).
  assert (Heq : dhcp_xid Frames.reply = Some 0x12345678)
    by (vm_compute; reflexivity).
  assert (Hmagic : opt_test (dhcp_magic Frames.reply)
                     (fun m => m =? N_DHCP4_MESSAGE_MAGIC) = true)
    by (vm_compute; reflexivity).
  split; [split; [exact Hne |] | split; [exact Heq |]].
  - exact (proj1 (proj2
             (filter_xid_immediate LittleEndian 0x12345679 Frames.reply))
             Hne).
  - destruct (proj2 (proj2
                (filter_xid_immediate LittleEndian 0x12345678
                   Frames.reply)) Heq) as [Hrun Hacc].
    split.
    + specialize (Hrun 20 0%nat (mk_regs 0 28)).
      rewrite Hmagic in Hrun. apply Hrun.
      * vm_compute. reflexivity.
      * reflexivity.
    + apply Hacc; [vm_compute; reflexivity |].
      split; [vm_compute; reflexivity |].
      split; [exists 0; split; vm_compute; reflexivity |].
      split; [exists 20; split; [vm_compute; reflexivity |];
              vm_compute; discriminate |].
      repeat split; vm_compute; reflexivity.
Defined.

(** C7: a frame whose UDP destination port is not 68 is dropped.  The
    port is the 16-bit field at the IP header length plus the offset of
    [dest] in the UDP header: instruction 12 loads the half-word at
    X + offsetof(struct udphdr, dest), instruction 13 compares it with the
    client port, and from instruction 12, with X the IP header length, the
    run goes on to instruction 15 exactly when that field is 68. *)
Theorem filter_checks_client_port
    (host : byte_order) (xid : Z) (f : list byte) :
  (udp_dest f <> Some N_DHCP4_NETWORK_CLIENT_PORT ->
   run_filter (Net.fprog host xid) f = Some 0) /\
  N_DHCP4_NETWORK_CLIENT_PORT = 68 /\
  nth_error (Net.filter host xid) 12
    = Some (BPF_STMT (BPF_LD + BPF_H + BPF_IND) offsetof_udphdr_dest) /\
  nth_error (Net.filter host xid) 13
    = Some (BPF_JUMP (BPF_JMP + BPF_JEQ + BPF_K)
              N_DHCP4_NETWORK_CLIENT_PORT 1 0) /\
  (forall fuel r,
      ip_hdr_len f = Some (X r) ->
      bpf_run (S (S (S fuel))) (Net.filter host xid) f 12 r =
      match load_half f (X r + offsetof_udphdr_dest) with
      | Some port =>
          if port =? N_DHCP4_NETWORK_CLIENT_PORT
          then bpf_run (S fuel) (Net.filter host xid) f 15
                 (mk_regs port (X r))
          else Some 0
      | None => Some 0
      end).
Proof.
  split; [| repeat split].
  - intros Hne. apply filter_drops_unless.
    intros (_ & _ & _ & Hport & _). contradiction.
  - intros fuel r Hihl. apply seg_port.
    now apply ip_hdr_len_bounds with (f := f).
Qed.

(** An instance, at a reply sent to port 67. *)
Lemma filter_checks_client_port_witness :
  (udp_dest Frames.reply_port_67 <> Some N_DHCP4_NETWORK_CLIENT_PORT /\
   run_filter (Net.fprog LittleEndian 0x12345678) Frames.reply_port_67
     = Some 0) /\
  (ip_hdr_len Frames.reply_port_67 = Some 20 /\
   bpf_run 3 (Net.filter LittleEndian 0x12345678) Frames.reply_port_67 12
     (mk_regs 0 20) = Some 0).
Proof.
  assert (Hne : udp_dest Frames.reply_port_67
                <> Some N_DHCP4_NETWORK_CLIENT_PORT)
    by (vm_compute; discriminate).
  assert (Hihl : ip_hdr_len Frames.reply_port_67 = Some 20)
    by (vm_compute; reflexivity).
  pose proof (filter_checks_client_port LittleEndian 0x12345678
                Frames.reply_port_67) as (Hdrop & _ & _ & _ & Hrun).
  split; split; try assumption.
  - exact (Hdrop Hne).
  - rewrite (Hrun 0%nat (mk_regs 0 20) Hihl). vm_compute. reflexivity.
Defined.

(** C9, as stated, fails on the count: the program has 28 instructions,
    not 24. *)
Lemma filter_length_is_not_24 :
  List.length (Net.filter LittleEndian 0x12345678) <> 24%nat.
Proof. vm_compute. discriminate. Qed.

(** C9, amended: the program is a fixed sequence of 28 instructions; each
    is a return of 0 or 65535, a conditional jump to two later
    instructions of the program, or an instruction followed by a later
    one; and on every frame the run ends within 28 steps with verdict 0 or
    65535. *)
Theorem filter_shape_and_totality
    (host : byte_order) (xid : Z) (f : list byte) :
  List.length (Net.filter host xid) = 28%nat /\
  well_formed (Net.filter host xid) = true /\
  (bpf_run 28 (Net.filter host xid) f 0 (mk_regs 0 0) = Some 0 \/
   bpf_run 28 (Net.filter host xid) f 0 (mk_regs 0 0) = Some 65535) /\
  (run_filter (Net.fprog host xid) f = Some 0 \/
   run_filter (Net.fprog host xid) f = Some 65535).
Proof.
  split; [reflexivity |]. split; [reflexivity |].
  split; apply run_filter_total.
Qed.

End FilterClaims.

(** ** The system calls of [n_dhcp4_network_client_packet_socket_new] *)

Section PacketSocket.
Import Bpf Hdr Sys.

Variable kernel : Type.
Variable sys : kernel -> syscall -> sysret * kernel.
Variables (host : byte_order) (ifindex xid : Z).

Local Abbreviation socket_new :=
  (Net.n_dhcp4_network_client_packet_socket_new kernel sys host ifindex xid).

Lemma of_N_not_negative n : (Z.of_N n <? 0) = false.
Proof. apply Z.ltb_ge. lia. Qed.

Lemma call_ok c w v k' :
  sys (w_kernel w) c = (SysOk v, k') ->
  call kernel sys c w =
  (Z.of_N v,
   mk_world k' (w_errno w) (w_sockfdp w) (w_trace w ++ [EvCall c (SysOk v)])).
Proof. intros H. unfold call. now rewrite H. Qed.

Lemma call_err c w e k' :
  sys (w_kernel w) c = (SysErr e, k') ->
  call kernel sys c w =
  (-1,
   mk_world k' (Z.pos e) (w_sockfdp w) (w_trace w ++ [EvCall c (SysErr e)])).
Proof. intros H. unfold call. now rewrite H. Qed.

(** Every way the function can run: one failing call after zero to three
    successful ones, or four successful calls and the store. *)
Lemma socket_new_cases (w : world kernel) :
  let c1 := Socket AF_PACKET SOCK_DGRAM 0 in
  (exists e k1,
      sys (w_kernel w) c1 = (SysErr e, k1) /\
      socket_new w =
      (- Z.pos e,
       mk_world k1 (Z.pos e) (w_sockfdp w)
         (w_trace w ++ [EvCall c1 (SysErr e)]))) \/
  (exists fd k1,
      sys (w_kernel w) c1 = (SysOk fd, k1) /\
      let c2 := Setsockopt (Z.of_N fd) SOL_SOCKET SO_ATTACH_FILTER
                  (OptFprog (Net.fprog host xid)) in
      let c3 := Setsockopt (Z.of_N fd) SOL_PACKET PACKET_AUXDATA
                  (OptInt 1) in
      let c4 := Bind (Z.of_N fd) (Net.addr host ifindex) in
      (exists e k2,
          sys k1 c2 = (SysErr e, k2) /\
          socket_new w =
          (- Z.pos e,
           mk_world k2 (Z.pos e) (w_sockfdp w)
             (w_trace w ++ [EvCall c1 (SysOk fd); EvCall c2 (SysErr e)]))) \/
      (exists v2 k2,
          sys k1 c2 = (SysOk v2, k2) /\
          ((exists e k3,
               sys k2 c3 = (SysErr e, k3) /\
               socket_new w =
               (- Z.pos e,
                mk_world k3 (Z.pos e) (w_sockfdp w)
                  (w_trace w ++ [EvCall c1 (SysOk fd); EvCall c2 (SysOk v2);
                                 EvCall c3 (SysErr e)]))) \/
           (exists v3 k3,
               sys k2 c3 = (SysOk v3, k3) /\
               ((exists e k4,
                    sys k3 c4 = (SysErr e, k4) /\
                    socket_new w =
                    (- Z.pos e,
                     mk_world k4 (Z.pos e) (w_sockfdp w)
                       (w_trace w ++
                        [EvCall c1 (SysOk fd); EvCall c2 (SysOk v2);
                         EvCall c3 (SysOk v3); EvCall c4 (SysErr e)]))) \/
                (exists v4 k4,
                    sys k3 c4 = (SysOk v4, k4) /\
                    socket_new w =
                    (0,
                     mk_world k4 (w_errno w) (Z.of_N fd)
                       (w_trace w ++
                        [EvCall c1 (SysOk fd); EvCall c2 (SysOk v2);
                         EvCall c3 (SysOk v3); EvCall c4 (SysOk v4);
                         EvStoreSockfdp (Z.of_N fd)])))))))).
Proof.
  cbv zeta.
  unfold Net.n_dhcp4_network_client_packet_socket_new, socket, setsockopt,
    bind, mbind.
  destruct (sys (w_kernel w) (Socket AF_PACKET SOCK_DGRAM 0))
    as [[fd | e] k1] eqn:E1.
  2: { left. exists e, k1. split; [reflexivity |].
       erewrite call_err by exact E1. reflexivity. }
  right. exists fd, k1. split; [reflexivity |].
  erewrite call_ok by exact E1; rewrite of_N_not_negative. cbn [w_kernel].
  match goal with
  | |- context [call kernel sys ?c ?w1] =>
      destruct (sys k1 c) as [[v2 | e] k2] eqn:E2
  end.
  2: { left. exists e, k2. split; [reflexivity |].
       erewrite call_err by exact E2. cbn. rewrite <- app_assoc.
       reflexivity. }
  right. exists v2, k2. split; [reflexivity |].
  erewrite call_ok by exact E2; rewrite of_N_not_negative. cbn [w_kernel].
  match goal with
  | |- context [call kernel sys ?c ?w1] =>
      destruct (sys k2 c) as [[v3 | e] k3] eqn:E3
  end.
  2: { left. exists e, k3. split; [reflexivity |].
       erewrite call_err by exact E3. cbn. rewrite <- !app_assoc.
       reflexivity. }
  right. exists v3, k3. split; [reflexivity |].
  erewrite call_ok by exact E3; rewrite of_N_not_negative. cbn [w_kernel].
  match goal with
  | |- context [call kernel sys ?c ?w1] =>
      destruct (sys k3 c) as [[v4 | e] k4] eqn:E4
  end.
  2: { left. exists e, k4. split; [reflexivity |].
       erewrite call_err by exact E4. cbn. rewrite <- !app_assoc.
       reflexivity. }
  right. exists v4, k4. split; [reflexivity |].
  erewrite call_ok by exact E4; rewrite of_N_not_negative.
  cbn. rewrite <- !app_assoc. reflexivity.
Qed.

Local Ltac socket_new_run w :=
  destruct (socket_new_cases w)
    as [(e & k1 & _ & ->)
       | (fd & k1 & _ &
          [(e & k2 & _ & ->)
          | (v2 & k2 & _ &
             [(e & k3 & _ & ->)
             | (v3 & k3 & _ &
                [(e & k4 & _ & ->) | (v4 & k4 & _ & ->)])])])];
  cbn [fst snd w_trace w_sockfdp].

(** C3: the function returns 0 exactly when every call it made succeeded,
    which are then the four calls; otherwise the last call it made is the
    only one that failed, and the function returns the negative of the
    errno of that call, a negative number. *)
Theorem socket_new_return_value (w : world kernel) :
  exists t,
    w_trace (snd (socket_new w)) = w_trace w ++ t /\
    (fst (socket_new w) = 0 <->
     forallb sysret_ok (call_results t) = true) /\
    ((fst (socket_new w) = 0 /\ List.length (call_results t) = 4%nat) \/
     (exists pre c e,
         t = pre ++ [EvCall c (SysErr e)] /\
         forallb sysret_ok (call_results pre) = true /\
         fst (socket_new w) = - Z.pos e /\
         fst (socket_new w) < 0)).
Proof.
  socket_new_run w; eexists; (split; [reflexivity |]);
    (split; [cbn; split; (reflexivity || discriminate || lia) |]).
  - right. exists [], (Socket AF_PACKET SOCK_DGRAM 0), e.
    repeat split; lia.
  - right. eexists [_], _, e. repeat split; lia.
  - right. eexists [_; _], _, e. repeat split; lia.
  - right. eexists [_; _; _], _, e. repeat split; lia.
  - left. split; reflexivity.
Qed.

(** The function never calls close. *)
Lemma socket_new_never_closes (w : world kernel) :
  exists t,
    w_trace (snd (socket_new w)) = w_trace w ++ t /\
    forall fd, existsb (is_close fd) t = false.
Proof.
  socket_new_run w; eexists; (split; [reflexivity |]);
    intros fd'; reflexivity.
Qed.

(** C6: when the function reports success it has made, in this order,
    socket(AF_PACKET, SOCK_DGRAM, 0), the attachment of the filter, the
    setting of PACKET_AUXDATA to 1 and the bind to protocol
    htons(ETH_P_IP) and [ifindex], all on the new socket, then the store
    of the descriptor, and nothing else. *)
Theorem socket_new_call_order (w : world kernel) :
  fst (socket_new w) = 0 ->
  exists fd v2 v3 v4,
    w_trace (snd (socket_new w)) =
    w_trace w ++
    [EvCall (Socket AF_PACKET SOCK_DGRAM 0) (SysOk fd);
     EvCall (Setsockopt (Z.of_N fd) SOL_SOCKET SO_ATTACH_FILTER
               (OptFprog (Net.fprog host xid))) (SysOk v2);
     EvCall (Setsockopt (Z.of_N fd) SOL_PACKET PACKET_AUXDATA (OptInt 1))
            (SysOk v3);
     EvCall (Bind (Z.of_N fd)
               (mk_sockaddr_ll AF_PACKET (htons host ETH_P_IP) ifindex
                  0 0 0 (repeat 0 8))) (SysOk v4);
     EvStoreSockfdp (Z.of_N fd)].
Proof.
  socket_new_run w; intros Hret; try lia.
  exists fd, v2, v3, v4. reflexivity.
Qed.

(** C8: on a failing run the cell behind [sockfdp] keeps its value and
    nothing is stored through the pointer; on a successful run there is
    one store, the last thing the function does, of the descriptor the
    socket call returned. *)
Theorem socket_new_sockfdp (w : world kernel) :
  exists t,
    w_trace (snd (socket_new w)) = w_trace w ++ t /\
    (fst (socket_new w) <> 0 ->
     w_sockfdp (snd (socket_new w)) = w_sockfdp w /\
     existsb is_store t = false) /\
    (fst (socket_new w) = 0 ->
     exists fd rest,
       t = EvCall (Socket AF_PACKET SOCK_DGRAM 0) (SysOk fd) :: rest
           ++ [EvStoreSockfdp (Z.of_N fd)] /\
       existsb is_store rest = false /\
       w_sockfdp (snd (socket_new w)) = Z.of_N fd).
Proof.
  socket_new_run w; eexists; (split; [reflexivity |]);
    (split; [intros Hret; try (split; reflexivity)
            | intros Hret; try lia]).
  - contradiction.
  - exists fd. eexists [_; _; _]. repeat split.
Qed.

End PacketSocket.

(** Runs against a scripted kernel. *)
Section ScriptedRuns.
Import Bpf Hdr Sys.

Local Abbreviation run script :=
  (Net.n_dhcp4_network_client_packet_socket_new scripted scripted_sys
     LittleEndian 2 0x12345678 (mk_world script 0 (-1) [])).

(** An instance, at a run whose third call fails with ENODEV (19). *)
Lemma socket_new_return_value_witness :
  fst (run [SysOk 3%N; SysOk 0%N; SysErr 19%positive]) = -19 /\
  exists t,
    w_trace (snd (run [SysOk 3%N; SysOk 0%N; SysErr 19%positive]))
      = [] ++ t /\
    (fst (run [SysOk 3%N; SysOk 0%N; SysErr 19%positive]) = 0 <->
     forallb sysret_ok (call_results t) = true) /\
    ((fst (run [SysOk 3%N; SysOk 0%N; SysErr 19%positive]) = 0 /\
      List.length (call_results t) = 4%nat) \/
     (exists pre c e,
         t = pre ++ [EvCall c (SysErr e)] /\
         forallb sysret_ok (call_results pre) = true /\
         fst (run [SysOk 3%N; SysOk 0%N; SysErr 19%positive]) = - Z.pos e /\
         fst (run [SysOk 3%N; SysOk 0%N; SysErr 19%positive]) < 0)).
Proof.
  split; [reflexivity |].
  exact (socket_new_return_value scripted scripted_sys LittleEndian 2
           0x12345678
           (mk_world [SysOk 3%N; SysOk 0%N; SysErr 19%positive] 0 (-1) [])).
Defined.

(** C4, at a run that leaks the socket: socket() returns descriptor 3,
    SO_ATTACH_FILTER fails with ENOMEM; the function returns -12 having
    made those two calls only, and descriptor 3 is never closed. *)
Theorem socket_new_leaks_descriptor :
  fst (run [SysOk 3%N; SysErr 12%positive]) = - ENOMEM /\
  w_trace (snd (run [SysOk 3%N; SysErr 12%positive])) =
    [EvCall (Socket AF_PACKET SOCK_DGRAM 0) (SysOk 3%N);
     EvCall (Setsockopt 3 SOL_SOCKET SO_ATTACH_FILTER
               (OptFprog (Net.fprog LittleEndian 0x12345678)))
            (SysErr 12%positive)] /\
  existsb (is_close 3)
    (w_trace (snd (run [SysOk 3%N; SysErr 12%positive]))) = false.
Proof. repeat split. Qed.

(** An instance, at a run whose four calls succeed. *)
Lemma socket_new_call_order_witness :
  fst (run [SysOk 3%N; SysOk 0%N; SysOk 0%N; SysOk 0%N]) = 0 /\
  exists fd v2 v3 v4,
    w_trace (snd (run [SysOk 3%N; SysOk 0%N; SysOk 0%N; SysOk 0%N])) =
    [] ++
    [EvCall (Socket AF_PACKET SOCK_DGRAM 0) (SysOk fd);
     EvCall (Setsockopt (Z.of_N fd) SOL_SOCKET SO_ATTACH_FILTER
               (OptFprog (Net.fprog LittleEndian 0x12345678))) (SysOk v2);
     EvCall (Setsockopt (Z.of_N fd) SOL_PACKET PACKET_AUXDATA (OptInt 1))
            (SysOk v3);
     EvCall (Bind (Z.of_N fd)
               (mk_sockaddr_ll AF_PACKET (htons LittleEndian ETH_P_IP) 2
                  0 0 0 (repeat 0 8))) (SysOk v4);
     EvStoreSockfdp (Z.of_N fd)].
Proof.
  split; [reflexivity |].
  apply (socket_new_call_order scripted scripted_sys LittleEndian 2
           0x12345678
           (mk_world [SysOk 3%N; SysOk 0%N; SysOk 0%N; SysOk 0%N]
              0 (-1) [])).
  reflexivity.
Defined.

(** Two instances: a run whose bind fails, the cell holding -1 before and
    after, and a run that succeeds with descriptor 3. *)
Lemma socket_new_sockfdp_witness :
  (fst (run [SysOk 3%N; SysOk 0%N; SysOk 0%N; SysErr 19%positive]) <> 0 /\
   w_sockfdp
     (snd (run [SysOk 3%N; SysOk 0%N; SysOk 0%N; SysErr 19%positive]))
   = -1) /\
  (fst (run [SysOk 3%N; SysOk 0%N; SysOk 0%N; SysOk 0%N]) = 0 /\
   w_sockfdp (snd (run [SysOk 3%N; SysOk 0%N; SysOk 0%N; SysOk 0%N])) = 3).
Proof.
  split.
  - assert (Hret : fst (run [SysOk 3%N; SysOk 0%N; SysOk 0%N;
                             SysErr 19%positive]) <> 0)
      by (vm_compute; discriminate).
    split; [exact Hret |].
    destruct (socket_new_sockfdp scripted scripted_sys LittleEndian 2
                0x12345678
                (mk_world [SysOk 3%N; SysOk 0%N; SysOk 0%N;
                           SysErr 19%positive] 0 (-1) []))
      as (t & _ & Hfail & _).
    exact (proj1 (Hfail Hret)).
  - split; [reflexivity |].
    destruct (socket_new_sockfdp scripted scripted_sys LittleEndian 2
                0x12345678
                (mk_world [SysOk 3%N; SysOk 0%N; SysOk 0%N; SysOk 0%N]
                   0 (-1) []))
      as (t & Ht & _ & Hok).
    destruct (Hok eq_refl) as (fd & rest & Hrest & _ & Hcell).
    rewrite Hcell. rewrite Hrest in Ht. vm_compute in Ht.
    injection Ht as Hfd _. rewrite <- Hfd. reflexivity.
Defined.

End ScriptedRuns.

(** ** [parse_hexstr] *)

Section ParseHexstr.
Import TestRunClient.

Lemma list_pair_ind {T} (P : list T -> Prop) :
  P [] ->
  (forall a, P [a]) ->
  (forall a b l, P l -> P (a :: b :: l)) ->
  forall l, P l.
Proof.
  intros Hnil Hone Hpair. fix IH 1.
  intros [| a [| b l]];
    [exact Hnil | exact (Hone a) | exact (Hpair a b l (IH l))].
Qed.

(** The switch computes the value of a hexadecimal digit, and 0 for any
    other character. *)
Lemma nibble_hex_digit_value (c : ascii) :
  nibble (Z.of_N (N_of_ascii c)) = hex_digit_value c.
Proof. destruct c as [[] [] [] [] [] [] [] []]; reflexivity. Qed.

Lemma hex_digit_value_range (c : ascii) : 0 <= hex_digit_value c < 16.
Proof.
  destruct c as [[] [] [] [] [] [] [] []]; cbv; split; congruence.
Qed.

(** [<<= 4] then [|=] on a byte holding a nibble. *)
Lemma shift_or_nibbles hi lo :
  0 <= hi < 16 -> 0 <= lo < 16 ->
  Z.lor (Z.shiftl hi 4 mod 256) lo = 16 * hi + lo.
Proof.
  intros Hhi Hlo.
  rewrite Z.shiftl_mul_pow2, Z.mod_small by lia.
  change (2 ^ 4) with 16.
  assert (Hland : Z.land (hi * 16) lo = 0).
  { apply Z.bits_inj'. intros n Hn.
    rewrite Z.land_spec, Z.bits_0.
    destruct (Z.lt_ge_cases n 4) as [Hlt | Hge].
    - replace (hi * 16) with (Z.shiftl hi 4)
        by (rewrite Z.shiftl_mul_pow2; lia).
      rewrite Z.shiftl_spec_low by lia. reflexivity.
    - assert (Hb : Z.testbit lo n = false).
      { destruct (Z.eq_dec lo 0) as [-> | Hne]; [apply Z.bits_0 |].
        apply Z.bits_above_log2; [lia |].
        apply Z.lt_le_trans with 4; [| lia].
        apply Z.log2_lt_pow2; lia. }
      rewrite Hb. apply andb_false_r. }
  rewrite <- Z.lxor_lor, <- Z.add_nocarry_lxor by exact Hland. lia.
Qed.

Lemma strlen_c_chars s : strlen s = List.length (c_chars s).
Proof.
  induction s as [| c s IH]; cbn [strlen c_chars]; [reflexivity |].
  destruct (N_of_ascii c =? 0)%N; cbn [List.length]; congruence.
Qed.

Lemma in_at_c_chars s j c :
  nth_error (c_chars s) j = Some c -> in_at s j = Z.of_N (N_of_ascii c).
Proof.
  revert j. induction s as [| c0 s IH]; intros j; cbn [c_chars].
  - destruct j; discriminate.
  - destruct (N_of_ascii c0 =? 0)%N; [destruct j; discriminate |].
    destruct j as [| j]; cbn [nth_error].
    + intros [= ->]. reflexivity.
    + intros H. unfold in_at. cbn [String.get]. now apply IH.
Qed.

Lemma decode_pairs_length cs :
  List.length (decode_pairs cs) = ((List.length cs + 1) / 2)%nat.
Proof.
  induction cs as [| a | a b l IH] using list_pair_ind;
    [reflexivity | reflexivity |].
  cbn [decode_pairs List.length]. rewrite IH.
  replace (S (S (List.length l)) + 1)%nat
    with (List.length l + 1 + 1 * 2)%nat by lia.
  rewrite Nat.div_add by lia. lia.
Qed.

Lemma buf_read_at (pre : list Z) x post :
  buf_read (pre ++ x :: post) (List.length pre) = Some x.
Proof.
  unfold buf_read. induction pre as [| y pre IH]; [reflexivity | exact IH].
Qed.

Lemma buf_write_at (pre : list Z) x post v :
  buf_write (pre ++ x :: post) (List.length pre) v
  = Some (pre ++ v :: post).
Proof.
  induction pre as [| y pre IH]; [reflexivity |].
  cbn [app List.length buf_write]. now rewrite IH.
Qed.

Lemma even_index m : ((2 * m) mod 2 = 0 /\ (2 * m) / 2 = m)%nat.
Proof.
  rewrite Nat.mul_comm. split;
    [apply Nat.Div0.mod_mul | apply Nat.div_mul; lia].
Qed.

Lemma odd_index m : ((S (2 * m)) mod 2 = 1 /\ (S (2 * m)) / 2 = m)%nat.
Proof.
  split; symmetry;
    [apply (Nat.mod_unique _ _ m) | apply (Nat.div_unique _ _ _ 1%nat)];
    lia.
Qed.

(** The body at an even index stores the nibble in a fresh byte. *)
Lemma body_even s m pre x post c :
  List.length pre = m ->
  in_at s (2 * m) = Z.of_N (N_of_ascii c) ->
  parse_hexstr_body s (pre ++ x :: post) (2 * m)
  = Some (pre ++ hex_digit_value c :: post).
Proof.
  intros Hpre Hin. unfold parse_hexstr_body.
  destruct (even_index m) as [-> ->]. cbn [Nat.eqb negb].
  rewrite Hin, nibble_hex_digit_value, <- Hpre. apply buf_write_at.
Qed.

(** The body at an odd index shifts the stored nibble up and ors in the
    new one. *)
Lemma body_odd s m pre c0 post c :
  List.length pre = m ->
  in_at s (S (2 * m)) = Z.of_N (N_of_ascii c) ->
  parse_hexstr_body s (pre ++ hex_digit_value c0 :: post) (S (2 * m))
  = Some (pre ++ (16 * hex_digit_value c0 + hex_digit_value c) :: post).
Proof.
  intros Hpre Hin. unfold parse_hexstr_body.
  destruct (odd_index m) as [-> ->]. cbn [Nat.eqb negb].
  rewrite Hin, nibble_hex_digit_value, <- Hpre.
  rewrite buf_read_at, buf_write_at, buf_read_at, buf_write_at.
  rewrite shift_or_nibbles by apply hex_digit_value_range.
  reflexivity.
Qed.

(** The loop from an even index on: the bytes before it stay, the
    characters left are decoded over as many bytes, what follows stays. *)
Lemma loop_from_even s rest :
  forall m done todo after,
    List.length done = m ->
    List.length todo = List.length (decode_pairs rest) ->
    (forall j c, nth_error rest j = Some c ->
                 in_at s (2 * m + j) = Z.of_N (N_of_ascii c)) ->
    fold_left
      (fun acc i =>
         match acc with
         | Some o => parse_hexstr_body s o i
         | None => None
         end)
      (seq (2 * m) (List.length rest)) (Some (done ++ todo ++ after))
    = Some (done ++ decode_pairs rest ++ after).
Proof.
  induction rest as [| a | a b rest IH] using list_pair_ind;
    intros m done todo after Hdone Htodo Hin.
  - destruct todo; [reflexivity | discriminate].
  - destruct todo as [| x [| y todo]]; try discriminate.
    cbn [List.length seq fold_left decode_pairs app].
    apply body_even; [exact Hdone |].
    rewrite <- (Nat.add_0_r (2 * m)). now apply Hin.
  - destruct todo as [| x todo]; [discriminate |].
    cbn [List.length seq fold_left decode_pairs app].
    rewrite (body_even s m done x (todo ++ after) a Hdone)
      by (rewrite <- (Nat.add_0_r (2 * m)); now apply Hin).
    rewrite (body_odd s m done a (todo ++ after) b Hdone)
      by (replace (S (2 * m)) with (2 * m + 1)%nat by lia; now apply Hin).
    replace (S (S (2 * m))) with (2 * S m)%nat by lia.
    specialize (IH (S m)
                  (done ++ [16 * hex_digit_value a + hex_digit_value b])
                  todo after).
    rewrite <- !app_assoc in IH. cbn [app] in IH. apply IH.
    + rewrite length_app. cbn [List.length]. lia.
    + cbn [decode_pairs List.length] in Htodo. lia.
    + intros j c Hj.
      replace (2 * S m + j)%nat with (2 * m + S (S j))%nat by lia.
      now apply Hin.
Qed.

(** C10: when the allocation succeeds, whatever the block holds, the
    function returns 0 and leaves in [*strp] the characters of the string
    decoded pair by pair, high nibble first, a character that is no
    hexadecimal digit counting as 0 and a last unpaired character giving
    its value unshifted, and in [*n_strp] the length (strlen + 1) / 2 of
    that buffer; no access leaves the block.  When the allocation fails
    it returns -ENOMEM and stores nothing. *)
Theorem parse_hexstr_decodes (s : string) (junk : nat -> Z) :
  parse_hexstr (Some junk) s
  = Returned 0 (Some (decode_pairs (c_chars s), ((strlen s + 1) / 2)%nat)) /\
  List.length (decode_pairs (c_chars s)) = ((strlen s + 1) / 2)%nat /\
  parse_hexstr None s = Returned (- ENOMEM) None.
Proof.
  split; [| split; [| reflexivity]].
  - unfold parse_hexstr, malloc, parse_hexstr_loop.
    rewrite strlen_c_chars.
    pose proof (loop_from_even s (c_chars s) 0 []
                  (map (fun i => junk i mod 256)
                     (seq 0 ((List.length (c_chars s) + 1) / 2))) [])
      as Hloop.
    change (2 * 0)%nat with 0%nat in Hloop.
    cbn [app] in Hloop. rewrite !app_nil_r in Hloop.
    rewrite Hloop; [reflexivity | reflexivity | |].
    + now rewrite length_map, length_seq, decode_pairs_length.
    + intros j c Hj. now apply in_at_c_chars.
  - now rewrite decode_pairs_length, strlen_c_chars.
Qed.

End ParseHexstr.

(** ** More on the filter *)

Section FilterMore.
Import Bpf Hdr Wire.

(** X1: a frame whose length fits 32 bits is accepted exactly when it is
    UDP, the first byte of its flags-and-offset field has no bit of the
    byte-swapped mask set, at least a UDP header and a DHCP message follow
    the IP header, the destination port is 68, op is BOOTREPLY, the
    transaction id is [xid] and the cookie is the DHCP magic. *)
Theorem filter_acceptance (host : byte_order) (xid : Z) (f : list byte) :
  frame_len f < 2 ^ 32 ->
  (run_filter (Net.fprog host xid) f = Some 65535 <->
   ip_protocol f = Some IPPROTO_UDP /\
   (exists b, ip_frag_off_hi f = Some b /\
              Z.land b (ntohs host (Z.lor IP_MF IP_OFFMASK)) = 0) /\
   (exists ihl, ip_hdr_len f = Some ihl /\
                sizeof_udphdr + sizeof_NDhcp4Message <= frame_len f - ihl) /\
   udp_dest f = Some N_DHCP4_NETWORK_CLIENT_PORT /\
   dhcp_op f = Some N_DHCP4_OP_BOOTREPLY /\
   dhcp_xid f = Some xid /\
   dhcp_magic f = Some N_DHCP4_MESSAGE_MAGIC).
Proof. intros Hlen. now apply filter_accepts_iff. Qed.

(** An instance: the unfragmented reply is accepted. *)
Lemma filter_acceptance_witness :
  frame_len Frames.reply < 2 ^ 32 /\
  run_filter (Net.fprog LittleEndian 0x12345678) Frames.reply = Some 65535.
Proof.
  assert (Hlen : frame_len Frames.reply < 2 ^ 32) by (vm_compute; reflexivity).
  split; [exact Hlen |].
  apply (proj2 (filter_acceptance LittleEndian 0x12345678 Frames.reply Hlen)).
  repeat split; try (vm_compute; reflexivity).
  - exists 0. split; vm_compute; reflexivity.
  - exists 20. split; [vm_compute; reflexivity | vm_compute; discriminate].
Defined.

Lemma land_pow2_testbit v n :
  0 <= n -> Z.land v (2 ^ n) <> 0 -> Z.testbit v n = true.
Proof.
  intros Hn Hne. destruct (Z.testbit v n) eqn:Hbit; [reflexivity |].
  elim Hne. apply Z.bits_inj'. intros m Hm.
  rewrite Z.land_spec, Z.bits_0, Z.pow2_bits_eqb by lia.
  destruct (Z.eqb_spec n m) as [-> | _];
    [now rewrite Hbit | apply andb_false_r].
Qed.

(** X2: a frame with the more-fragments flag set in its flags-and-offset
    field is dropped, whatever the byte order of the host. *)
Theorem filter_drops_mf_flag
    (host : byte_order) (xid : Z) (f : list byte) (v : Z) :
  ip_frag_off f = Some v ->
  Z.land v IP_MF <> 0 ->
  run_filter (Net.fprog host xid) f = Some 0.
Proof.
  intros Hv Hmf. apply filter_drops_more_fragments with (v := v);
    [exact Hv |].
  apply land_pow2_testbit; [lia | exact Hmf].
Qed.

(** An instance: the reply with the flag set. *)
Lemma filter_drops_mf_flag_witness :
  ip_frag_off Frames.reply_mf = Some IP_MF /\
  Z.land IP_MF IP_MF <> 0 /\
  run_filter (Net.fprog BigEndian 0x12345678) Frames.reply_mf = Some 0.
Proof.
  assert (Hv : ip_frag_off Frames.reply_mf = Some IP_MF)
    by (vm_compute; reflexivity).
  assert (Hmf : Z.land IP_MF IP_MF <> 0) by (vm_compute; discriminate).
  split; [exact Hv |]. split; [exact Hmf |].
  exact (filter_drops_mf_flag BigEndian 0x12345678 Frames.reply_mf IP_MF
           Hv Hmf).
Defined.

(** X3: a frame too short to hold, after its IP header, a UDP header and a
    DHCP message with its cookie is dropped; so is a frame with no first
    byte.  This covers the frames shorter than their own IP header length,
    for which the 32-bit subtraction of instruction 9 wraps around and the
    comparison of instruction 10 succeeds. *)
Theorem filter_drops_short_frames
    (host : byte_order) (xid : Z) (f : list byte) :
  (forall ihl, ip_hdr_len f = Some ihl ->
               frame_len f < ihl + sizeof_udphdr + sizeof_NDhcp4Message) ->
  run_filter (Net.fprog host xid) f = Some 0.
Proof.
  intros Hshort. apply filter_drops_unless.
  intros (_ & _ & (ihl & Hihl & Hlong) & _).
  specialize (Hshort ihl Hihl). lia.
Qed.

(** An instance: the first 10 bytes of the reply, whose header length is
    20; there the subtraction wraps to 2^32 - 10. *)
Lemma filter_drops_short_frames_witness :
  ip_hdr_len (firstn 10 Frames.reply) = Some 20 /\
  sizeof_udphdr + sizeof_NDhcp4Message
    <= wrap32 (wrap32 (frame_len (firstn 10 Frames.reply)) - 20) /\
  run_filter (Net.fprog LittleEndian 0x12345678) (firstn 10 Frames.reply)
    = Some 0.
Proof.
  assert (Hihl : ip_hdr_len (firstn 10 Frames.reply) = Some 20)
    by (vm_compute; reflexivity).
  split; [exact Hihl |]. split; [vm_compute; discriminate |].
  apply (filter_drops_short_frames LittleEndian 0x12345678
           (firstn 10 Frames.reply)).
  intros ihl H. rewrite Hihl in H. injection H as <-.
  vm_compute. reflexivity.
Defined.

(** X4: the filters of two transactions never accept the same frame. *)
Theorem filter_xid_exclusive
    (host : byte_order) (xid xid' : Z) (f : list byte) :
  run_filter (Net.fprog host xid) f = Some 65535 ->
  xid' <> xid ->
  run_filter (Net.fprog host xid') f = Some 0.
Proof.
  intros Hacc Hne. apply filter_accepts_only_if in Hacc.
  destruct Hacc as (_ & _ & _ & _ & _ & Hxid & _).
  apply filter_drops_unless.
  intros (_ & _ & _ & _ & _ & Hxid' & _). congruence.
Qed.

(** An instance: the reply to 0x12345678 and the filter for 0x12345679. *)
Lemma filter_xid_exclusive_witness :
  run_filter (Net.fprog LittleEndian 0x12345678) Frames.reply = Some 65535 /\
  0x12345679 <> 0x12345678 /\
  run_filter (Net.fprog LittleEndian 0x12345679) Frames.reply = Some 0.
Proof.
  assert (Hacc : run_filter (Net.fprog LittleEndian 0x12345678) Frames.reply
                 = Some 65535) by (vm_compute; reflexivity).
  assert (Hne : 0x12345679 <> 0x12345678) by (vm_compute; discriminate).
  split; [exact Hacc |]. split; [exact Hne |].
  exact (filter_xid_exclusive LittleEndian 0x12345678 0x12345679
           Frames.reply Hacc Hne).
Defined.

(** X5: a frame that is not UDP, or whose DHCP op is not BOOTREPLY, or
    whose cookie is not the DHCP magic, is dropped. *)
Theorem filter_drops_non_replies
    (host : byte_order) (xid : Z) (f : list byte) :
  ip_protocol f <> Some IPPROTO_UDP \/
  dhcp_op f <> Some N_DHCP4_OP_BOOTREPLY \/
  dhcp_magic f <> Some N_DHCP4_MESSAGE_MAGIC ->
  run_filter (Net.fprog host xid) f = Some 0.
Proof.
  intros H. apply filter_drops_unless.
  intros (Hproto & _ & _ & _ & Hop & _ & Hmagic).
  destruct H as [H | [H | H]]; contradiction.
Qed.

(** An instance: a BOOTREQUEST (op 1) that meets every other check. *)
Lemma filter_drops_non_replies_witness :
  dhcp_op (Frames.frame 0 IPPROTO_UDP N_DHCP4_NETWORK_CLIENT_PORT 1
             0x12345678 N_DHCP4_MESSAGE_MAGIC)
    <> Some N_DHCP4_OP_BOOTREPLY /\
  run_filter (Net.fprog LittleEndian 0x12345678)
    (Frames.frame 0 IPPROTO_UDP N_DHCP4_NETWORK_CLIENT_PORT 1
       0x12345678 N_DHCP4_MESSAGE_MAGIC) = Some 0.
Proof.
  assert (Hop : dhcp_op (Frames.frame 0 IPPROTO_UDP
                           N_DHCP4_NETWORK_CLIENT_PORT 1
                           0x12345678 N_DHCP4_MESSAGE_MAGIC)
                <> Some N_DHCP4_OP_BOOTREPLY)
    by (vm_compute; discriminate).
  split; [exact Hop |].
  apply filter_drops_non_replies. right. left. exact Hop.
Defined.

Lemma frag_masks_on_a_byte b :
  0 <= b < 256 ->
  (Z.land b (ntohs BigEndian (Z.lor IP_MF IP_OFFMASK)) =? 0) =
  (Z.land b (ntohs LittleEndian (Z.lor IP_MF IP_OFFMASK)) =? 0)
  && (Z.land b 0xc0 =? 0).
Proof.
  intros Hb.
  assert (Hall :
    forallb
      (fun n =>
         let b := Z.of_nat n in
         Bool.eqb
           (Z.land b (ntohs BigEndian (Z.lor IP_MF IP_OFFMASK)) =? 0)
           ((Z.land b (ntohs LittleEndian (Z.lor IP_MF IP_OFFMASK)) =? 0)
            && (Z.land b 0xc0 =? 0)))
      (seq 0 256) = true) by (vm_compute; reflexivity).
  rewrite forallb_forall in Hall.
  specialize (Hall (Z.to_nat b)).
  cbv zeta in Hall. rewrite Z2Nat.id in Hall by lia.
  apply Bool.eqb_prop, Hall, in_seq. lia.
Qed.

(** X6: the program compiled for a big-endian host accepts exactly the
    frames that the program compiled for a little-endian host accepts and
    whose don't-fragment and reserved flags are both clear: there the mask,
    not byte-swapped, meets every bit of the byte loaded. *)
Theorem filter_big_endian_rejects_flags (xid : Z) (f : list byte) :
  run_filter (Net.fprog BigEndian xid) f = Some 65535 <->
  run_filter (Net.fprog LittleEndian xid) f = Some 65535 /\
  exists b, ip_frag_off_hi f = Some b /\ Z.land b 0xc0 = 0.
Proof.
  rewrite !run_filter_verdict. unfold verdict.
  destruct (opt_test (ip_protocol f) _); cbn [negb];
    [| split; [discriminate | intros [H _]; discriminate]].
  destruct (ip_frag_off_hi f) as [b |] eqn:Hb; cbn [opt_test negb];
    [| split; [discriminate | intros [H _]; discriminate]].
  assert (Hrange : 0 <= b < 256)
    by (unfold ip_frag_off_hi, load_byte in Hb;
        now apply pkt_byte_range in Hb).
  rewrite (frag_masks_on_a_byte b Hrange).
  destruct (Z.land b (ntohs LittleEndian _) =? 0); cbn [andb negb];
    [| split; [discriminate | intros [H _]; discriminate]].
  destruct (Z.eqb_spec (Z.land b 0xc0) 0) as [Hz | Hnz]; cbn [negb].
  - split; [intros H; split; [exact H | now exists b] | now intros [H _]].
  - split; [discriminate |].
    intros [_ (b' & [= <-] & Hz)]. contradiction.
Qed.

End FilterMore.

(** ** The filter and trailing bytes; the socket on the error paths *)

Section FilterTrailing.
Import Bpf Hdr Wire.

Variables (f g : list byte).

Lemma pkt_byte_app off v :
  pkt_byte f off = Some v -> pkt_byte (f ++ g) off = Some v.
Proof.
  unfold pkt_byte. destruct (off <? 0); [discriminate |].
  destruct (nth_error f (Z.to_nat off)) as [b |] eqn:Hb; [| discriminate].
  rewrite nth_error_app1, Hb; [auto |].
  apply nth_error_Some. congruence.
Qed.

Lemma load_byte_app off v :
  load_byte f off = Some v -> load_byte (f ++ g) off = Some v.
Proof. apply pkt_byte_app. Qed.

Lemma load_half_app off v :
  load_half f off = Some v -> load_half (f ++ g) off = Some v.
Proof.
  unfold load_half.
  destruct (pkt_byte f off) as [b0 |] eqn:H0; [| discriminate].
  destruct (pkt_byte f (off + 1)) as [b1 |] eqn:H1; [| discriminate].
  now rewrite (pkt_byte_app _ _ H0), (pkt_byte_app _ _ H1).
Qed.

Lemma load_word_app off v :
  load_word f off = Some v -> load_word (f ++ g) off = Some v.
Proof.
  unfold load_word.
  destruct (pkt_byte f off) as [b0 |] eqn:H0; [| discriminate].
  destruct (pkt_byte f (off + 1)) as [b1 |] eqn:H1; [| discriminate].
  destruct (pkt_byte f (off + 2)) as [b2 |] eqn:H2; [| discriminate].
  destruct (pkt_byte f (off + 3)) as [b3 |] eqn:H3; [| discriminate].
  now rewrite (pkt_byte_app _ _ H0), (pkt_byte_app _ _ H1),
    (pkt_byte_app _ _ H2), (pkt_byte_app _ _ H3).
Qed.

Lemma ip_hdr_len_app x :
  ip_hdr_len f = Some x -> ip_hdr_len (f ++ g) = Some x.
Proof.
  unfold ip_hdr_len.
  destruct (load_byte f 0) as [v |] eqn:Hv; [| discriminate].
  now rewrite (load_byte_app _ _ Hv).
Qed.

Lemma at_ip_payload_app (rd rd' : Z -> option Z) v :
  (forall x w, rd x = Some w -> rd' x = Some w) ->
  at_ip_payload f rd = Some v -> at_ip_payload (f ++ g) rd' = Some v.
Proof.
  intros Hrd. unfold at_ip_payload.
  destruct (ip_hdr_len f) as [x |] eqn:Hx; [| discriminate].
  rewrite (ip_hdr_len_app _ Hx). apply Hrd.
Qed.

(** X7: the filter looks at no length but that of the frame: an accepted
    frame stays accepted with any bytes appended, as long as its length
    fits 32 bits.  Neither the total length of the IP header nor the
    length of the UDP header is compared with what was received. *)
Theorem filter_accepts_with_trailing_bytes (host : byte_order) (xid : Z) :
  frame_len (f ++ g) < 2 ^ 32 ->
  run_filter (Net.fprog host xid) f = Some 65535 ->
  run_filter (Net.fprog host xid) (f ++ g) = Some 65535.
Proof.
  intros Hlen Hacc. apply filter_accepts_only_if in Hacc.
  apply filter_accepts_iff; [exact Hlen |].
  destruct Hacc
    as (Hproto & (b & Hb & Hmask) & (ihl & Hihl & Hlong) & Hport & Hop
        & Hxid & Hmagic).
  unfold passes_checks, ip_protocol, ip_frag_off_hi, long_enough,
    udp_dest, dhcp_op, dhcp_xid, dhcp_magic in *.
  split; [now apply load_byte_app |].
  split; [exists b; split; [now apply load_byte_app | exact Hmask] |].
  split.
  { exists ihl. split; [now apply ip_hdr_len_app |].
    unfold frame_len in *. rewrite length_app. lia. }
  split; [eapply at_ip_payload_app; [| exact Hport];
          intros x w; apply load_half_app |].
  split; [eapply at_ip_payload_app; [| exact Hop];
          intros x w; apply load_byte_app |].
  split; [eapply at_ip_payload_app; [| exact Hxid];
          intros x w; apply load_word_app |].
  eapply at_ip_payload_app; [| exact Hmagic].
  intros x w; apply load_word_app.
Qed.

End FilterTrailing.

(** An instance: the reply followed by four bytes. *)
Lemma filter_accepts_with_trailing_bytes_witness :
  Wire.frame_len (Frames.reply ++ repeat Byte.xff 4) < 2 ^ 32 /\
  Bpf.run_filter (Net.fprog Hdr.LittleEndian 0x12345678) Frames.reply
  = Some 65535 /\
  Bpf.run_filter (Net.fprog Hdr.LittleEndian 0x12345678)
    (Frames.reply ++ repeat Byte.xff 4) = Some 65535.
Proof.
  assert (Hlen : Wire.frame_len (Frames.reply ++ repeat Byte.xff 4)
                 < 2 ^ 32) by (vm_compute; reflexivity).
  assert (Hacc : Bpf.run_filter (Net.fprog Hdr.LittleEndian 0x12345678)
                   Frames.reply = Some 65535) by (vm_compute; reflexivity).
  split; [exact Hlen |]. split; [exact Hacc |].
  exact (filter_accepts_with_trailing_bytes Frames.reply
           (repeat Byte.xff 4) Hdr.LittleEndian 0x12345678 Hlen Hacc).
Defined.

Section PacketSocketErrors.
Import Bpf Hdr Sys.

Variable kernel : Type.
Variable sys : kernel -> syscall -> sysret * kernel.
Variables (host : byte_order) (ifindex xid : Z).

Local Abbreviation socket_new :=
  (Net.n_dhcp4_network_client_packet_socket_new kernel sys host ifindex xid).

(** X8: once socket() has succeeded, every failure of the function loses
    the descriptor: the function returns a negative value, has made no
    close on the descriptor and has stored nothing through [sockfdp],
    which holds what it held; the calls after socket() were made on that
    descriptor. *)
Theorem socket_new_loses_descriptor
    (w : world kernel) (fd : N) (k1 : kernel) :
  sys (w_kernel w) (Socket AF_PACKET SOCK_DGRAM 0) = (SysOk fd, k1) ->
  fst (socket_new w) <> 0 ->
  fst (socket_new w) < 0 /\
  w_sockfdp (snd (socket_new w)) = w_sockfdp w /\
  exists t,
    w_trace (snd (socket_new w)) =
    w_trace w ++ EvCall (Socket AF_PACKET SOCK_DGRAM 0) (SysOk fd) :: t /\
    existsb (is_close (Z.of_N fd)) t = false /\
    existsb is_store t = false /\
    t <> [].
Proof.
  intros Hsock Hfail.
  destruct (socket_new_cases kernel sys host ifindex xid w)
    as [(e & k1' & H1 & _)
       | (fd' & k1' & H1 &
          [(e & k2 & _ & Hrun)
          | (v2 & k2 & _ &
             [(e & k3 & _ & Hrun)
             | (v3 & k3 & _ &
                [(e & k4 & _ & Hrun) | (v4 & k4 & _ & Hrun)])])])];
    [congruence | | | |];
    assert (Hfd : fd' = fd) by congruence; subst fd';
    rewrite Hrun in *; cbn [fst snd w_trace w_sockfdp] in *;
    try (now elim Hfail).
  all: split; [lia |]; split; [reflexivity |];
    eexists; split; [reflexivity |];
    split; [reflexivity |]; split; [reflexivity | discriminate].
Qed.

End PacketSocketErrors.

(** An instance: socket() returns descriptor 3 and bind() fails with
    ENODEV. *)
Lemma socket_new_loses_descriptor_witness :
  fst (Net.n_dhcp4_network_client_packet_socket_new Sys.scripted
         Sys.scripted_sys Hdr.LittleEndian 2 0x12345678
         (Sys.mk_world
            [Sys.SysOk 3%N; Sys.SysOk 0%N; Sys.SysOk 0%N;
             Sys.SysErr 19%positive] 0 (-1) [])) = - 19 /\
  Sys.w_sockfdp
    (snd (Net.n_dhcp4_network_client_packet_socket_new Sys.scripted
            Sys.scripted_sys Hdr.LittleEndian 2 0x12345678
            (Sys.mk_world
               [Sys.SysOk 3%N; Sys.SysOk 0%N; Sys.SysOk 0%N;
                Sys.SysErr 19%positive] 0 (-1) []))) = -1 /\
  exists t,
    Sys.w_trace
      (snd (Net.n_dhcp4_network_client_packet_socket_new Sys.scripted
              Sys.scripted_sys Hdr.LittleEndian 2 0x12345678
              (Sys.mk_world
                 [Sys.SysOk 3%N; Sys.SysOk 0%N; Sys.SysOk 0%N;
                  Sys.SysErr 19%positive] 0 (-1) []))) =
    [] ++ Sys.EvCall (Sys.Socket Hdr.AF_PACKET Hdr.SOCK_DGRAM 0)
            (Sys.SysOk 3%N) :: t /\
    existsb (Sys.is_close (Z.of_N 3)) t = false /\
    existsb Sys.is_store t = false /\
    t <> [].
Proof.
  split; [vm_compute; reflexivity |].
  apply (socket_new_loses_descriptor Sys.scripted Sys.scripted_sys
           Hdr.LittleEndian 2 0x12345678
           (Sys.mk_world
              [Sys.SysOk 3%N; Sys.SysOk 0%N; Sys.SysOk 0%N;
               Sys.SysErr 19%positive] 0 (-1) [])
           3%N
           [Sys.SysOk 0%N; Sys.SysOk 0%N; Sys.SysErr 19%positive]).
  - reflexivity.
  - vm_compute. discriminate.
Defined.

(** ** More on [parse_hexstr] *)

Section ParseHexstrMore.
Import TestRunClient Hex.

Lemma parse_hexstr_returns (s : string) (junk : nat -> Z) :
  parse_hexstr (Some junk) s
  = Returned 0 (Some (decode_pairs (c_chars s),
                      List.length (decode_pairs (c_chars s)))).
Proof.
  unfold parse_hexstr, malloc, parse_hexstr_loop.
  rewrite strlen_c_chars, <- decode_pairs_length.
  pose proof (loop_from_even s (c_chars s) 0 []
                (map (fun i => junk i mod 256)
                   (seq 0 (List.length (decode_pairs (c_chars s))))) [])
    as Hloop.
  change (2 * 0)%nat with 0%nat in Hloop.
  cbn [app] in Hloop. rewrite !app_nil_r in Hloop.
  rewrite Hloop; [reflexivity | reflexivity | |].
  - now rewrite length_map, length_seq.
  - intros j c Hj. now apply in_at_c_chars.
Qed.

Lemma decode_pairs_range cs :
  Forall (fun b => 0 <= b < 256) (decode_pairs cs).
Proof.
  induction cs as [| a | a b l IH] using list_pair_ind;
    cbn [decode_pairs].
  - constructor.
  - constructor; [| constructor].
    pose proof (hex_digit_value_range a). lia.
  - constructor; [| exact IH].
    pose proof (hex_digit_value_range a).
    pose proof (hex_digit_value_range b). lia.
Qed.

(** X9: no string is rejected.  Once malloc() has succeeded the function
    returns 0 whatever the characters are, and stores a buffer of bytes,
    each from 0 to 255, with its length. *)
Theorem parse_hexstr_yields_bytes (s : string) (junk : nat -> Z) :
  exists out,
    parse_hexstr (Some junk) s = Returned 0 (Some (out, List.length out)) /\
    Forall (fun b => 0 <= b < 256) out.
Proof.
  exists (decode_pairs (c_chars s)).
  split; [apply parse_hexstr_returns | apply decode_pairs_range].
Qed.

Lemma hex_digit_not_nul upper n :
  0 <= n < 16 -> (N_of_ascii (hex_digit upper n) =? 0)%N = false.
Proof.
  intros Hn. assert (Hnat : (Z.to_nat n < 16)%nat) by lia.
  unfold hex_digit. revert Hnat. generalize (Z.to_nat n). intros k Hk.
  destruct upper; do 16 (destruct k as [| k]; [reflexivity |]); lia.
Qed.

Lemma hex_digit_value_of_digit upper n :
  0 <= n < 16 -> hex_digit_value (hex_digit upper n) = n.
Proof.
  intros Hn.
  rewrite <- (Z2Nat.id n) at 2 by lia.
  assert (Hnat : (Z.to_nat n < 16)%nat) by lia.
  unfold hex_digit. revert Hnat. generalize (Z.to_nat n). intros k Hk.
  destruct upper; do 16 (destruct k as [| k]; [reflexivity |]); lia.
Qed.

Lemma c_chars_to_hex upper bs :
  Forall (fun b => 0 <= b < 256) bs ->
  decode_pairs (c_chars (to_hex upper bs)) = bs.
Proof.
  induction 1 as [| b bs Hb _ IH]; [reflexivity |].
  assert (Hhi : 0 <= b / 16 < 16)
    by (split; [apply Z.div_pos | apply Z.div_lt_upper_bound]; lia).
  assert (Hlo : 0 <= b mod 16 < 16) by (apply Z.mod_pos_bound; lia).
  cbn [to_hex c_chars].
  rewrite !hex_digit_not_nul by assumption.
  cbn [decode_pairs]. rewrite IH, !hex_digit_value_of_digit by assumption.
  f_equal. pose proof (Z.div_mod b 16). lia.
Qed.

(** X10: the function inverts hexadecimal notation: reading the two-digit
    notation of a byte string, in lower or in upper case, gives back the
    bytes and their number. *)
Theorem parse_hexstr_of_to_hex
    (upper : bool) (bs : list Z) (junk : nat -> Z) :
  Forall (fun b => 0 <= b < 256) bs ->
  parse_hexstr (Some junk) (to_hex upper bs)
  = Returned 0 (Some (bs, List.length bs)).
Proof.
  intros Hbs. rewrite parse_hexstr_returns.
  now rewrite c_chars_to_hex.
Qed.

(** An instance: the hardware address 00:11:22:33:44:ff. *)
Lemma parse_hexstr_of_to_hex_witness :
  Forall (fun b => 0 <= b < 256) [0; 17; 34; 51; 68; 255] /\
  to_hex false [0; 17; 34; 51; 68; 255] = "0011223344ff"%string /\
  parse_hexstr (Some (fun _ => 0)) "0011223344ff"
  = Returned 0 (Some ([0; 17; 34; 51; 68; 255], 6%nat)).
Proof.
  assert (Hbs : Forall (fun b => 0 <= b < 256) [0; 17; 34; 51; 68; 255])
    by (repeat constructor; lia).
  split; [exact Hbs |]. split; [reflexivity |].
  exact (parse_hexstr_of_to_hex false [0; 17; 34; 51; 68; 255]
           (fun _ => 0) Hbs).
Defined.

Lemma c_chars_append s1 s2 :
  strlen s1 = String.length s1 ->
  c_chars (s1 ++ s2) = c_chars s1 ++ c_chars s2.
Proof.
  induction s1 as [| c s1 IH]; cbn [strlen String.length c_chars append];
    [reflexivity |].
  destruct (N_of_ascii c =? 0)%N; [discriminate |].
  intros [= H]. cbn [app]. now rewrite IH.
Qed.

Lemma decode_pairs_append cs1 cs2 :
  Nat.even (List.length cs1) = true ->
  decode_pairs (cs1 ++ cs2) = decode_pairs cs1 ++ decode_pairs cs2.
Proof.
  induction cs1 as [| a | a b l IH] using list_pair_ind;
    cbn [List.length Nat.even app decode_pairs];
    [reflexivity | discriminate |].
  intros H. now rewrite IH.
Qed.

(** X11: after a string of even length without NUL, the bytes of what
    follows are appended: reading [s1 ++ s2] gives the bytes of [s1]
    followed by the bytes of [s2]. *)
Theorem parse_hexstr_append (s1 s2 : string) (junk junk1 junk2 : nat -> Z) :
  strlen s1 = String.length s1 ->
  Nat.even (String.length s1) = true ->
  exists b1 b2,
    parse_hexstr (Some junk1) s1
      = Returned 0 (Some (b1, List.length b1)) /\
    parse_hexstr (Some junk2) s2
      = Returned 0 (Some (b2, List.length b2)) /\
    parse_hexstr (Some junk) (s1 ++ s2)
      = Returned 0 (Some (b1 ++ b2, (List.length b1 + List.length b2)%nat)).
Proof.
  intros Hnul Heven.
  exists (decode_pairs (c_chars s1)), (decode_pairs (c_chars s2)).
  rewrite !parse_hexstr_returns, c_chars_append by exact Hnul.
  rewrite decode_pairs_append, length_app;
    [repeat split |].
  now rewrite <- strlen_c_chars, Hnul.
Qed.

(** An instance: "0a1b" followed by "2c3". *)
Lemma parse_hexstr_append_witness :
  strlen "0a1b" = String.length "0a1b" /\
  Nat.even (String.length "0a1b") = true /\
  parse_hexstr (Some (fun _ => 7)) ("0a1b" ++ "2c3")
  = Returned 0 (Some ([10; 27] ++ [44; 3], (2 + 2)%nat)).
Proof.
  assert (Hnul : strlen "0a1b" = String.length "0a1b") by reflexivity.
  assert (Heven : Nat.even (String.length "0a1b") = true) by reflexivity.
  split; [exact Hnul |]. split; [exact Heven |].
  destruct (parse_hexstr_append "0a1b" "2c3" (fun _ => 7) (fun _ => 7)
              (fun _ => 7) Hnul Heven) as (b1 & b2 & H1 & H2 & H).
  vm_compute in H1. vm_compute in H2.
  injection H1 as <-. injection H2 as <-. exact H.
Defined.

End ParseHexstrMore.

(** ** The test client: heap and runs *)

Section RunnerBasics.
Import TestRunClient Runner.

Variable env : Type.
Variable env_step : env -> forall c : call, answer c * env.

Lemma fold_max_ge (l : list Z) q : In q l -> q <= fold_right Z.max 0 l.
Proof.
  induction l as [| x l IH]; cbn [In fold_right]; [contradiction |].
  intros [-> | H]; [lia |]. specialize (IH H). lia.
Qed.

Lemma heap_fresh_not_in (h : heap) : ~ In (heap_fresh h) (map fst h).
Proof.
  intros H. apply fold_max_ge in H. unfold heap_fresh in H. lia.
Qed.

Lemma heap_fresh_not_null (h : heap) : heap_fresh h <> NULL.
Proof.
  unfold heap_fresh, NULL.
  assert (0 <= fold_right Z.max 0 (map fst h))
    by (induction (map fst h); cbn [fold_right]; lia).
  lia.
Qed.

Lemma heap_find_in (h : heap) p b :
  heap_find h p = Some b -> In p (map fst h).
Proof.
  induction h as [| [q c] h IH]; cbn [heap_find map fst In]; [discriminate |].
  destruct (Z.eqb_spec q p) as [-> | _]; [now left | right; auto].
Qed.

Lemma heap_in_find (h : heap) p :
  In p (map fst h) -> exists b, heap_find h p = Some b.
Proof.
  induction h as [| [q c] h IH]; cbn [heap_find map fst In]; [contradiction |].
  destruct (Z.eqb_spec q p) as [-> | Hne]; [eauto |].
  intros [H | H]; [contradiction | auto].
Qed.

Lemma heap_find_none (h : heap) p :
  ~ In p (map fst h) -> heap_find h p = None.
Proof.
  intros H. destruct (heap_find h p) eqn:E; [| reflexivity].
  elim H. eapply heap_find_in; eauto.
Qed.

Lemma heap_fresh_not_found (h : heap) : heap_find h (heap_fresh h) = None.
Proof. apply heap_find_none, heap_fresh_not_in. Qed.

Lemma heap_remove_in (h : heap) p q :
  NoDup (map fst h) ->
  (In q (map fst (heap_remove h p)) <-> In q (map fst h) /\ q <> p).
Proof.
  induction h as [| [a c] h IH]; cbn [heap_remove map fst In];
    [tauto |].
  intros Hnd. inversion Hnd as [| ? ? Hnotin Hnd']; subst.
  destruct (Z.eqb_spec a p) as [-> | Hne].
  - split.
    + intros H. split; [now right |]. intros ->. contradiction.
    + intros [[H | H] Hq]; [congruence | exact H].
  - cbn [map fst In]. rewrite (IH Hnd'). split.
    + intros [<- | [H Hq]]; [split; [now left | exact Hne] | tauto].
    + intros [[<- | H] Hq]; [now left | tauto].
Qed.

Lemma heap_remove_nodup (h : heap) p :
  NoDup (map fst h) -> NoDup (map fst (heap_remove h p)).
Proof.
  induction h as [| [a c] h IH]; cbn [heap_remove map fst];
    [constructor |].
  intros Hnd. inversion Hnd as [| ? ? Hnotin Hnd']; subst.
  destruct (a =? p); [exact Hnd' |].
  cbn [map fst]. constructor; [| auto].
  intros H. apply heap_remove_in in H; tauto.
Qed.

Lemma heap_remove_find (h : heap) p q :
  q <> p -> heap_find (heap_remove h p) q = heap_find h q.
Proof.
  intros Hne. induction h as [| [a c] h IH]; cbn [heap_remove heap_find];
    [reflexivity |].
  destruct (Z.eqb_spec a p) as [-> | Hap].
  - destruct (Z.eqb_spec p q) as [-> | _]; [contradiction | reflexivity].
  - cbn [heap_find]. now rewrite IH.
Qed.

Lemma heap_update_find (h : heap) p b b' :
  heap_find h p = Some b -> heap_find (heap_update h p b') p = Some b'.
Proof.
  induction h as [| [q c] h IH]; cbn [heap_find heap_update];
    [discriminate |].
  destruct (Z.eqb_spec q p) as [-> | Hne]; cbn [heap_find].
  - now rewrite Z.eqb_refl.
  - rewrite (proj2 (Z.eqb_neq _ _) Hne). exact IH.
Qed.

Lemma heap_remove_absent (h : heap) p :
  ~ In p (map fst h) -> heap_remove h p = h.
Proof.
  induction h as [| [q c] h IH]; cbn [heap_remove map fst In];
    [reflexivity |].
  intros H. destruct (Z.eqb_spec q p) as [-> | _]; [tauto |].
  f_equal. apply IH. tauto.
Qed.

End RunnerBasics.

Section RunnerLogic.
Import TestRunClient Runner.

Variable env : Type.
Variable env_step : env -> forall c : call, answer c * env.
Variable E : failure env -> Prop.

Local Abbreviation wp := (wp env).

Lemma wp_ret {T} (v : T) (Q : T -> state env -> Prop) s :
  Q v s -> wp (ret env v) E Q s.
Proof. exact (fun H => H). Qed.

Lemma wp_bind {T U} (m : M env T) (f : T -> M env U) Q s :
  wp m E (fun v s1 => wp (f v) E Q s1) s -> wp (bind env m f) E Q s.
Proof. unfold Runner.wp, bind. destruct (m s); auto. Qed.

Lemma wp_mono {T} (m : M env T) (Q Q' : T -> state env -> Prop) s :
  wp m E Q s -> (forall v s', Q v s' -> Q' v s') -> wp m E Q' s.
Proof. unfold Runner.wp. destruct (m s); auto. Qed.

Lemma wp_ext c (Q : answer c -> state env -> Prop) s :
  (forall a e',
      env_step (st_env s) c = (a, e') ->
      Q a (mk_state e' (st_globals s) (st_heap s) (st_errno s)
             (st_trace s ++ [c]))) ->
  wp (ext env env_step c) E Q s.
Proof.
  intros H. unfold Runner.wp, ext.
  destruct (env_step (st_env s) c) as [a e'] eqn:Hstep. now apply H.
Qed.

Lemma wp_get_globals (Q : globals -> state env -> Prop) s :
  Q (st_globals s) s -> wp (get_globals env) E Q s.
Proof. exact (fun H => H). Qed.

Lemma wp_set_globals g (Q : unit -> state env -> Prop) s :
  Q tt (mk_state (st_env s) g (st_heap s) (st_errno s) (st_trace s)) ->
  wp (set_globals env g) E Q s.
Proof. exact (fun H => H). Qed.

Lemma wp_get_heap (Q : heap -> state env -> Prop) s :
  Q (st_heap s) s -> wp (get_heap env) E Q s.
Proof. exact (fun H => H). Qed.

Lemma wp_set_heap h (Q : unit -> state env -> Prop) s :
  Q tt (mk_state (st_env s) (st_globals s) h (st_errno s) (st_trace s)) ->
  wp (set_heap env h) E Q s.
Proof. exact (fun H => H). Qed.

Lemma wp_get_errno (Q : Z -> state env -> Prop) s :
  Q (st_errno s) s -> wp (get_errno env) E Q s.
Proof. exact (fun H => H). Qed.

Lemma wp_set_errno e (Q : unit -> state env -> Prop) s :
  Q tt (mk_state (st_env s) (st_globals s) (st_heap s) e (st_trace s)) ->
  wp (set_errno env e) E Q s.
Proof. exact (fun H => H). Qed.

Lemma wp_undefined {T} (Q : T -> state env -> Prop) s :
  E FUndefined -> wp (undefined env) E Q s.
Proof. exact (fun H => H). Qed.

Lemma wp_abort {T} (Q : T -> state env -> Prop) s :
  E (FAborted s) -> wp (abort env) E Q s.
Proof. exact (fun H => H). Qed.

Lemma wp_out_of_fuel {T} (Q : T -> state env -> Prop) s :
  E FOutOfFuel -> wp (out_of_fuel env) E Q s.
Proof. exact (fun H => H). Qed.

(** A block placed in the heap sits at a new address, not NULL. *)
Lemma wp_place b (Q : ptr -> state env -> Prop) s :
  (forall p,
      p <> NULL -> ~ In p (map fst (st_heap s)) ->
      Q p (mk_state (st_env s) (st_globals s) ((p, b) :: st_heap s)
             (st_errno s) (st_trace s))) ->
  wp (place env b) E Q s.
Proof.
  intros H. unfold place.
  apply wp_bind, wp_get_heap, wp_bind, wp_set_heap, wp_ret.
  apply H; [apply heap_fresh_not_null | apply heap_fresh_not_in].
Qed.

Lemma wp_c_malloc n (Q : ptr -> state env -> Prop) s :
  (forall e',
      Q NULL (mk_state e' (st_globals s) (st_heap s) (st_errno s)
                (st_trace s ++ [Malloc n]))) ->
  (forall e' p b,
      p <> NULL -> ~ In p (map fst (st_heap s)) -> List.length b = n ->
      Q p (mk_state e' (st_globals s) ((p, b) :: st_heap s) (st_errno s)
             (st_trace s ++ [Malloc n]))) ->
  wp (c_malloc env env_step n) E Q s.
Proof.
  intros Hnull Hblock. unfold c_malloc.
  apply wp_bind, wp_ext. intros [junk |] e' _.
  - apply wp_place. intros p Hp Hfresh. apply Hblock; auto.
    now rewrite length_map, length_seq.
  - apply wp_ret, Hnull.
Qed.

Lemma wp_c_free_null (Q : unit -> state env -> Prop) s :
  (forall e',
      Q tt (mk_state e' (st_globals s) (st_heap s) (st_errno s)
              (st_trace s ++ [Free NULL]))) ->
  wp (c_free env env_step NULL) E Q s.
Proof.
  intros H. unfold c_free. apply wp_bind, wp_ext. intros [] e' _.
  apply wp_ret, H.
Qed.

Lemma wp_c_free p b (Q : unit -> state env -> Prop) s :
  p <> NULL ->
  heap_find (st_heap s) p = Some b ->
  (forall e',
      Q tt (mk_state e' (st_globals s) (heap_remove (st_heap s) p)
              (st_errno s) (st_trace s ++ [Free p]))) ->
  wp (c_free env env_step p) E Q s.
Proof.
  intros Hp Hfind H. unfold c_free. apply wp_bind, wp_ext. intros [] e' _.
  apply Z.eqb_neq in Hp. rewrite Hp.
  apply wp_bind, wp_get_heap. cbn [st_heap]. rewrite Hfind.
  apply wp_set_heap, H.
Qed.

Lemma wp_load p i b v (Q : Z -> state env -> Prop) s :
  heap_find (st_heap s) p = Some b ->
  nth_error b i = Some v ->
  Q v s ->
  wp (load env p i) E Q s.
Proof.
  intros Hfind Hnth H. unfold load. apply wp_bind, wp_get_heap.
  rewrite Hfind, Hnth. now apply wp_ret.
Qed.

Lemma wp_store p i b b' v (Q : unit -> state env -> Prop) s :
  heap_find (st_heap s) p = Some b ->
  buf_write b i v = Some b' ->
  Q tt (mk_state (st_env s) (st_globals s) (heap_update (st_heap s) p b')
          (st_errno s) (st_trace s)) ->
  wp (store env p i v) E Q s.
Proof.
  intros Hfind Hwrite H. unfold store. apply wp_bind, wp_get_heap.
  rewrite Hfind, Hwrite. now apply wp_set_heap.
Qed.

(** [manager_free] of NULL does nothing. *)
Lemma wp_manager_freep_null (Q : unit -> state env -> Prop) s :
  Q tt s -> wp (manager_freep env env_step NULL) E Q s.
Proof. exact (fun H => H). Qed.

(** [manager_free] of a manager releases the probe, the client and the
    block, in this order. *)
Lemma wp_manager_freep manager client probe (Q : unit -> state env -> Prop)
    h s :
  manager <> NULL ->
  st_heap s = (manager, [client; probe]) :: h ->
  (forall e',
      Q tt (mk_state e' (st_globals s) h (st_errno s)
              (st_trace s ++ [ProbeFree probe; ClientUnref client;
                              Free manager]))) ->
  wp (manager_freep env env_step manager) E Q s.
Proof.
  intros Hp Hheap H. unfold manager_freep, manager_free.
  rewrite (proj2 (Z.eqb_neq _ _) Hp).
  assert (Hfind : heap_find (st_heap s) manager = Some [client; probe])
    by (rewrite Hheap; cbn [heap_find]; now rewrite Z.eqb_refl).
  apply wp_bind, wp_bind.
  eapply wp_load; [exact Hfind | reflexivity |].
  apply wp_bind, wp_ext. intros [] e1 _.
  apply wp_bind. eapply wp_load; [exact Hfind | reflexivity |].
  apply wp_bind, wp_ext. intros [] e2 _.
  apply wp_bind. eapply wp_c_free; [exact Hp | exact Hfind |].
  intros e3. apply wp_ret, wp_ret. cbn [st_globals st_heap st_errno st_trace].
  rewrite Hheap. cbn [heap_remove]. rewrite Z.eqb_refl.
  rewrite <- !app_assoc. apply H.
Qed.

End RunnerLogic.

(** ** [manager_new], [manager_run], [run] *)

Section ManagerFacts.
Import TestRunClient Runner.

Variable env : Type.
Variable env_step : env -> forall c : call, answer c * env.

Local Abbreviation wp := (wp env).

Local Ltac heap_norm :=
  repeat (progress (cbn [st_env st_globals st_heap st_errno st_trace
                           heap_find heap_update heap_remove];
                    rewrite ?Z.eqb_refl)).

Lemma wp_total {T} (m : M env T) (Q : T -> state env -> Prop) s :
  wp m (fun _ => False) Q s -> exists v s', m s = Done v s' /\ Q v s'.
Proof. unfold Runner.wp. destruct (m s); [eauto | | |]; contradiction. Qed.

Lemma wp_partial {T} (m : M env T) (Q : T -> state env -> Prop) s v s' :
  wp m (fun _ => True) Q s -> m s = Done v s' -> Q v s'.
Proof. unfold Runner.wp. intros H Hm. now rewrite Hm in H. Qed.

(** The ways [manager_new] runs: the value returned, what is stored
    through [managerp], the heap left and the calls made. *)
Lemma wp_manager_new (E : failure env -> Prop) s :
  wp (manager_new env env_step) E
    (fun res s' =>
       let g := st_globals s in
       st_globals s' = g /\ st_errno s' = st_errno s /\
       ((fst res = - ENOMEM /\ snd res = None /\ st_heap s' = st_heap s /\
         st_trace s' =
         st_trace s ++ [Malloc sizeof_Manager; ConfigFreep NULL]) \/
        (exists manager config,
            fst res <> 0 /\ snd res = None /\ st_heap s' = st_heap s /\
            manager <> NULL /\
            st_trace s' =
            st_trace s ++
            [Malloc sizeof_Manager; ConfigNew;
             ProbeFree NULL; ClientUnref NULL; Free manager;
             ConfigFreep config]) \/
        (exists manager config client,
            fst res <> 0 /\ snd res = None /\ st_heap s' = st_heap s /\
            manager <> NULL /\
            st_trace s' =
            st_trace s ++
            [Malloc sizeof_Manager; ConfigNew;
             ConfigSetBroadcastMac config (main_arg_broadcast_mac g)
               (main_arg_n_broadcast_mac g);
             ConfigSetIfindex config (main_arg_ifindex g);
             ConfigSetMac config (main_arg_mac g) (main_arg_n_mac g);
             ClientNew config;
             ProbeFree NULL; ClientUnref client; Free manager;
             ConfigFreep config]) \/
        (exists manager config client,
            fst res = 0 /\ snd res = Some manager /\
            manager <> NULL /\ ~ In manager (map fst (st_heap s)) /\
            st_heap s' = (manager, [client; NULL]) :: st_heap s /\
            st_trace s' =
            st_trace s ++
            [Malloc sizeof_Manager; ConfigNew;
             ConfigSetBroadcastMac config (main_arg_broadcast_mac g)
               (main_arg_n_broadcast_mac g);
             ConfigSetIfindex config (main_arg_ifindex g);
             ConfigSetMac config (main_arg_mac g) (main_arg_n_mac g);
             ClientNew config;
             ConfigFreep config]))) s.
Proof.
  unfold manager_new.
  apply wp_bind, wp_c_malloc.
  { (* malloc fails *)
    intros e1. rewrite Z.eqb_refl.
    apply wp_bind, wp_manager_freep_null, wp_bind, wp_ext.
    intros [] e2 _. apply wp_ret.
    cbn [st_globals st_heap st_errno st_trace fst snd].
    rewrite <- app_assoc. auto 10. }
  intros e1 manager b Hp Hfresh Hlen.
  destruct b as [| c0 [| c1 [| ? ?]]]; try discriminate.
  rewrite (proj2 (Z.eqb_neq _ _) Hp).
  apply wp_bind.
  eapply wp_store; [heap_norm; reflexivity | reflexivity |]. heap_norm.
  apply wp_bind.
  eapply wp_store; [heap_norm; reflexivity | reflexivity |]. heap_norm.
  apply wp_bind, wp_ext. intros [r config] e2 _.
  destruct (Z.eqb_spec r 0) as [-> | Hr]; cbn [negb].
  2: { (* config_new fails *)
    apply wp_bind.
    eapply wp_manager_freep; [exact Hp | reflexivity |].
    intros e3. apply wp_bind, wp_ext. intros [] e4 _. apply wp_ret.
    cbn [st_globals st_heap st_errno st_trace fst snd].
    rewrite <- !app_assoc. cbn [app].
    repeat split. right. left. exists manager, config. auto 10. }
  apply wp_bind, wp_get_globals. cbn [st_globals].
  apply wp_bind, wp_ext. intros [] e3 _.
  apply wp_bind, wp_ext. intros [] e4 _.
  apply wp_bind, wp_ext. intros [] e5 _.
  apply wp_bind, wp_ext. intros [r client] e6 _.
  apply wp_bind.
  eapply wp_store; [heap_norm; reflexivity | reflexivity |]. heap_norm.
  destruct (Z.eqb_spec r 0) as [-> | Hr]; cbn [negb].
  2: { (* client_new fails *)
    apply wp_bind.
    eapply wp_manager_freep; [exact Hp | reflexivity |].
    intros e7. apply wp_bind, wp_ext. intros [] e8 _. apply wp_ret.
    cbn [st_globals st_heap st_errno st_trace fst snd].
    rewrite <- !app_assoc. cbn [app].
    repeat split. right. right. left. exists manager, config, client.
    auto 10. }
  apply wp_bind, wp_manager_freep_null, wp_bind, wp_ext.
  intros [] e7 _. apply wp_ret.
  cbn [st_globals st_heap st_errno st_trace fst snd].
  rewrite <- !app_assoc. cbn [app].
  repeat split. right. right. right. exists manager, config, client.
  auto 10.
Qed.


(** X12: [manager_new] always returns.  When it returns an error nothing
    is stored through [managerp] and the heap is as it was found: the
    [Manager] block, if it was allocated, is freed again.  When it returns
    0 it stores a new [Manager], not NULL, in a block that was not in use,
    holding the client and no probe.  The static variables are not
    written. *)
Theorem manager_new_tears_down (s : state env) :
  exists r stored s',
    manager_new env env_step s = Done (r, stored) s' /\
    st_globals s' = st_globals s /\
    (r <> 0 -> stored = None /\ st_heap s' = st_heap s) /\
    (r = 0 ->
     exists manager client,
       stored = Some manager /\ manager <> NULL /\
       ~ In manager (map fst (st_heap s)) /\
       st_heap s' = (manager, [client; NULL]) :: st_heap s).
Proof.
  destruct (wp_total _ _ _ (wp_manager_new (fun _ => False) s))
    as ([r stored] & s' & Hrun & Hg & _ & Hcases).
  exists r, stored, s'. cbn [fst snd] in Hcases.
  split; [exact Hrun |]. split; [exact Hg |].
  destruct Hcases
    as [(Hr & Hs & Hh & _)
       | [(m & c & Hr & Hs & Hh & _)
         | [(m & c & cl & Hr & Hs & Hh & _)
           | (m & c & cl & Hr & Hs & Hm & Hfresh & Hh & _)]]].
  - split; [auto |]. unfold ENOMEM in Hr. lia.
  - split; [auto | contradiction].
  - split; [auto | contradiction].
  - split; [contradiction |]. intros _. exists m, cl. auto.
Qed.


End ManagerFacts.

(** ** [manager_dispatch], [manager_run], [run] *)

Section RunFacts.
Import TestRunClient Runner.

Variable env : Type.
Variable env_step : env -> forall c : call, answer c * env.

Local Abbreviation wp := (wp env).
Local Abbreviation any := (fun _ : failure env => True).

Local Ltac heap_norm :=
  repeat (progress (cbn [st_env st_globals st_heap st_errno st_trace
                           heap_find heap_update heap_remove];
                    rewrite ?Z.eqb_refl)).

(** A load, when undefined behaviour is admitted. *)
Lemma wp_load_any p i (Q : Z -> state env -> Prop) s :
  (forall v, Q v s) -> wp (load env p i) any Q s.
Proof.
  intros H. unfold load. apply wp_bind, wp_get_heap.
  destruct (heap_find (st_heap s) p) as [b |]; [| exact I].
  destruct (nth_error b i); [apply wp_ret, H | exact I].
Qed.

(** What the event loop leaves alone: the static variables and the
    heap. *)
Local Abbreviation kept s :=
  (fun (_ : Z) (s' : state env) =>
     st_heap s' = st_heap s /\ st_globals s' = st_globals s).

Lemma wp_manager_dispatch_loop fuel manager s :
  wp (manager_dispatch_loop env env_step fuel manager) any (kept s) s.
Proof.
  assert (Hgen : forall s0,
             st_heap s0 = st_heap s /\ st_globals s0 = st_globals s ->
             wp (manager_dispatch_loop env env_step fuel manager) any
               (kept s) s0); [| now apply Hgen].
  induction fuel as [| fuel IH]; intros s0 Hs0; [exact I |].
  cbn [manager_dispatch_loop].
  apply wp_bind, wp_load_any. intros client.
  apply wp_bind, wp_ext. intros [r event] e1 _.
  destruct (r =? 0); cbn [negb]; [| now apply wp_ret].
  destruct event as [ev |]; [| now apply wp_ret].
  apply wp_bind, wp_ext. intros [] e2 _. now apply IH.
Qed.

Lemma wp_manager_dispatch fuel manager s :
  wp (manager_dispatch env env_step fuel manager) any (kept s) s.
Proof.
  unfold manager_dispatch.
  apply wp_bind, wp_load_any. intros client.
  apply wp_bind, wp_ext. intros r e1 _.
  destruct (r =? 0); cbn [negb]; [| now apply wp_ret].
  eapply wp_mono; [apply wp_manager_dispatch_loop |].
  cbn [st_heap st_globals]. auto.
Qed.

Lemma wp_manager_run_loop fuel manager s :
  wp (manager_run_loop env env_step fuel manager) any (kept s) s.
Proof.
  assert (Hgen : forall s0,
             st_heap s0 = st_heap s /\ st_globals s0 = st_globals s ->
             wp (manager_run_loop env env_step fuel manager) any
               (kept s) s0); [| now apply Hgen].
  induction fuel as [| fuel IH]; intros s0 [Hh Hg]; [exact I |].
  cbn [manager_run_loop]. unfold manager_run_round.
  apply wp_bind, wp_bind, wp_load_any. intros client.
  apply wp_bind, wp_ext. intros fd e1 _.
  apply wp_bind, wp_ext. intros [n revents | e] e2 _.
  - destruct (n =? 0)%N; [apply wp_ret; now apply IH |].
    destruct (Z.land revents (Z.lnot POLLIN) =? 0); cbn [negb];
      [| apply wp_ret, wp_ret; auto].
    apply wp_bind.
    destruct (Z.land revents POLLIN =? 0).
    + apply wp_ret. cbn [negb Z.eqb].
      destruct (n =? 1)%N; [apply wp_ret; now apply IH | exact I].
    + eapply wp_mono; [apply wp_manager_dispatch |].
      cbn [st_heap st_globals]. intros r s1 [Hh1 Hg1].
      destruct (r =? 0); cbn [negb];
        [| apply wp_ret, wp_ret; split; congruence].
      destruct (n =? 1)%N; [| exact I].
      apply wp_ret, IH. split; congruence.
  - apply wp_bind, wp_set_errno, wp_bind, wp_get_errno, wp_ret, wp_ret.
    auto.
Qed.

(** [manager_run] on a manager at the head of the heap: the block stays,
    with the client it had; the rest of the heap and the static variables
    are as found. *)
Lemma wp_manager_run fuel manager client probe h s :
  st_heap s = (manager, [client; probe]) :: h ->
  wp (manager_run env env_step fuel manager) any
    (fun _ s' =>
       (exists probe', st_heap s' = (manager, [client; probe']) :: h) /\
       st_globals s' = st_globals s) s.
Proof.
  intros Hheap. unfold manager_run.
  apply wp_bind, wp_ext. intros [r config] e1 _.
  destruct (r =? 0); cbn [negb].
  2: { apply wp_bind, wp_ext. intros [] e2 _. apply wp_ret. eauto. }
  apply wp_bind.
  eapply wp_load;
    [cbn [st_heap]; rewrite Hheap; heap_norm; reflexivity | reflexivity |].
  apply wp_bind, wp_ext. intros [r' probe'] e2 _.
  apply wp_bind.
  eapply wp_store;
    [cbn [st_heap]; rewrite Hheap; heap_norm; reflexivity | reflexivity |].
  cbn [st_env st_globals st_heap st_errno st_trace].
  rewrite Hheap. heap_norm.
  destruct (r' =? 0); cbn [negb].
  2: { apply wp_bind, wp_ext. intros [] e3 _. apply wp_ret.
       cbn [st_heap st_globals]. split; [eexists |]; reflexivity. }
  apply wp_bind, wp_get_globals. cbn [st_globals].
  destruct (main_arg_test (st_globals s)).
  { apply wp_bind, wp_ext. intros [] e3 _. apply wp_ret.
    cbn [st_heap st_globals]. split; [eexists |]; reflexivity. }
  apply wp_bind.
  eapply wp_mono; [apply wp_manager_run_loop |].
  cbn [st_heap st_globals]. intros r2 s2 [Hh2 Hg2].
  apply wp_bind, wp_ext. intros [] e3 _. apply wp_ret.
  cbn [st_heap st_globals]. rewrite Hh2, Hg2. eauto.
Qed.

Lemma wp_run fuel s :
  wp (run env env_step fuel) any (kept s) s.
Proof.
  unfold run. apply wp_bind.
  eapply wp_mono; [apply wp_manager_new |].
  intros [r stored] s1 (Hg & _ & Hcases). cbn [fst snd] in Hcases.
  destruct Hcases
    as [(Hr & Hs & Hh & _)
       | [(m & c & Hr & Hs & Hh & _)
         | [(m & c & cl & Hr & Hs & Hh & _)
           | (m & c & cl & Hr & Hs & Hm & Hfresh & Hh & _)]]];
    subst stored.
  1-3: assert (Hnz : negb (r =? 0) = true)
         by (apply negb_true_iff, Z.eqb_neq; unfold ENOMEM in *; lia);
       rewrite Hnz; apply wp_bind, wp_manager_freep_null, wp_ret; auto.
  subst r. cbn [Z.eqb negb].
  apply wp_bind.
  eapply wp_mono; [eapply wp_manager_run; exact Hh |].
  intros r2 s2 [[probe' Hh2] Hg2].
  apply wp_bind.
  eapply wp_manager_freep; [exact Hm | exact Hh2 |].
  intros e'. apply wp_ret. cbn [st_heap st_globals]. split; congruence.
Qed.


(** X14: whenever [run] returns, the heap and the static variables are as
    it found them: the manager it created is released on every path, after
    the probe and the client it holds. *)
Theorem run_releases_manager (fuel : nat) (s s' : state env) (r : Z) :
  run env env_step fuel s = Done r s' ->
  st_heap s' = st_heap s /\ st_globals s' = st_globals s.
Proof. intros Hrun. exact (wp_partial _ _ _ _ _ _ (wp_run fuel s) Hrun). Qed.

Lemma wp_manager_run_test fuel manager client probe h s :
  st_heap s = (manager, [client; probe]) :: h ->
  main_arg_test (st_globals s) = true ->
  wp (manager_run env env_step fuel manager) (fun _ => False)
    (fun _ s' =>
       (exists probe', st_heap s' = (manager, [client; probe']) :: h) /\
       exists t,
         st_trace s' = st_trace s ++ t /\
         forallb (fun c => negb (is_loop_call c)) t = true) s.
Proof.
  intros Hheap Htest. unfold manager_run.
  apply wp_bind, wp_ext. intros [r config] e1 _.
  destruct (r =? 0); cbn [negb].
  2: { apply wp_bind, wp_ext. intros [] e2 _. apply wp_ret.
       cbn [st_heap st_trace]. rewrite <- app_assoc.
       split; [eexists; exact Hheap |]. eexists. split; reflexivity. }
  apply wp_bind.
  eapply wp_load;
    [cbn [st_heap]; rewrite Hheap; heap_norm; reflexivity | reflexivity |].
  apply wp_bind, wp_ext. intros [r' probe'] e2 _.
  apply wp_bind.
  eapply wp_store;
    [cbn [st_heap]; rewrite Hheap; heap_norm; reflexivity | reflexivity |].
  cbn [st_env st_globals st_heap st_errno st_trace].
  rewrite Hheap. heap_norm.
  destruct (r' =? 0); cbn [negb].
  2: { apply wp_bind, wp_ext. intros [] e3 _. apply wp_ret.
       cbn [st_heap st_trace]. rewrite <- !app_assoc.
       split; [eexists; reflexivity |]. eexists. split; reflexivity. }
  apply wp_bind, wp_get_globals. cbn [st_globals]. rewrite Htest.
  apply wp_bind, wp_ext. intros [] e3 _. apply wp_ret.
  cbn [st_heap st_trace]. rewrite <- !app_assoc.
  split; [eexists; reflexivity |]. eexists. split; reflexivity.
Qed.

(** X15: with [main_arg_test] set, [run] returns whatever the fuel, even
    none: it creates the manager, starts the probe and comes back without
    entering the event loop: no descriptor is asked for, nothing is polled
    or dispatched, no event popped; and the heap is as it was found. *)
Theorem run_in_test_mode (fuel : nat) (s : state env) :
  main_arg_test (st_globals s) = true ->
  exists r s' t,
    run env env_step fuel s = Done r s' /\
    st_heap s' = st_heap s /\
    st_trace s' = st_trace s ++ t /\
    forallb (fun c => negb (is_loop_call c)) t = true.
Proof.
  intros Htest.
  assert (Hwp : wp (run env env_step fuel) (fun _ => False)
                  (fun _ s' =>
                     st_heap s' = st_heap s /\
                     exists t,
                       st_trace s' = st_trace s ++ t /\
                       forallb (fun c => negb (is_loop_call c)) t = true)
                  s).
  { unfold run. apply wp_bind.
    eapply wp_mono; [apply wp_manager_new |].
    intros [r stored] s1 (Hg & _ & Hcases). cbn [fst snd] in Hcases.
    destruct Hcases
      as [(Hr & Hs & Hh & Ht)
         | [(m & c & Hr & Hs & Hh & _ & Ht)
           | [(m & c & cl & Hr & Hs & Hh & _ & Ht)
             | (m & c & cl & Hr & Hs & Hm & Hfresh & Hh & Ht)]]];
      subst stored.
    1-3: assert (Hnz : negb (r =? 0) = true)
           by (apply negb_true_iff, Z.eqb_neq; unfold ENOMEM in *; lia);
         rewrite Hnz; apply wp_bind, wp_manager_freep_null, wp_ret;
         (split; [exact Hh |]); eexists; (split; [exact Ht |]);
         reflexivity.
    subst r. cbn [Z.eqb negb].
    apply wp_bind.
    eapply wp_mono;
      [eapply wp_manager_run_test; [exact Hh | congruence] |].
    intros r2 s2 [[probe' Hh2] (t2 & Ht2 & Hno2)].
    apply wp_bind.
    eapply wp_manager_freep; [exact Hm | exact Hh2 |].
    intros e'. apply wp_ret. cbn [st_heap st_trace].
    split; [reflexivity |].
    rewrite Ht2, Ht, <- !app_assoc. eexists. split; [reflexivity |].
    rewrite !forallb_app, Hno2. reflexivity. }
  destruct (wp_total _ _ _ _ Hwp) as (r & s' & Hrun & Hh & t & Ht & Hno).
  exists r, s', t. auto.
Qed.

Lemma bind_eq {T U} (m : M env T) (f : T -> M env U) s v s1 :
  m s = Done v s1 -> bind env m f s = f v s1.
Proof. intros H. unfold bind. now rewrite H. Qed.

Lemma ext_eq c s a e' :
  env_step (st_env s) c = (a, e') ->
  ext env env_step c s =
  Done a (mk_state e' (st_globals s) (st_heap s) (st_errno s)
            (st_trace s ++ [c])).
Proof. intros H. unfold ext. now rewrite H. Qed.

Lemma load_eq p i b v s :
  heap_find (st_heap s) p = Some b ->
  nth_error b i = Some v ->
  load env p i s = Done v s.
Proof.
  intros Hfind Hnth. unfold load, bind, get_heap, ret.
  now rewrite Hfind, Hnth.
Qed.

Lemma manager_dispatch_loop_pops manager client b evs :
  forall fuel e e' g h errno t,
    heap_find h manager = Some b ->
    nth_error b Manager_client = Some client ->
    pops env env_step client e evs e' ->
    (List.length evs < fuel)%nat ->
    manager_dispatch_loop env env_step fuel manager
      (mk_state e g h errno t) =
    Done 0
      (mk_state e' g h errno
         (t ++ flat_map
                 (fun ev => [ClientPopEvent client; Print (MsgEvent ev)])
                 evs
            ++ [ClientPopEvent client])).
Proof.
  intros fuel e e' g h errno t Hfind Hnth Hpops. revert fuel t.
  induction Hpops as [e e' Hpop | e e1 e2 e3 ev evs Hpop Hprint _ IH];
    intros fuel t Hfuel;
    (destruct fuel as [| fuel]; [cbn [List.length] in Hfuel; lia |]);
    cbn [manager_dispatch_loop].
  - erewrite bind_eq by (eapply load_eq; eauto).
    erewrite bind_eq by (apply ext_eq; exact Hpop).
    reflexivity.
  - erewrite bind_eq by (eapply load_eq; eauto).
    erewrite bind_eq by (apply ext_eq; exact Hpop).
    cbn [Z.eqb negb].
    erewrite bind_eq by (apply ext_eq; exact Hprint).
    cbn [st_globals st_heap st_errno st_trace].
    rewrite IH by (cbn [List.length] in Hfuel; lia).
    cbn [flat_map app]. rewrite <- !app_assoc. reflexivity.
Qed.

(** X16: [manager_dispatch] drains the queue.  When the dispatch succeeds
    and the client then holds the events [evs], fuel for one more round
    than there are events is enough: the function returns 0 having popped
    and printed each event in turn and popped once more, and has touched
    neither the heap nor the static variables. *)
Theorem manager_dispatch_drains
    (fuel : nat) (manager client : ptr) (b : list Z) (evs : list Z)
    (s : state env) (e1 e2 : env) :
  heap_find (st_heap s) manager = Some b ->
  nth_error b Manager_client = Some client ->
  env_step (st_env s) (ClientDispatch client) = (0, e1) ->
  pops env env_step client e1 evs e2 ->
  (List.length evs < fuel)%nat ->
  manager_dispatch env env_step fuel manager s =
  Done 0
    (mk_state e2 (st_globals s) (st_heap s) (st_errno s)
       (st_trace s ++ ClientDispatch client
          :: flat_map
               (fun ev => [ClientPopEvent client; Print (MsgEvent ev)]) evs
          ++ [ClientPopEvent client])).
Proof.
  intros Hfind Hnth Hdisp Hpops Hfuel. unfold manager_dispatch.
  erewrite bind_eq by (eapply load_eq; eauto).
  erewrite bind_eq by (apply ext_eq; exact Hdisp).
  cbn [Z.eqb negb].
  erewrite manager_dispatch_loop_pops by eauto.
  rewrite <- app_assoc. reflexivity.
Qed.


Lemma store_eq p i b b' v s :
  heap_find (st_heap s) p = Some b ->
  buf_write b i v = Some b' ->
  store env p i v s =
  Done tt (mk_state (st_env s) (st_globals s)
             (heap_update (st_heap s) p b') (st_errno s) (st_trace s)).
Proof.
  intros Hfind Hwrite. unfold store, bind, get_heap, set_heap.
  now rewrite Hfind, Hwrite.
Qed.

(** X17: when poll() fails, [manager_run] returns minus the errno it set,
    after the cleanup of the probe configuration and without a dispatch.
    The probe started stays in the manager. *)
Theorem manager_run_poll_fails
    (fuel : nat) (manager client probe config probe' fd : Z) (e : positive)
    (s : state env) (e1 e2 e3 e4 e5 : env) :
  heap_find (st_heap s) manager = Some [client; probe] ->
  main_arg_test (st_globals s) = false ->
  env_step (st_env s) ProbeConfigNew = ((0, config), e1) ->
  env_step e1 (ClientProbe client config) = ((0, probe'), e2) ->
  env_step e2 (ClientGetFd client) = (fd, e3) ->
  env_step e3 (Poll fd) = (PollFailed e, e4) ->
  env_step e4 (ProbeConfigFreep config) = (tt, e5) ->
  manager_run env env_step (S fuel) manager s =
  Done (- Z.pos e)
    (mk_state e5 (st_globals s)
       (heap_update (st_heap s) manager [client; probe']) (Z.pos e)
       (st_trace s ++
        [ProbeConfigNew; ClientProbe client config; ClientGetFd client;
         Poll fd; ProbeConfigFreep config])).
Proof.
  intros Hfind Htest H1 H2 H3 H4 H5. unfold manager_run.
  erewrite bind_eq by (apply ext_eq; exact H1). cbn [Z.eqb negb].
  erewrite bind_eq by (eapply load_eq; [exact Hfind | reflexivity]).
  erewrite bind_eq by (apply ext_eq; exact H2). cbn beta iota.
  erewrite bind_eq by (eapply store_eq; [exact Hfind | reflexivity]).
  cbn [Z.eqb negb]. unfold get_globals at 1.
  cbn [bind st_globals]. rewrite Htest.
  cbn [manager_run_loop]. unfold manager_run_round.
  erewrite bind_eq.
  2: { erewrite bind_eq.
       2: { erewrite bind_eq
              by (eapply load_eq;
                  [apply heap_update_find with (b := [client; probe]);
                   exact Hfind | reflexivity]).
            erewrite bind_eq by (apply ext_eq; exact H3).
            erewrite bind_eq by (apply ext_eq; exact H4).
            reflexivity. }
       reflexivity. }
  erewrite bind_eq by (apply ext_eq; exact H5).
  cbn [ret st_env st_globals st_heap st_errno st_trace].
  rewrite <- !app_assoc. reflexivity.
Qed.

(** X18: when poll() reports on the descriptor anything besides POLLIN
    (an error, a hang-up), [manager_run] returns -ENOTRECOVERABLE after the
    cleanup of the probe configuration, without a dispatch. *)
Theorem manager_run_poll_hangup
    (fuel : nat) (manager client probe config probe' fd revents : Z) (n : N)
    (s : state env) (e1 e2 e3 e4 e5 : env) :
  heap_find (st_heap s) manager = Some [client; probe] ->
  main_arg_test (st_globals s) = false ->
  env_step (st_env s) ProbeConfigNew = ((0, config), e1) ->
  env_step e1 (ClientProbe client config) = ((0, probe'), e2) ->
  env_step e2 (ClientGetFd client) = (fd, e3) ->
  env_step e3 (Poll fd) = (PollReady n revents, e4) ->
  n <> 0%N ->
  Z.land revents (Z.lnot POLLIN) <> 0 ->
  env_step e4 (ProbeConfigFreep config) = (tt, e5) ->
  manager_run env env_step (S fuel) manager s =
  Done (- ENOTRECOVERABLE)
    (mk_state e5 (st_globals s)
       (heap_update (st_heap s) manager [client; probe']) (st_errno s)
       (st_trace s ++
        [ProbeConfigNew; ClientProbe client config; ClientGetFd client;
         Poll fd; ProbeConfigFreep config])).
Proof.
  intros Hfind Htest H1 H2 H3 H4 Hn Hrev H5. unfold manager_run.
  erewrite bind_eq by (apply ext_eq; exact H1). cbn [Z.eqb negb].
  erewrite bind_eq by (eapply load_eq; [exact Hfind | reflexivity]).
  erewrite bind_eq by (apply ext_eq; exact H2). cbn beta iota.
  erewrite bind_eq by (eapply store_eq; [exact Hfind | reflexivity]).
  cbn [Z.eqb negb]. unfold get_globals at 1.
  cbn [bind st_globals]. rewrite Htest.
  cbn [manager_run_loop]. unfold manager_run_round.
  erewrite bind_eq.
  2: { erewrite bind_eq.
       2: { erewrite bind_eq
              by (eapply load_eq;
                  [apply heap_update_find with (b := [client; probe]);
                   exact Hfind | reflexivity]).
            erewrite bind_eq by (apply ext_eq; exact H3).
            erewrite bind_eq by (apply ext_eq; exact H4).
            cbn beta iota.
            rewrite (proj2 (N.eqb_neq _ _) Hn).
            rewrite (proj2 (Z.eqb_neq _ _) Hrev). cbn [negb].
            reflexivity. }
       reflexivity. }
  erewrite bind_eq by (apply ext_eq; exact H5).
  cbn [ret st_env st_globals st_heap st_errno st_trace].
  rewrite <- !app_assoc. reflexivity.
Qed.

End RunFacts.

(** ** [setup_test], [parse_argv], [main] *)

Section ArgsFacts.
Import TestRunClient Runner.

Variable env : Type.
Variable env_step : env -> forall c : call, answer c * env.
Variable atoi : string -> Z.

Local Abbreviation wp := (wp env).
Local Abbreviation any := (fun _ : failure env => True).

(** Runs that may end in abort(), not in undefined behaviour. *)
Local Abbreviation may_abort :=
  (fun f : failure env =>
     match f with FAborted _ => True | _ => False end).

Local Abbreviation owned s := (args_owned (st_globals s) (st_heap s)).

(** The calls from [s] to [s'] stay clear of the library. *)
Local Abbreviation quiet s s' :=
  (exists t, st_trace s' = st_trace s ++ t /\
             forallb (fun c => negb (is_client_call c)) t = true).

Local Ltac heap_norm :=
  repeat (progress (cbn [st_env st_globals st_heap st_errno st_trace
                           heap_find heap_update heap_remove];
                    rewrite ?Z.eqb_refl)).

Lemma quiet_refl (s : state env) : quiet s s.
Proof. exists []. now rewrite app_nil_r. Qed.

Lemma quiet_snoc (s s1 s' : state env) c :
  quiet s s1 ->
  st_trace s' = st_trace s1 ++ [c] ->
  is_client_call c = false ->
  quiet s s'.
Proof.
  intros (t & Ht & Hq) Hs' Hc. exists (t ++ [c]).
  rewrite Hs', Ht, <- app_assoc. split; [reflexivity |].
  rewrite forallb_app, Hq. cbn [forallb]. now rewrite Hc.
Qed.

Lemma quiet_same (s s1 s' : state env) :
  quiet s s1 -> st_trace s' = st_trace s1 -> quiet s s'.
Proof. intros (t & Ht & Hq) Hs'. exists t. now rewrite Hs'. Qed.

Lemma quiet_trans (s s1 s' : state env) :
  quiet s s1 -> quiet s1 s' -> quiet s s'.
Proof.
  intros (t & Ht & Hq) (t' & Ht' & Hq'). exists (t ++ t').
  rewrite Ht', Ht, <- app_assoc. split; [reflexivity |].
  now rewrite forallb_app, Hq, Hq'.
Qed.

Lemma wp_weaken {T} (m : M env T) (E E' : failure env -> Prop) Q s :
  (forall f, E f -> E' f) -> wp m E Q s -> wp m E' Q s.
Proof. unfold Runner.wp. intros H. destruct (m s); auto. Qed.

Lemma wp_bind_any {T U} (m : M env T) (f : T -> M env U) Q s :
  (forall v s1, wp (f v) any Q s1) -> wp (bind env m f) any Q s.
Proof.
  intros H. unfold Runner.wp, bind. destruct (m s); auto.
  apply H.
Qed.

(** free() of NULL or of a block in use. *)
Lemma wp_c_free_ok (E : failure env -> Prop) p
    (Q : unit -> state env -> Prop) s :
  ~ In NULL (map fst (st_heap s)) ->
  p = NULL \/ In p (map fst (st_heap s)) ->
  (forall e',
      Q tt (mk_state e' (st_globals s) (heap_remove (st_heap s) p)
              (st_errno s) (st_trace s ++ [Free p]))) ->
  wp (c_free env env_step p) E Q s.
Proof.
  intros Hnull Hp H.
  destruct (Z.eq_dec p NULL) as [-> | Hne].
  - apply wp_c_free_null. intros e'. specialize (H e').
    now rewrite heap_remove_absent in H.
  - destruct Hp as [Hp | Hp]; [contradiction |].
    apply heap_in_find in Hp. destruct Hp as [b Hb].
    eapply wp_c_free; eauto.
Qed.

Lemma args_owned_no_null g h : args_owned g h -> ~ In NULL (map fst h).
Proof. intros (_ & Hin & _) H. apply Hin in H. tauto. Qed.

Lemma args_owned_broadcast_mac g h :
  args_owned g h ->
  main_arg_broadcast_mac g = NULL \/
  In (main_arg_broadcast_mac g) (map fst h).
Proof.
  intros (_ & Hin & _).
  destruct (Z.eq_dec (main_arg_broadcast_mac g) NULL); [now left |].
  right. apply Hin. auto.
Qed.

Lemma args_owned_mac g h :
  args_owned g h ->
  main_arg_mac g = NULL \/ In (main_arg_mac g) (map fst h).
Proof.
  intros (_ & Hin & _).
  destruct (Z.eq_dec (main_arg_mac g) NULL); [now left |].
  right. apply Hin. auto.
Qed.

Lemma heap_remove_cons_ne (h : heap) p b old :
  p <> old -> heap_remove ((p, b) :: h) old = (p, b) :: heap_remove h old.
Proof.
  intros Hne. cbn [heap_remove].
  now rewrite (proj2 (Z.eqb_neq _ _) Hne).
Qed.

Lemma fresh_is_not (h : heap) p old :
  p <> NULL -> ~ In p (map fst h) ->
  old = NULL \/ In old (map fst h) ->
  p <> old.
Proof. intros Hp Hfresh [-> | Hold] Heq; subst; contradiction. Qed.

(** A new buffer takes the place of the broadcast address. *)
Lemma args_owned_set_broadcast_mac g h p b i t :
  args_owned g h ->
  p <> NULL -> ~ In p (map fst h) ->
  args_owned
    (mk_globals p (Z.of_nat (List.length b)) i
       (main_arg_mac g) (main_arg_n_mac g) t)
    ((p, b) :: heap_remove h (main_arg_broadcast_mac g)).
Proof.
  intros Hown Hp Hfresh.
  pose proof (args_owned_mac g h Hown) as Hmac.
  destruct Hown as (Hnd & Hin & Hdist & Hnb & Hnm).
  unfold args_owned.
  cbn [main_arg_broadcast_mac main_arg_n_broadcast_mac main_arg_mac
         main_arg_n_mac map fst].
  assert (Hpm : p <> main_arg_mac g) by (eapply fresh_is_not; eauto).
  repeat split.
  - constructor; [| now apply heap_remove_nodup].
    intros H. apply heap_remove_in in H; tauto.
  - destruct H as [<- | H]; [exact Hp |].
    apply heap_remove_in in H; [| exact Hnd].
    destruct H as [H _]. apply Hin in H. tauto.
  - destruct H as [<- | H]; [now left |].
    apply heap_remove_in in H; [| exact Hnd].
    destruct H as [H Hq]. apply Hin in H. right. tauto.
  - intros [Hq [-> | ->]]; [now left |]. right.
    apply heap_remove_in; [exact Hnd |]. split; [apply Hin; auto |].
    intros Heq. apply Hq. symmetry in Heq. auto.
  - intros Heq. contradiction.
  - cbn [heap_find]. rewrite Z.eqb_refl. intros b' [= <-]. reflexivity.
  - cbn [heap_find]. rewrite (proj2 (Z.eqb_neq _ _) Hpm).
    intros b' Hb'.
    destruct (Z.eq_dec (main_arg_mac g) (main_arg_broadcast_mac g))
      as [Heq | Hne].
    + symmetry in Heq. specialize (Hdist Heq).
      apply heap_find_in, heap_remove_in in Hb'; [| exact Hnd].
      destruct Hb' as [Hb' _]. apply Hin in Hb'. tauto.
    + rewrite heap_remove_find in Hb' by exact Hne. auto.
Qed.

(** A new buffer takes the place of the hardware address. *)
Lemma args_owned_set_mac g h p b i t :
  args_owned g h ->
  p <> NULL -> ~ In p (map fst h) ->
  args_owned
    (mk_globals (main_arg_broadcast_mac g) (main_arg_n_broadcast_mac g) i
       p (Z.of_nat (List.length b)) t)
    ((p, b) :: heap_remove h (main_arg_mac g)).
Proof.
  intros Hown Hp Hfresh.
  pose proof (args_owned_broadcast_mac g h Hown) as Hbm.
  destruct Hown as (Hnd & Hin & Hdist & Hnb & Hnm).
  unfold args_owned.
  cbn [main_arg_broadcast_mac main_arg_n_broadcast_mac main_arg_mac
         main_arg_n_mac map fst].
  assert (Hpb : p <> main_arg_broadcast_mac g)
    by (eapply fresh_is_not; eauto).
  repeat split.
  - constructor; [| now apply heap_remove_nodup].
    intros H. apply heap_remove_in in H; tauto.
  - destruct H as [<- | H]; [exact Hp |].
    apply heap_remove_in in H; [| exact Hnd].
    destruct H as [H _]. apply Hin in H. tauto.
  - destruct H as [<- | H]; [now right |].
    apply heap_remove_in in H; [| exact Hnd].
    destruct H as [H Hq]. apply Hin in H. left. tauto.
  - intros [Hq [-> | ->]]; [| now left]. right.
    apply heap_remove_in; [exact Hnd |]. split; [apply Hin; auto |].
    intros Heq. apply Hq. specialize (Hdist Heq). congruence.
  - intros Heq. symmetry in Heq. contradiction.
  - cbn [heap_find].
    assert (Hpb' : (p =? main_arg_broadcast_mac g) = false)
      by now apply Z.eqb_neq.
    rewrite Hpb'. intros b' Hb'.
    destruct (Z.eq_dec (main_arg_broadcast_mac g) (main_arg_mac g))
      as [Heq | Hne].
    + specialize (Hdist Heq).
      apply heap_find_in, heap_remove_in in Hb'; [| exact Hnd].
      destruct Hb' as [Hb' _]. apply Hin in Hb'.
      rewrite Heq in Hb'. tauto.
    + rewrite heap_remove_find in Hb' by exact Hne. auto.
  - cbn [heap_find]. rewrite Z.eqb_refl. intros b' [= <-]. reflexivity.
Qed.


Lemma wp_call_parse_hexstr (E : failure env -> Prop) str
    (Q : Z * option (ptr * Z) -> state env -> Prop) s :
  (forall e' r,
      r <> 0 ->
      Q (r, None)
        (mk_state e' (st_globals s) (st_heap s) (st_errno s)
           (st_trace s ++ [Malloc ((strlen str + 1) / 2)]))) ->
  (forall e' p out,
      p <> NULL -> ~ In p (map fst (st_heap s)) ->
      Q (0, Some (p, Z.of_nat (List.length out)))
        (mk_state e' (st_globals s) ((p, out) :: st_heap s) (st_errno s)
           (st_trace s ++ [Malloc ((strlen str + 1) / 2)]))) ->
  wp (call_parse_hexstr env env_step str) E Q s.
Proof.
  intros Hfail Hok. unfold call_parse_hexstr.
  apply wp_bind, wp_ext. intros [junk |] e' _.
  - rewrite parse_hexstr_returns.
    apply wp_bind, wp_place. intros p Hp Hfresh.
    apply wp_ret. now apply Hok.
  - change (parse_hexstr None str) with (Returned (- ENOMEM) None).
    apply wp_ret, Hfail. discriminate.
Qed.

(** [setup_test] from a heap that holds the two buffers: it ends in
    abort() or returns 0 with both addresses in new blocks of 6 zero
    bytes, the index 1, and the buffers it replaced freed. *)
Lemma wp_setup_test s :
  owned s ->
  wp (setup_test env env_step) may_abort
    (fun r s' =>
       r = 0 /\ owned s' /\ quiet s s' /\
       let g' := st_globals s' in
       main_arg_broadcast_mac g' <> NULL /\
       heap_find (st_heap s') (main_arg_broadcast_mac g')
         = Some [0; 0; 0; 0; 0; 0] /\
       main_arg_n_broadcast_mac g' = 6 /\
       main_arg_ifindex g' = 1 /\
       main_arg_mac g' <> NULL /\
       heap_find (st_heap s') (main_arg_mac g') = Some [0; 0; 0; 0; 0; 0] /\
       main_arg_n_mac g' = 6 /\
       main_arg_test g' = main_arg_test (st_globals s)) s.
Proof.
  intros Hown. unfold setup_test.
  apply wp_bind, wp_ext. intros [] e0 _.
  apply wp_bind, wp_c_malloc; [intros e1; rewrite Z.eqb_refl; exact I |].
  intros e1 p1 b1 Hp1 Hfresh1 Hlen1. cbn [st_heap] in Hfresh1.
  destruct b1 as [| ? [| ? [| ? [| ? [| ? [| ? [| ? ?]]]]]]];
    try discriminate.
  rewrite (proj2 (Z.eqb_neq _ _) Hp1).
  apply wp_bind, wp_ret, wp_bind. cbn [c_memcpy].
  do 6 (apply wp_bind;
        eapply wp_store; [heap_norm; reflexivity | reflexivity |];
        heap_norm).
  apply wp_ret, wp_bind, wp_get_globals. cbn [st_globals].
  pose proof (args_owned_no_null _ _ Hown) as Hnonull.
  pose proof (args_owned_broadcast_mac _ _ Hown) as Hold1.
  assert (Hne1 : p1 <> main_arg_broadcast_mac (st_globals s))
    by (eapply fresh_is_not; eauto).
  apply wp_bind, wp_c_free_ok;
    [cbn [st_heap map fst In]; intros [H | H]; [congruence | tauto]
    | cbn [st_heap map fst In]; tauto |].
  intros e2. cbn [st_env st_globals st_heap st_errno st_trace].
  rewrite heap_remove_cons_ne by exact Hne1.
  apply wp_bind, wp_set_globals, wp_bind, wp_get_globals, wp_bind,
    wp_set_globals.
  cbn [st_env st_globals st_heap st_errno st_trace
         main_arg_broadcast_mac main_arg_n_broadcast_mac main_arg_ifindex
         main_arg_mac main_arg_n_mac main_arg_test].
  pose proof (args_owned_set_broadcast_mac _ _ p1 [0; 0; 0; 0; 0; 0] 1
                (main_arg_test (st_globals s)) Hown Hp1 Hfresh1) as Hown1.
  change (Z.of_nat (List.length [0; 0; 0; 0; 0; 0])) with 6 in Hown1.
  set (h1 := (p1, [0; 0; 0; 0; 0; 0])
             :: heap_remove (st_heap s)
                  (main_arg_broadcast_mac (st_globals s))) in *.
  set (g1 := mk_globals p1 6 1 (main_arg_mac (st_globals s))
               (main_arg_n_mac (st_globals s))
               (main_arg_test (st_globals s))) in *.
  apply wp_bind, wp_c_malloc; [intros e3; rewrite Z.eqb_refl; exact I |].
  intros e3 p2 b2 Hp2 Hfresh2 Hlen2. cbn [st_heap] in Hfresh2.
  destruct b2 as [| ? [| ? [| ? [| ? [| ? [| ? [| ? ?]]]]]]];
    try discriminate.
  rewrite (proj2 (Z.eqb_neq _ _) Hp2).
  apply wp_bind, wp_ret, wp_bind. cbn [c_memcpy].
  do 6 (apply wp_bind;
        eapply wp_store; [heap_norm; reflexivity | reflexivity |];
        heap_norm).
  apply wp_ret, wp_bind, wp_get_globals. cbn [st_globals].
  pose proof (args_owned_no_null _ _ Hown1) as Hnonull1.
  pose proof (args_owned_mac _ _ Hown1) as Hold2.
  assert (Hne2 : p2 <> main_arg_mac g1) by (eapply fresh_is_not; eauto).
  apply wp_bind, wp_c_free_ok;
    [cbn [st_heap map fst In]; intros [H | H]; [congruence | tauto]
    | cbn [st_heap map fst In]; tauto |].
  intros e4. cbn [st_env st_globals st_heap st_errno st_trace].
  rewrite heap_remove_cons_ne by exact Hne2.
  apply wp_bind, wp_set_globals, wp_ret.
  cbn [st_env st_globals st_heap st_errno st_trace
         main_arg_broadcast_mac main_arg_n_broadcast_mac main_arg_ifindex
         main_arg_mac main_arg_n_mac main_arg_test].
  pose proof (args_owned_set_mac _ _ p2 [0; 0; 0; 0; 0; 0]
                (main_arg_ifindex g1) (main_arg_test g1)
                Hown1 Hp2 Hfresh2) as Hown2.
  change (Z.of_nat (List.length [0; 0; 0; 0; 0; 0])) with 6 in Hown2.
  assert (Hp12 : p2 <> p1).
  { intros ->. apply Hfresh2. subst h1. now left. }
  assert (Hp1m : p1 <> main_arg_mac (st_globals s))
    by (eapply fresh_is_not; eauto using args_owned_mac).
  split; [reflexivity |]. split; [exact Hown2 |]. split.
  { eexists. rewrite <- !app_assoc. split; reflexivity. }
  cbv zeta. subst h1 g1.
  cbn [main_arg_broadcast_mac main_arg_n_broadcast_mac main_arg_ifindex
         main_arg_mac main_arg_n_mac main_arg_test].
  rewrite heap_remove_cons_ne by exact Hp1m.
  cbn [heap_find]. rewrite !Z.eqb_refl.
  rewrite (proj2 (Z.eqb_neq _ _) Hp12).
  repeat split; assumption.
Qed.


Local Ltac quiet_step H :=
  eapply quiet_snoc;
  [exact H
  | cbn [st_trace]; rewrite <- ?app_assoc; reflexivity
  | reflexivity].

(** The loop of [parse_argv] keeps the heap to the two buffers, makes no
    call into the library and leaves with no value but an error or
    MAIN_EXIT. *)
Lemma wp_parse_argv_loop scan :
  forall s,
    owned s ->
    wp (parse_argv_loop env env_step atoi scan) may_abort
      (fun o s' =>
         owned s' /\ quiet s s' /\ (forall r, o = Some r -> r <> 0)) s.
Proof.
  induction scan as [| [c optarg] scan IH]; intros s Hown;
    cbn [parse_argv_loop].
  { apply wp_ret. split; [exact Hown |].
    split; [apply quiet_refl | discriminate]. }
  destruct (c <? 0).
  { apply wp_ret. split; [exact Hown |].
    split; [apply quiet_refl | discriminate]. }
  destruct (c =? 104).
  { unfold print_help. apply wp_bind.
    apply (wp_ext env env_step _ (Print MsgHelp)). intros [] e1 _.
    apply wp_ret. split; [exact Hown |]. split.
    - exists [Print MsgHelp]. split; reflexivity.
    - intros r [= <-]. discriminate. }
  pose proof (args_owned_no_null _ _ Hown) as Hnonull.
  destruct (c =? ARG_BROADCAST_MAC).
  { apply wp_bind, wp_call_parse_hexstr.
    - intros e1 r Hr. rewrite (proj2 (Z.eqb_neq _ _) Hr). cbn [negb].
      apply wp_ret. split; [exact Hown |]. split.
      + eexists. split; reflexivity.
      + intros r' [= <-]. exact Hr.
    - intros e1 p out Hp Hfresh. cbn [Z.eqb negb].
      apply wp_bind, wp_get_globals. cbn [st_globals].
      pose proof (args_owned_broadcast_mac _ _ Hown) as Hold.
      assert (Hne : p <> main_arg_broadcast_mac (st_globals s))
        by (eapply fresh_is_not; eauto).
      apply wp_bind, wp_c_free_ok;
        [cbn [st_heap map fst In]; intros [H | H]; [congruence | tauto]
        | cbn [st_heap map fst In]; tauto |].
      intros e2. cbn [st_env st_globals st_heap st_errno st_trace].
      rewrite heap_remove_cons_ne by exact Hne.
      apply wp_bind, wp_set_globals.
      eapply wp_mono.
      + apply IH. cbn [st_globals st_heap].
        now apply args_owned_set_broadcast_mac.
      + intros o s' (Hown' & Hq' & Hnz).
        split; [exact Hown' |]. split; [| exact Hnz].
        eapply quiet_trans; [| exact Hq'].
        eexists. cbn [st_trace]. rewrite <- app_assoc.
        split; reflexivity. }
  destruct (c =? ARG_IFINDEX).
  { apply wp_bind, wp_get_globals, wp_bind, wp_set_globals.
    eapply wp_mono.
    - apply IH. exact Hown.
    - intros o s' (Hown' & Hq' & Hnz). auto. }
  destruct (c =? ARG_MAC).
  { apply wp_bind, wp_call_parse_hexstr.
    - intros e1 r Hr. rewrite (proj2 (Z.eqb_neq _ _) Hr). cbn [negb].
      apply wp_ret. split; [exact Hown |]. split.
      + eexists. split; reflexivity.
      + intros r' [= <-]. exact Hr.
    - intros e1 p out Hp Hfresh. cbn [Z.eqb negb].
      apply wp_bind, wp_get_globals. cbn [st_globals].
      pose proof (args_owned_mac _ _ Hown) as Hold.
      assert (Hne : p <> main_arg_mac (st_globals s))
        by (eapply fresh_is_not; eauto).
      apply wp_bind, wp_c_free_ok;
        [cbn [st_heap map fst In]; intros [H | H]; [congruence | tauto]
        | cbn [st_heap map fst In]; tauto |].
      intros e2. cbn [st_env st_globals st_heap st_errno st_trace].
      rewrite heap_remove_cons_ne by exact Hne.
      apply wp_bind, wp_set_globals.
      eapply wp_mono.
      + apply IH. cbn [st_globals st_heap].
        now apply args_owned_set_mac.
      + intros o s' (Hown' & Hq' & Hnz).
        split; [exact Hown' |]. split; [| exact Hnz].
        eapply quiet_trans; [| exact Hq'].
        eexists. cbn [st_trace]. rewrite <- app_assoc.
        split; reflexivity. }
  destruct (c =? ARG_TEST).
  { apply wp_bind.
    eapply wp_mono; [apply wp_setup_test; exact Hown |].
    intros r s1 (-> & Hown1 & Hq1 & _). cbn [Z.eqb negb].
    apply wp_bind, wp_get_globals, wp_bind, wp_set_globals.
    eapply wp_mono.
    - apply IH. exact Hown1.
    - intros o s' (Hown' & Hq' & Hnz).
      split; [exact Hown' |]. split; [| exact Hnz].
      eapply quiet_trans; [exact Hq1 | exact Hq']. }
  destruct (c =? 63); apply wp_ret; (split; [exact Hown |]);
    (split; [apply quiet_refl |]); intros r [= <-]; discriminate.
Qed.

Lemma wp_parse_argv scan optind argc arg s :
  owned s ->
  wp (parse_argv env env_step atoi scan optind argc arg) may_abort
    (fun r s' =>
       owned s' /\ quiet s s' /\
       (r = 0 ->
        main_arg_broadcast_mac (st_globals s') <> NULL /\
        main_arg_ifindex (st_globals s') <> 0 /\
        main_arg_mac (st_globals s') <> NULL /\
        optind = argc)) s.
Proof.
  intros Hown. unfold parse_argv. apply wp_bind.
  eapply wp_mono; [apply wp_parse_argv_loop; exact Hown |].
  intros [r |] s1 (Hown1 & Hq1 & Hnz).
  { apply wp_ret. split; [exact Hown1 |]. split; [exact Hq1 |].
    intros ->. now elim (Hnz 0). }
  destruct (Z.eqb_spec optind argc) as [-> | Hne]; cbn [negb].
  2: { apply wp_bind, wp_ext. intros [] e1 _. apply wp_ret.
       split; [exact Hown1 |]. split; [| discriminate].
       eapply quiet_snoc; [exact Hq1 | reflexivity | reflexivity]. }
  apply wp_bind, wp_get_globals.
  destruct (Z.eqb_spec (main_arg_broadcast_mac (st_globals s1)) NULL)
    as [Hb | Hb]; cbn [orb].
  { apply wp_bind, wp_ext. intros [] e1 _. apply wp_ret.
    split; [exact Hown1 |]. split; [| discriminate].
    eapply quiet_snoc; [exact Hq1 | reflexivity | reflexivity]. }
  destruct (Z.eqb_spec (main_arg_ifindex (st_globals s1)) 0)
    as [Hi | Hi]; cbn [orb].
  { apply wp_bind, wp_ext. intros [] e1 _. apply wp_ret.
    split; [exact Hown1 |]. split; [| discriminate].
    eapply quiet_snoc; [exact Hq1 | reflexivity | reflexivity]. }
  destruct (Z.eqb_spec (main_arg_mac (st_globals s1)) NULL)
    as [Hm | Hm]; cbn [orb].
  { apply wp_bind, wp_ext. intros [] e1 _. apply wp_ret.
    split; [exact Hown1 |]. split; [| discriminate].
    eapply quiet_snoc; [exact Hq1 | reflexivity | reflexivity]. }
  apply wp_ret. split; [exact Hown1 |]. split; [exact Hq1 |].
  intros _. auto.
Qed.


(** X20: [parse_argv], from a heap that holds the buffers of the two
    addresses and nothing else, never runs into undefined behaviour: it
    frees no block twice and none that is not in use.  When it returns,
    the heap again holds the two buffers and nothing else, each with the
    length kept beside it: every buffer replaced by a later option was
    freed.  It makes no call into the library. *)
Theorem parse_argv_owns_its_buffers
    (scan : list (Z * string)) (optind argc : Z) (arg : string)
    (s : state env) :
  args_owned (st_globals s) (st_heap s) ->
  match parse_argv env env_step atoi scan optind argc arg s with
  | Done r s' =>
      args_owned (st_globals s') (st_heap s') /\
      exists t,
        st_trace s' = st_trace s ++ t /\
        forallb (fun c => negb (is_client_call c)) t = true
  | Aborted _ => True
  | Undefined => False
  | OutOfFuel => False
  end.
Proof.
  intros Hown.
  pose proof (wp_parse_argv scan optind argc arg s Hown) as H.
  unfold Runner.wp in H.
  destruct (parse_argv env env_step atoi scan optind argc arg s);
    try exact H.
  tauto.
Qed.


Local Ltac skip_step := apply wp_bind_any; intros ? ?.

(** Whatever the heap, the loop of [parse_argv] leaves with no value but
    an error or MAIN_EXIT. *)
Lemma wp_parse_argv_loop_nonzero scan :
  forall s,
    wp (parse_argv_loop env env_step atoi scan) any
      (fun o _ => forall r, o = Some r -> r <> 0) s.
Proof.
  induction scan as [| [c optarg] scan IH]; intros s;
    cbn [parse_argv_loop]; [apply wp_ret; discriminate |].
  destruct (c <? 0); [apply wp_ret; discriminate |].
  destruct (c =? 104);
    [skip_step; apply wp_ret; intros r [= <-]; discriminate |].
  destruct (c =? ARG_BROADCAST_MAC).
  { apply wp_bind_any. intros [r stored] s1.
    destruct (Z.eqb_spec r 0) as [-> | Hr]; cbn [negb];
      [| apply wp_ret; intros r' [= <-]; exact Hr].
    destruct stored as [[t n] |]; [| exact I].
    do 3 skip_step. apply IH. }
  destruct (c =? ARG_IFINDEX); [do 2 skip_step; apply IH |].
  destruct (c =? ARG_MAC).
  { apply wp_bind_any. intros [r stored] s1.
    destruct (Z.eqb_spec r 0) as [-> | Hr]; cbn [negb];
      [| apply wp_ret; intros r' [= <-]; exact Hr].
    destruct stored as [[t n] |]; [| exact I].
    do 3 skip_step. apply IH. }
  destruct (c =? ARG_TEST).
  { apply wp_bind_any. intros r s1.
    destruct (Z.eqb_spec r 0) as [-> | Hr]; cbn [negb];
      [| apply wp_ret; intros r' [= <-]; exact Hr].
    do 2 skip_step. apply IH. }
  destruct (c =? 63); apply wp_ret; intros r [= <-]; discriminate.
Qed.

(** X21: [parse_argv] returns 0 only when getopt_long() has consumed every
    argument and the broadcast address, the interface index and the
    hardware address are all set: both pointers not NULL and the index not
    0.  An index given as 0, or as text atoi() reads as 0, counts as
    missing. *)
Theorem parse_argv_success_means_configured
    (scan : list (Z * string)) (optind argc : Z) (arg : string)
    (s s' : state env) :
  parse_argv env env_step atoi scan optind argc arg s = Done 0 s' ->
  optind = argc /\
  main_arg_broadcast_mac (st_globals s') <> NULL /\
  main_arg_ifindex (st_globals s') <> 0 /\
  main_arg_mac (st_globals s') <> NULL.
Proof.
  intros Hrun.
  assert (Hwp : wp (parse_argv env env_step atoi scan optind argc arg) any
                  (fun r s' =>
                     r = 0 ->
                     optind = argc /\
                     main_arg_broadcast_mac (st_globals s') <> NULL /\
                     main_arg_ifindex (st_globals s') <> 0 /\
                     main_arg_mac (st_globals s') <> NULL) s).
  { unfold parse_argv. apply wp_bind.
    eapply wp_mono; [apply wp_parse_argv_loop_nonzero |].
    intros [r |] s1 Hnz.
    { apply wp_ret. intros ->. now elim (Hnz 0). }
    destruct (Z.eqb_spec optind argc) as [-> | Hne]; cbn [negb];
      [| skip_step; apply wp_ret; discriminate].
    apply wp_bind, wp_get_globals.
    destruct (Z.eqb_spec (main_arg_broadcast_mac (st_globals s1)) NULL);
      cbn [orb]; [skip_step; apply wp_ret; discriminate |].
    destruct (Z.eqb_spec (main_arg_ifindex (st_globals s1)) 0);
      cbn [orb]; [skip_step; apply wp_ret; discriminate |].
    destruct (Z.eqb_spec (main_arg_mac (st_globals s1)) NULL);
      cbn [orb]; [skip_step; apply wp_ret; discriminate |].
    apply wp_ret. auto. }
  exact (wp_partial _ _ _ _ _ _ Hwp Hrun eq_refl).
Qed.

Lemma wp_parse_argv_loop_help scan optarg_h :
  Forall (fun o => 0 <= fst o) scan ->
  In (104, optarg_h) scan ->
  forall s,
    wp (parse_argv_loop env env_step atoi scan) any
      (fun o _ => exists r, o = Some r /\ r <> 0) s.
Proof.
  induction scan as [| [c optarg] scan IH]; intros Hpos Hin s;
    [contradiction |].
  inversion Hpos as [| ? ? Hc Hpos']; subst. cbn [fst] in Hc.
  cbn [parse_argv_loop].
  rewrite (proj2 (Z.ltb_ge c 0) Hc).
  destruct (Z.eqb_spec c 104) as [-> | Hne].
  { skip_step. apply wp_ret. exists MAIN_EXIT. split; [| discriminate].
    reflexivity. }
  destruct Hin as [[= Heq _] | Hin]; [congruence |].
  specialize (IH Hpos' Hin).
  destruct (c =? ARG_BROADCAST_MAC).
  { apply wp_bind_any. intros [r stored] s1.
    destruct (Z.eqb_spec r 0) as [-> | Hr]; cbn [negb];
      [| apply wp_ret; eauto].
    destruct stored as [[t n] |]; [| exact I].
    do 3 skip_step. apply IH. }
  destruct (c =? ARG_IFINDEX); [do 2 skip_step; apply IH |].
  destruct (c =? ARG_MAC).
  { apply wp_bind_any. intros [r stored] s1.
    destruct (Z.eqb_spec r 0) as [-> | Hr]; cbn [negb];
      [| apply wp_ret; eauto].
    destruct stored as [[t n] |]; [| exact I].
    do 3 skip_step. apply IH. }
  destruct (c =? ARG_TEST).
  { apply wp_bind_any. intros r s1.
    destruct (Z.eqb_spec r 0) as [-> | Hr]; cbn [negb];
      [| apply wp_ret; eauto].
    do 2 skip_step. apply IH. }
  destruct (c =? 63); apply wp_ret; eexists; (split; [reflexivity |]);
    discriminate.
Qed.

(** X22: with -h among the options getopt_long() returns, [parse_argv]
    never returns 0, whatever the other options are and wherever -h
    stands: it returns MAIN_EXIT at -h, or an error met before it. *)
Theorem parse_argv_help_never_succeeds
    (scan : list (Z * string)) (optarg_h : string) (optind argc : Z)
    (arg : string) (s s' : state env) (r : Z) :
  Forall (fun o => 0 <= fst o) scan ->
  In (104, optarg_h) scan ->
  parse_argv env env_step atoi scan optind argc arg s = Done r s' ->
  r <> 0.
Proof.
  intros Hpos Hin Hrun.
  assert (Hwp : wp (parse_argv env env_step atoi scan optind argc arg) any
                  (fun r _ => r <> 0) s).
  { unfold parse_argv. apply wp_bind.
    eapply wp_mono; [eapply wp_parse_argv_loop_help; eauto |].
    intros o s1 (r1 & -> & Hr1). now apply wp_ret. }
  exact (wp_partial _ _ _ _ _ _ Hwp Hrun).
Qed.

(** X23: the exit status of [main] is 0, 127 or an internal code from 2
    up: never negative, never 1.  A negative errno becomes 127; MAIN_EXIT
    becomes 0, and so does a 1 that [run] returns. *)
Theorem main_exit_status
    (fuel : nat) (scan : list (Z * string)) (optind argc : Z) (arg : string)
    (s s' : state env) (r : Z) :
  main env env_step atoi fuel scan optind argc arg s = Done r s' ->
  r = 0 \/ r = 127 \/ 2 <= r.
Proof.
  intros Hrun.
  assert (Hwp : wp (main env env_step atoi fuel scan optind argc arg) any
                  (fun r _ => r = 0 \/ r = 127 \/ 2 <= r) s).
  { unfold main. do 2 skip_step.
    apply wp_bind with (Q := fun r (_ : state env) =>
                               r = 0 \/ r = 127 \/ 2 <= r).
    eapply wp_mono with (Q := fun r (_ : state env) =>
                                r = 0 \/ r = 127 \/ 2 <= r).
    - match goal with
      | |- context [if ?v =? MAIN_EXIT then _ else _] =>
          destruct (Z.eqb_spec v MAIN_EXIT) as [-> | Hexit];
          [apply wp_ret; auto |];
          destruct (Z.ltb_spec v 0);
          [do 2 skip_step; apply wp_ret; auto |];
          destruct (Z.ltb_spec 0 v);
          [skip_step; apply wp_ret; unfold MAIN_EXIT in Hexit; lia
          | apply wp_ret; lia]
      end.
    - intros r3 s3 Hr3. do 4 skip_step. now apply wp_ret. }
  exact (wp_partial _ _ _ _ _ _ Hwp Hrun).
Qed.


Lemma args_owned_free_all g h :
  args_owned g h ->
  heap_remove (heap_remove h (main_arg_broadcast_mac g)) (main_arg_mac g)
  = [].
Proof.
  intros (Hnd & Hin & _).
  destruct (heap_remove (heap_remove h (main_arg_broadcast_mac g))
              (main_arg_mac g)) as [| [q b] h'] eqn:Hh; [reflexivity |].
  assert (Hq : In q (map fst
                       (heap_remove
                          (heap_remove h (main_arg_broadcast_mac g))
                          (main_arg_mac g))))
    by (rewrite Hh; now left).
  apply heap_remove_in in Hq; [| now apply heap_remove_nodup].
  destruct Hq as [Hq Hqm].
  apply heap_remove_in in Hq; [| exact Hnd].
  destruct Hq as [Hq Hqb]. apply Hin in Hq. tauto.
Qed.

(** The end of [main], from the label [exit] on: the message, the two
    calls of free(), the status. *)
Lemma wp_main_exit (E : failure env -> Prop) r (s0 s : state env) :
  owned s ->
  quiet s0 s ->
  wp (bind env
        (if r =? MAIN_EXIT then ret env 0
         else if r <? 0 then
           bind env (set_errno env (- r))
             (fun _ =>
                bind env (ext env env_step (Print (MsgFailedErrno r)))
                  (fun _ => ret env 127))
         else if 0 <? r then
           bind env (ext env env_step (Print (MsgFailedInternal r)))
             (fun _ => ret env r)
         else ret env r)
        (fun r' =>
           bind env (get_globals env)
             (fun g =>
                bind env (c_free env env_step (main_arg_broadcast_mac g))
                  (fun _ =>
                     bind env (get_globals env)
                       (fun g =>
                          bind env (c_free env env_step (main_arg_mac g))
                            (fun _ => ret env r'))))))
    E
    (fun r' s' =>
       st_heap s' = [] /\ quiet s0 s' /\
       (r = MAIN_EXIT -> r' = 0) /\
       (r < 0 -> r' = 127) /\
       (1 < r -> r' = r)) s.
Proof.
  intros Hown Hq.
  apply wp_bind with
    (Q := fun r' s' =>
            st_heap s' = [] /\ quiet s0 s' /\
            (r = MAIN_EXIT -> r' = 0) /\
            (r < 0 -> r' = 127) /\
            (1 < r -> r' = r)).
  apply wp_mono with
    (Q := fun r' s1 =>
            owned s1 /\ quiet s0 s1 /\
            (r = MAIN_EXIT -> r' = 0) /\
            (r < 0 -> r' = 127) /\
            (1 < r -> r' = r)).
  - assert (Hsnoc : forall c (e1 : env) er,
               is_client_call c = false ->
               quiet s0 (mk_state e1 (st_globals s) (st_heap s) er
                           (st_trace s ++ [c]))).
    { intros c e1 er Hc.
      eapply quiet_snoc; [exact Hq | reflexivity | exact Hc]. }
    destruct (Z.eqb_spec r MAIN_EXIT) as [Hexit | Hexit].
    { apply wp_ret. split; [exact Hown |]. split; [exact Hq |].
      unfold MAIN_EXIT in Hexit.
      repeat apply conj; unfold MAIN_EXIT; intros; lia. }
    unfold MAIN_EXIT in Hexit.
    destruct (Z.ltb_spec r 0).
    { apply wp_bind, wp_set_errno, wp_bind, wp_ext. intros [] e1 _.
      apply wp_ret. split; [exact Hown |].
      split; [now apply Hsnoc |].
      repeat apply conj; unfold MAIN_EXIT; intros; lia. }
    destruct (Z.ltb_spec 0 r).
    { apply wp_bind, wp_ext. intros [] e1 _.
      apply wp_ret. split; [exact Hown |].
      split; [now apply Hsnoc |].
      repeat apply conj; unfold MAIN_EXIT; intros; lia. }
    apply wp_ret. split; [exact Hown |]. split; [exact Hq |].
    repeat apply conj; unfold MAIN_EXIT; intros; lia.
  - intros r' s1 (Hown1 & Hq1 & Hmap).
    pose proof (args_owned_no_null _ _ Hown1) as Hnonull.
    pose proof (args_owned_broadcast_mac _ _ Hown1) as Hb.
    pose proof (args_owned_mac _ _ Hown1) as Hm.
    apply wp_bind, wp_get_globals.
    apply wp_bind, wp_c_free_ok; [exact Hnonull | exact Hb |].
    intros e1. apply wp_bind, wp_get_globals. cbn [st_globals].
    pose proof Hown1 as (Hnd & Hin & Hdist & _).
    apply wp_bind, wp_c_free_ok.
    + cbn [st_heap]. intros H. apply heap_remove_in in H; tauto.
    + cbn [st_heap].
      destruct (Z.eq_dec (main_arg_mac (st_globals s1)) NULL) as [| Hne];
        [now left | right].
      apply heap_remove_in; [exact Hnd |].
      split; [apply Hin; auto |].
      intros Heq. symmetry in Heq. auto.
    + intros e2. apply wp_ret. split.
      * cbn [st_heap]. now apply args_owned_free_all.
      * split; [| exact Hmap].
        destruct Hq1 as (t & Ht & Hqt).
        exists (t ++ [Free (main_arg_broadcast_mac (st_globals s1));
                      Free (main_arg_mac (st_globals s1))]).
        cbn [st_trace]. rewrite Ht, <- !app_assoc.
        split; [reflexivity |].
        rewrite forallb_app, Hqt. reflexivity.
Qed.

(** X24: [main] leaves no block allocated.  Started with the heap holding
    nothing but the buffers of the two addresses (at process start, with
    both pointers NULL, an empty heap), whenever it returns the heap is
    empty: the buffers scanned from the command line and the manager of
    [run] are all freed. *)
Theorem main_frees_everything
    (fuel : nat) (scan : list (Z * string)) (optind argc : Z) (arg : string)
    (s s' : state env) (r : Z) :
  args_owned (st_globals s) (st_heap s) ->
  main env env_step atoi fuel scan optind argc arg s = Done r s' ->
  st_heap s' = [].
Proof.
  intros Hown Hrun.
  assert (Hwp : wp (main env env_step atoi fuel scan optind argc arg) any
                  (fun _ s' => st_heap s' = []) s).
  { unfold main. apply wp_bind.
    eapply wp_mono.
    { eapply wp_weaken; [| apply wp_parse_argv; exact Hown].
      intros f _. exact I. }
    intros r1 s1 (Hown1 & Hq1 & _).
    apply wp_bind.
    apply wp_mono with (Q := fun (_ : Z) s2 => owned s2 /\ quiet s2 s2).
    - destruct (negb (r1 =? 0)).
      + apply wp_ret. split; [exact Hown1 | apply quiet_refl].
      + eapply wp_mono; [apply wp_run |].
        intros r2 s2 [Hh Hg]. rewrite Hh, Hg.
        split; [exact Hown1 | apply quiet_refl].
    - intros r2 s2 [Hown2 Hq2].
      eapply wp_mono; [apply wp_main_exit; eauto |].
      intros r3 s3 (Hh & _). exact Hh. }
  exact (wp_partial _ _ _ _ _ _ Hwp Hrun).
Qed.

(** X25: when [parse_argv] returns MAIN_EXIT or an error, [main] does not
    start the client: it makes no call into the library, frees the
    buffers scanned so far, leaving the heap empty, and exits with 0 for
    MAIN_EXIT, 127 for a negative errno and the code itself above 1. *)
Theorem main_stops_on_argument_error
    (fuel : nat) (scan : list (Z * string)) (optind argc : Z) (arg : string)
    (s s1 : state env) (r : Z) :
  args_owned (st_globals s) (st_heap s) ->
  parse_argv env env_step atoi scan optind argc arg s = Done r s1 ->
  r <> 0 ->
  exists r' s',
    main env env_step atoi fuel scan optind argc arg s = Done r' s' /\
    st_heap s' = [] /\
    (exists t,
        st_trace s' = st_trace s ++ t /\
        forallb (fun c => negb (is_client_call c)) t = true) /\
    (r = MAIN_EXIT -> r' = 0) /\
    (r < 0 -> r' = 127) /\
    (1 < r -> r' = r).
Proof.
  intros Hown Hparse Hr.
  assert (Hpost : owned s1 /\ quiet s s1).
  { assert (Hwp : wp (parse_argv env env_step atoi scan optind argc arg)
                    any (fun _ s' => owned s' /\ quiet s s') s).
    { eapply wp_mono.
      - eapply wp_weaken; [| apply wp_parse_argv; exact Hown].
        intros f _. exact I.
      - intros r0 s0 (H1 & H2 & _). auto. }
    exact (wp_partial _ _ _ _ _ _ Hwp Hparse). }
  destruct Hpost as [Hown1 Hq1].
  unfold main. rewrite (bind_eq _ _ _ _ _ _ Hparse).
  rewrite (proj2 (Z.eqb_neq _ _) Hr). cbn [negb].
  rewrite (bind_eq _ _ _ _ r s1 eq_refl).
  apply wp_total. now apply wp_main_exit.
Qed.

End ArgsFacts.

(** ** Runs against a scripted environment *)

Section ScriptedClient.
Import TestRunClient Runner.

Local Abbreviation script := mk_scripted.


Lemma args_owned_at_start (e : scripted_env) :
  args_owned (st_globals (at_start e)) (st_heap (at_start e)).
Proof.
  unfold at_start, globals_init, args_owned, NULL.
  cbn [st_globals st_heap main_arg_broadcast_mac main_arg_mac
         main_arg_n_broadcast_mac main_arg_n_mac map fst In heap_find].
  repeat apply conj.
  - constructor.
  - intros q. lia.
  - lia.
  - discriminate.
  - discriminate.
Qed.

(** An instance: poll() fails with EINTR in the first round. *)
Lemma run_releases_manager_witness :
  run scripted_env scripted_step 1
    (configured (script [true] [] [PollFailed 4]) false) =
  Done (- 4)
    (mk_state (script [] [] []) (mk_globals 1 6 1 2 6 false)
       configured_heap 4
       [Malloc 2; ConfigNew; ConfigSetBroadcastMac 1000 1 6;
        ConfigSetIfindex 1000 1; ConfigSetMac 1000 2 6; ClientNew 1000;
        ConfigFreep 1000; ProbeConfigNew; ClientProbe 1000 1000;
        ClientGetFd 1000; Poll 3; ProbeConfigFreep 1000; ProbeFree 1000;
        ClientUnref 1000; Free 3]) /\
  configured_heap =
  st_heap (configured (script [true] [] [PollFailed 4]) false) /\
  mk_globals 1 6 1 2 6 false =
  st_globals (configured (script [true] [] [PollFailed 4]) false).
Proof.
  split; [vm_compute; reflexivity |].
  apply (run_releases_manager scripted_env scripted_step 1
           (configured (script [true] [] [PollFailed 4]) false)
           (mk_state (script [] [] []) (mk_globals 1 6 1 2 6 false)
              configured_heap 4
              [Malloc 2; ConfigNew; ConfigSetBroadcastMac 1000 1 6;
               ConfigSetIfindex 1000 1; ConfigSetMac 1000 2 6;
               ClientNew 1000; ConfigFreep 1000; ProbeConfigNew;
               ClientProbe 1000 1000; ClientGetFd 1000; Poll 3;
               ProbeConfigFreep 1000; ProbeFree 1000; ClientUnref 1000;
               Free 3])
           (- 4)).
  vm_compute. reflexivity.
Defined.

(** An instance: no fuel at all. *)
Lemma run_in_test_mode_witness :
  main_arg_test (st_globals (configured (script [true] [] []) true))
  = true /\
  exists r s' t,
    run scripted_env scripted_step 0
      (configured (script [true] [] []) true) = Done r s' /\
    st_heap s' =
    st_heap (configured (script [true] [] []) true) /\
    st_trace s' =
    st_trace (configured (script [true] [] []) true) ++ t /\
    forallb (fun c => negb (is_loop_call c)) t = true.
Proof.
  split; [vm_compute; reflexivity |].
  exact (run_in_test_mode scripted_env scripted_step 0
           (configured (script [true] [] []) true) eq_refl).
Defined.

(** An instance: two events queued, fuel for three rounds. *)
Lemma manager_dispatch_drains_witness :
  manager_dispatch scripted_env scripted_step 3 3
    (running (script [] [5; 7] [])) =
  Done 0
    (mk_state (script [] [] []) (mk_globals 1 6 1 2 6 false)
       ((3, [1000; NULL]) :: configured_heap) 0
       ([] ++ ClientDispatch 1000
          :: flat_map
               (fun ev => [ClientPopEvent 1000; Print (MsgEvent ev)])
               [5; 7]
          ++ [ClientPopEvent 1000])).
Proof.
  apply (manager_dispatch_drains scripted_env scripted_step 3 3 1000
           [1000; NULL] [5; 7] (running (script [] [5; 7] []))
           (script [] [5; 7] []) (script [] [] [])).
  - reflexivity.
  - reflexivity.
  - reflexivity.
  - eapply pops_cons; [reflexivity | reflexivity |].
    eapply pops_cons; [reflexivity | reflexivity |].
    apply pops_nil. reflexivity.
  - simpl. lia.
Defined.

(** An instance: poll() fails with EINTR. *)
Lemma manager_run_poll_fails_witness :
  manager_run scripted_env scripted_step 1 3
    (running (script [] [] [PollFailed 4])) =
  Done (- 4)
    (mk_state (script [] [] []) (mk_globals 1 6 1 2 6 false)
       (heap_update ((3, [1000; NULL]) :: configured_heap) 3 [1000; 1000])
       4
       ([] ++
        [ProbeConfigNew; ClientProbe 1000 1000; ClientGetFd 1000;
         Poll 3; ProbeConfigFreep 1000])).
Proof.
  apply (manager_run_poll_fails scripted_env scripted_step 0 3 1000 NULL
           1000 1000 3 4 (running (script [] [] [PollFailed 4]))
           (script [] [] [PollFailed 4]) (script [] [] [PollFailed 4])
           (script [] [] [PollFailed 4]) (script [] [] [])
           (script [] [] []));
    reflexivity.
Defined.

(** An instance: poll() reports POLLIN | POLLHUP. *)
Lemma manager_run_poll_hangup_witness :
  manager_run scripted_env scripted_step 1 3
    (running (script [] [] [PollReady 1 0x011])) =
  Done (- ENOTRECOVERABLE)
    (mk_state (script [] [] []) (mk_globals 1 6 1 2 6 false)
       (heap_update ((3, [1000; NULL]) :: configured_heap) 3 [1000; 1000])
       0
       ([] ++
        [ProbeConfigNew; ClientProbe 1000 1000; ClientGetFd 1000;
         Poll 3; ProbeConfigFreep 1000])).
Proof.
  apply (manager_run_poll_hangup scripted_env scripted_step 0 3 1000 NULL
           1000 1000 3 0x011 1
           (running (script [] [] [PollReady 1 0x011]))
           (script [] [] [PollReady 1 0x011])
           (script [] [] [PollReady 1 0x011])
           (script [] [] [PollReady 1 0x011]) (script [] [] [])
           (script [] [] []));
    try reflexivity.
  - discriminate.
  - vm_compute. discriminate.
Defined.


(** An instance: --mac given twice, the first buffer replaced. *)
Lemma parse_argv_owns_its_buffers_witness :
  args_owned (st_globals (at_start (script [true; true; true] [] [])))
    (st_heap (at_start (script [true; true; true] [] []))) /\
  match parse_argv scripted_env scripted_step scripted_atoi
          [(ARG_MAC, "001122334455"%string); (ARG_IFINDEX, "2"%string);
           (ARG_BROADCAST_MAC, "ffffffffffff"%string);
           (ARG_MAC, "aa"%string)]
          7 7 ""%string (at_start (script [true; true; true] [] [])) with
  | Done r s' =>
      args_owned (st_globals s') (st_heap s') /\
      exists t,
        st_trace s' =
        st_trace (at_start (script [true; true; true] [] [])) ++ t /\
        forallb (fun c => negb (is_client_call c)) t = true
  | Aborted _ => True
  | Undefined => False
  | OutOfFuel => False
  end.
Proof.
  split; [apply args_owned_at_start |].
  apply (parse_argv_owns_its_buffers scripted_env scripted_step
           scripted_atoi
           [(ARG_MAC, "001122334455"%string); (ARG_IFINDEX, "2"%string);
            (ARG_BROADCAST_MAC, "ffffffffffff"%string);
            (ARG_MAC, "aa"%string)]
           7 7 ""%string (at_start (script [true; true; true] [] []))).
  apply args_owned_at_start.
Defined.

(** An instance: the three options given. *)
Lemma parse_argv_success_means_configured_witness :
  parse_argv scripted_env scripted_step scripted_atoi
    [(ARG_MAC, "001122334455"%string); (ARG_IFINDEX, "2"%string);
     (ARG_BROADCAST_MAC, "ffffffffffff"%string)]
    7 7 ""%string (at_start (script [true; true] [] [])) =
  Done 0
    (mk_state (script [] [] []) (mk_globals 2 6 2 1 6 false)
       [(2, [255; 255; 255; 255; 255; 255]); (1, [0; 17; 34; 51; 68; 85])]
       0 [Malloc 6; Free 0; Malloc 6; Free 0]) /\
  7 = 7 /\
  main_arg_broadcast_mac (mk_globals 2 6 2 1 6 false) <> NULL /\
  main_arg_ifindex (mk_globals 2 6 2 1 6 false) <> 0 /\
  main_arg_mac (mk_globals 2 6 2 1 6 false) <> NULL.
Proof.
  split; [vm_compute; reflexivity |].
  apply (parse_argv_success_means_configured scripted_env scripted_step
           scripted_atoi
           [(ARG_MAC, "001122334455"%string); (ARG_IFINDEX, "2"%string);
            (ARG_BROADCAST_MAC, "ffffffffffff"%string)]
           7 7 ""%string (at_start (script [true; true] [] []))
           (mk_state (script [] [] []) (mk_globals 2 6 2 1 6 false)
              [(2, [255; 255; 255; 255; 255; 255]);
               (1, [0; 17; 34; 51; 68; 85])]
              0 [Malloc 6; Free 0; Malloc 6; Free 0])).
  vm_compute. reflexivity.
Defined.

(** An instance: -h after --mac. *)
Lemma parse_argv_help_never_succeeds_witness :
  Forall (fun o => 0 <= fst o)
    [(ARG_MAC, "001122334455"%string); (104, ""%string)] /\
  In (104, ""%string)
    [(ARG_MAC, "001122334455"%string); (104, ""%string)] /\
  parse_argv scripted_env scripted_step scripted_atoi
    [(ARG_MAC, "001122334455"%string); (104, ""%string)]
    4 4 ""%string (at_start (script [true] [] [])) =
  Done MAIN_EXIT
    (mk_state (script [] [] []) (mk_globals NULL 0 0 1 6 false)
       [(1, [0; 17; 34; 51; 68; 85])] 0
       [Malloc 6; Free 0; Print MsgHelp]) /\
  MAIN_EXIT <> 0.
Proof.
  assert (Hpos : Forall (fun o => 0 <= fst o)
                   [(ARG_MAC, "001122334455"%string); (104, ""%string)])
    by (repeat constructor; vm_compute; discriminate).
  assert (Hin : In (104, ""%string)
                  [(ARG_MAC, "001122334455"%string); (104, ""%string)])
    by (right; left; reflexivity).
  split; [exact Hpos |]. split; [exact Hin |].
  split; [vm_compute; reflexivity |].
  apply (parse_argv_help_never_succeeds scripted_env scripted_step
           scripted_atoi
           [(ARG_MAC, "001122334455"%string); (104, ""%string)]
           ""%string 4 4 ""%string (at_start (script [true] [] []))
           (mk_state (script [] [] []) (mk_globals NULL 0 0 1 6 false)
              [(1, [0; 17; 34; 51; 68; 85])] 0
              [Malloc 6; Free 0; Print MsgHelp])
           MAIN_EXIT Hpos Hin).
  vm_compute. reflexivity.
Defined.

(** An instance: an option getopt_long() does not know. *)
Lemma main_exit_status_witness :
  main scripted_env scripted_step scripted_atoi 0
    [(63, ""%string)] 2 2 ""%string (at_start (script [] [] [])) =
  Done 2
    (mk_state (script [] [] []) globals_init [] 0
       [Print (MsgFailedInternal 2); Free 0; Free 0]) /\
  (2 = 0 \/ 2 = 127 \/ 2 <= 2).
Proof.
  split; [vm_compute; reflexivity |].
  apply (main_exit_status scripted_env scripted_step scripted_atoi 0
           [(63, ""%string)] 2 2 ""%string (at_start (script [] [] []))
           (mk_state (script [] [] []) globals_init [] 0
              [Print (MsgFailedInternal 2); Free 0; Free 0])
           2).
  vm_compute. reflexivity.
Defined.

(** An instance: --test with every malloc() granted. *)
Lemma main_frees_everything_witness :
  args_owned (st_globals (at_start (script [true; true; true] [] [])))
    (st_heap (at_start (script [true; true; true] [] []))) /\
  main scripted_env scripted_step scripted_atoi 0
    [(ARG_TEST, ""%string)] 2 2 ""%string
    (at_start (script [true; true; true] [] [])) =
  Done 0
    (mk_state (script [] [] []) (mk_globals 1 6 1 2 6 true) [] 0
       [TestSetup; Malloc 6; Free 0; Malloc 6; Free 0; Malloc 2;
        ConfigNew; ConfigSetBroadcastMac 1000 1 6;
        ConfigSetIfindex 1000 1; ConfigSetMac 1000 2 6; ClientNew 1000;
        ConfigFreep 1000; ProbeConfigNew; ClientProbe 1000 1000;
        ProbeConfigFreep 1000; ProbeFree 1000; ClientUnref 1000; Free 3;
        Free 1; Free 2]) /\
  st_heap
    (mk_state (script [] [] []) (mk_globals 1 6 1 2 6 true) [] 0
       [TestSetup; Malloc 6; Free 0; Malloc 6; Free 0; Malloc 2;
        ConfigNew; ConfigSetBroadcastMac 1000 1 6;
        ConfigSetIfindex 1000 1; ConfigSetMac 1000 2 6; ClientNew 1000;
        ConfigFreep 1000; ProbeConfigNew; ClientProbe 1000 1000;
        ProbeConfigFreep 1000; ProbeFree 1000; ClientUnref 1000; Free 3;
        Free 1; Free 2]) = [].
Proof.
  split; [apply args_owned_at_start |].
  split; [vm_compute; reflexivity |].
  apply (main_frees_everything scripted_env scripted_step scripted_atoi 0
           [(ARG_TEST, ""%string)] 2 2 ""%string
           (at_start (script [true; true; true] [] [])) _ 0).
  - apply args_owned_at_start.
  - vm_compute. reflexivity.
Defined.

(** An instance: an argument left over after --mac. *)
Lemma main_stops_on_argument_error_witness :
  parse_argv scripted_env scripted_step scripted_atoi
    [(ARG_MAC, "001122334455"%string)] 3 4 "x"%string
    (at_start (script [true] [] [])) =
  Done MAIN_FAILED
    (mk_state (script [] [] []) (mk_globals NULL 0 0 1 6 false)
       [(1, [0; 17; 34; 51; 68; 85])] 0
       [Malloc 6; Free 0; Print (MsgInvalidArguments "x"%string)]) /\
  exists r' s',
    main scripted_env scripted_step scripted_atoi 0
      [(ARG_MAC, "001122334455"%string)] 3 4 "x"%string
      (at_start (script [true] [] [])) = Done r' s' /\
    st_heap s' = [] /\
    (exists t,
        st_trace s' = st_trace (at_start (script [true] [] [])) ++ t /\
        forallb (fun c => negb (is_client_call c)) t = true) /\
    (MAIN_FAILED = MAIN_EXIT -> r' = 0) /\
    (MAIN_FAILED < 0 -> r' = 127) /\
    (1 < MAIN_FAILED -> r' = MAIN_FAILED).
Proof.
  split; [vm_compute; reflexivity |].
  apply (main_stops_on_argument_error scripted_env scripted_step
           scripted_atoi 0 [(ARG_MAC, "001122334455"%string)] 3 4
           "x"%string (at_start (script [true] [] []))
           (mk_state (script [] [] []) (mk_globals NULL 0 0 1 6 false)
              [(1, [0; 17; 34; 51; 68; 85])] 0
              [Malloc 6; Free 0; Print (MsgInvalidArguments "x"%string)])
           MAIN_FAILED).
  - apply args_owned_at_start.
  - vm_compute. reflexivity.
  - discriminate.
Defined.

End ScriptedClient.
